(** * lite_cpplib: byte order helpers, byte stream, event, IOCP contexts,
      pools, worker threads and facades

    A shallow embedding of the C++ sources and the properties checked on it.
    Integers of the source are [Z] with the wrap-around of their C++ type
    written out; bytes are [Z] in [0, 256); memory blocks are lists of bytes;
    code that mutates an object, throws or runs into undefined behaviour is
    written in a state monad whose outcome records which of these happened. *)

From Stdlib Require Import ZArith Lia List Bool String.
From stdpp Require Import gmap list sorting.
Import ListNotations.
Open Scope Z_scope.

(** ** Outcomes of a C++ call and the state monad they live in *)

Module Eff.

(** What the C++ standard leaves undefined, kept apart by cause. *)
Inductive fault :=
| NullDereference
| UseAfterFree
| InvalidDelete
| OutOfBoundsRead
| BufferOverrun (copied capacity : Z).

(** [base/exception.h] classes used by the modelled code, and the bare
    [throw -1] of [ByteStream::SetReadPtr] and [Event]. *)
Inductive exception :=
| access_violation_exception (msg : string)
| null_ptr_exception
| int_exception (code : Z).

Inductive outcome (A : Type) :=
| Returns (a : A)
| Throws (e : exception)
| Undefined (f : fault)
| OutOfFuel.

Arguments Returns {A} a.
Arguments Throws {A} e.
Arguments Undefined {A} f.
Arguments OutOfFuel {A}.

(** A method of an object of type [S]: it sees and leaves a state. *)
Definition M (S A : Type) : Type := S -> outcome A * S.

Definition ret {S A} (a : A) : M S A := fun s => (Returns a, s).

Definition bind {S A B} (m : M S A) (k : A -> M S B) : M S B :=
  fun s =>
    match m s with
    | (Returns a, s') => k a s'
    | (Throws e, s') => (Throws e, s')
    | (Undefined f, s') => (Undefined f, s')
    | (OutOfFuel, s') => (OutOfFuel, s')
    end.

Definition throw {S A} (e : exception) : M S A := fun s => (Throws e, s).
Definition undefined {S A} (f : fault) : M S A := fun s => (Undefined f, s).
Definition get {S} : M S S := fun s => (Returns s, s).
Definition gets {S A} (f : S -> A) : M S A := fun s => (Returns (f s), s).
Definition put {S} (s : S) : M S unit := fun _ => (Returns tt, s).
Definition modify {S} (f : S -> S) : M S unit := fun s => (Returns tt, f s).

End Eff.

Import Eff.

Notation "'let*' x := m 'in' k" := (bind m (fun x => k))
  (at level 10, x name, m at level 100, k at level 200).
Notation "'let*' ' p := m 'in' k" := (bind m (fun p => k))
  (at level 10, p strict pattern, m at level 100, k at level 200).

(** ** base/byte_order.h *)

Module ByteOrder.

Inductive BYTEORDER := LITTLE_ENDIAN | BIG_ENDIAN.

(** The two branches of the [#ifdef OS_WIN / #elif defined(OS_LINUX)]. *)
Inductive OS := OS_WIN | OS_LINUX.

Definition HOST_IS_LITTLE_ENDIAN (os : OS) : bool :=
  match os with OS_WIN => true | OS_LINUX => false end.

Definition HOST_BYTEORDER (os : OS) : BYTEORDER :=
  match os with OS_WIN => LITTLE_ENDIAN | OS_LINUX => BIG_ENDIAN end.

Definition NETWORK_BYTEORDER (os : OS) : BYTEORDER :=
  match os with OS_WIN => BIG_ENDIAN | OS_LINUX => BIG_ENDIAN end.

Definition BYTEORDER_eqb (a b : BYTEORDER) : bool :=
  match a, b with
  | LITTLE_ENDIAN, LITTLE_ENDIAN | BIG_ENDIAN, BIG_ENDIAN => true
  | _, _ => false
  end.

(** [static_cast<T>(z)] for the fixed-width integer types. *)
Definition uint8_t (z : Z) : Z := z mod 2 ^ 8.
Definition uint16_t (z : Z) : Z := z mod 2 ^ 16.
Definition uint32_t (z : Z) : Z := z mod 2 ^ 32.
Definition uint64_t (z : Z) : Z := z mod 2 ^ 64.

Definition signed_wrap (bits : Z) (z : Z) : Z :=
  let u := z mod 2 ^ bits in
  if u <? 2 ^ (bits - 1) then u else u - 2 ^ bits.

Definition int8_t (z : Z) : Z := signed_wrap 8 z.
Definition int16_t (z : Z) : Z := signed_wrap 16 z.
Definition int32_t (z : Z) : Z := signed_wrap 32 z.
Definition int64_t (z : Z) : Z := signed_wrap 64 z.

(** [ReverseShort]: the operands are promoted to [int]; the outer and the
    inner [static_cast<uint16_t>] are the source's. *)
Definition ReverseShort (d : Z) : Z :=
  uint16_t (Z.lor (Z.shiftl (Z.land d 0x00ff) 8)
                  (uint16_t (Z.shiftr (Z.land d 0xff00) 8))).

(** [ReverseInt]: 32-bit unsigned arithmetic, so a left shift wraps. *)
Definition ReverseInt (d : Z) : Z :=
  Z.lor (Z.lor (Z.lor (uint32_t (Z.shiftl (Z.land d 0x000000ff) 24))
                      (uint32_t (Z.shiftl (Z.land d 0x0000ff00) 8)))
               (Z.shiftr (Z.land d 0x00ff0000) 8))
        (Z.shiftr (Z.land d 0xff000000) 24).

(** [ReverseLog] (the source's spelling): 64-bit unsigned arithmetic. *)
Definition ReverseLog (d : Z) : Z :=
  Z.lor (Z.lor (Z.lor (Z.lor (Z.lor (Z.lor (Z.lor
    (Z.shiftr (Z.land d 0xff00000000000000) 56)
    (Z.shiftr (Z.land d 0x00ff000000000000) 40))
    (Z.shiftr (Z.land d 0x0000ff0000000000) 24))
    (Z.shiftr (Z.land d 0x000000ff00000000) 8))
    (uint64_t (Z.shiftl (Z.land d 0x00000000ff000000) 8)))
    (uint64_t (Z.shiftl (Z.land d 0x0000000000ff0000) 24)))
    (uint64_t (Z.shiftl (Z.land d 0x000000000000ff00) 40)))
    (uint64_t (Z.shiftl (Z.land d 0x00000000000000ff) 56)).

(** Modelled from the spec: [HtonUint64] and [NtohUint64] call a function
    [ReverseLong] that no source file declares.  The spec lists the byte-order
    helpers as "16/32/64-bit host<->network swaps", and the only 64-bit swap of
    the header is [ReverseLog]; [ReverseLong] is taken to be that function. *)
Definition ReverseLong (d : Z) : Z := ReverseLog d.

Section Host.
Variable os : OS.

Definition HtonUint16 (d : Z) : Z :=
  if HOST_IS_LITTLE_ENDIAN os then ReverseShort d else d.
Definition NtohUint16 (d : Z) : Z :=
  if HOST_IS_LITTLE_ENDIAN os then ReverseShort d else d.
Definition HtonUint32 (d : Z) : Z :=
  if HOST_IS_LITTLE_ENDIAN os then ReverseInt d else d.
Definition NtohUint32 (d : Z) : Z :=
  if HOST_IS_LITTLE_ENDIAN os then ReverseInt d else d.
Definition HtonUint64 (d : Z) : Z :=
  if HOST_IS_LITTLE_ENDIAN os then ReverseLong d else d.
Definition NtohUint64 (d : Z) : Z :=
  if HOST_IS_LITTLE_ENDIAN os then ReverseLong d else d.

End Host.

End ByteOrder.

Import ByteOrder.

(** ** Raw memory: blocks of bytes and [memcpy] *)

Module Mem.

Definition size_of (buf : list Z) : Z := Z.of_nat (length buf).

(** [n] bytes of [buf] from offset [off]; [None] when the range leaves the
    block. *)
Definition block_read (buf : list Z) (off n : Z) : option (list Z) :=
  if (0 <=? off) && (0 <=? n) && (off + n <=? size_of buf)
  then Some (take (Z.to_nat n) (drop (Z.to_nat off) buf))
  else None.

(** [buf] with [src] stored from offset [off]; [None] when the range leaves
    the block. *)
Definition block_write (buf : list Z) (off : Z) (src : list Z) : option (list Z) :=
  if (0 <=? off) && (off + size_of src <=? size_of buf)
  then Some (take (Z.to_nat off) buf ++ src
               ++ drop (Z.to_nat (off + size_of src)) buf)
  else None.

(** Object representation of an integer: [n] bytes, least significant first.
    On a negative [v] this is the two's complement pattern. *)
Fixpoint le_bytes (n : nat) (v : Z) : list Z :=
  match n with
  | O => []
  | S k => v mod 256 :: le_bytes k (v / 256)
  end.

Fixpoint le_value (bs : list Z) : Z :=
  match bs with
  | [] => 0
  | b :: rest => b + 256 * le_value rest
  end.

End Mem.

Import Mem.

(** ** tools/byte_stream.h *)

Module BS.

Record ByteStream := mkByteStream {
  data_ : option (list Z);      (* NULL, or the block [data_] points to *)
  read_idx_ : Z;
  write_idx_ : Z;
  stream_size_ : Z;
  mallocated_ : bool;
  byte_order_ : BYTEORDER }.

Definition set_data_ (v : option (list Z)) (s : ByteStream) : ByteStream :=
  mkByteStream v (read_idx_ s) (write_idx_ s) (stream_size_ s) (mallocated_ s) (byte_order_ s).
Definition set_read_idx_ (v : Z) (s : ByteStream) : ByteStream :=
  mkByteStream (data_ s) v (write_idx_ s) (stream_size_ s) (mallocated_ s) (byte_order_ s).
Definition set_write_idx_ (v : Z) (s : ByteStream) : ByteStream :=
  mkByteStream (data_ s) (read_idx_ s) v (stream_size_ s) (mallocated_ s) (byte_order_ s).
Definition set_stream_size_ (v : Z) (s : ByteStream) : ByteStream :=
  mkByteStream (data_ s) (read_idx_ s) (write_idx_ s) v (mallocated_ s) (byte_order_ s).
Definition set_mallocated_ (v : bool) (s : ByteStream) : ByteStream :=
  mkByteStream (data_ s) (read_idx_ s) (write_idx_ s) (stream_size_ s) v (byte_order_ s).
Definition set_byte_order_ (v : BYTEORDER) (s : ByteStream) : ByteStream :=
  mkByteStream (data_ s) (read_idx_ s) (write_idx_ s) (stream_size_ s) (mallocated_ s) v.

(** Well-formed streams: the cursors are ordered and inside the capacity,
    the capacity is a 32-bit value and is the size of the block, a null block
    has capacity zero. The default constructor, the sized constructor and the
    constructor on a caller's block of the stated size give such streams. *)
Definition wf (s : ByteStream) : Prop :=
  0 <= read_idx_ s <= write_idx_ s /\
  write_idx_ s <= stream_size_ s /\
  stream_size_ s < 2 ^ 32 /\
  match data_ s with
  | Some buf => size_of buf = stream_size_ s
  | None => stream_size_ s = 0
  end.

(** The bytes before the write cursor, and those between the cursors. *)
Definition written (s : ByteStream) : list Z :=
  match data_ s with
  | Some buf => take (Z.to_nat (write_idx_ s)) buf
  | None => []
  end.

Definition unread (s : ByteStream) : list Z :=
  drop (Z.to_nat (read_idx_ s)) (written s).

(** The eight integer types of the typed [<<] and [>>] overloads. *)
Inductive scalar := Int8 | Int16 | Int32 | Int64 | Uint8 | Uint16 | Uint32 | Uint64.

Definition sizeof (t : scalar) : Z :=
  match t with
  | Int8 | Uint8 => 1
  | Int16 | Uint16 => 2
  | Int32 | Uint32 => 4
  | Int64 | Uint64 => 8
  end.

Definition cast (t : scalar) (z : Z) : Z :=
  match t with
  | Int8 => int8_t z | Int16 => int16_t z | Int32 => int32_t z | Int64 => int64_t z
  | Uint8 => uint8_t z | Uint16 => uint16_t z | Uint32 => uint32_t z | Uint64 => uint64_t z
  end.

(** The values a variable of type [t] can hold. *)
Definition in_range (t : scalar) (v : Z) : Prop :=
  match t with
  | Int8 => - 2 ^ 7 <= v < 2 ^ 7
  | Int16 => - 2 ^ 15 <= v < 2 ^ 15
  | Int32 => - 2 ^ 31 <= v < 2 ^ 31
  | Int64 => - 2 ^ 63 <= v < 2 ^ 63
  | Uint8 => 0 <= v < 2 ^ 8
  | Uint16 => 0 <= v < 2 ^ 16
  | Uint32 => 0 <= v < 2 ^ 32
  | Uint64 => 0 <= v < 2 ^ 64
  end.

Section Platform.

(** Which [#ifdef] branch is compiled. *)
Variable os : OS.
(** Whether the machine stores the least significant byte first (it does on
    every Windows target; the headers do not say for Linux). *)
Variable little_endian_memory : bool.
(** Content of the [i]-th byte of a block fresh from [new uint8_t[n]]: the
    source never initialises it. *)
Variable uninit : nat -> Z.

Definition new_array (n : Z) : list Z := map uninit (seq 0 (Z.to_nat n)).

(** The bytes [memcpy] sees at the address of a variable of type [t]. *)
Definition object_bytes (t : scalar) (v : Z) : list Z :=
  let bs := le_bytes (Z.to_nat (sizeof t)) v in
  if little_endian_memory then bs else rev bs.

(** The value a variable of type [t] holds after [memcpy] stored [bs] in it. *)
Definition object_value (t : scalar) (bs : list Z) : Z :=
  cast t (le_value (if little_endian_memory then bs else rev bs)).

(** [ByteStream(uint32_t size = 0)]; the source allocates [uSize] bytes, an
    undeclared name read as [size]. *)
Definition ByteStream_new (size : Z) : ByteStream :=
  if 0 <? size
  then mkByteStream (Some (new_array size)) 0 0 size true (HOST_BYTEORDER os)
  else mkByteStream None 0 0 0 false (HOST_BYTEORDER os).

(** [ByteStream(const uint8_t* data, uint32_t size)]: the stream borrows the
    caller's block. *)
Definition ByteStream_wrap (data : option (list Z)) (size : Z) : ByteStream :=
  mkByteStream data 0 size size false (HOST_BYTEORDER os).

Definition GetBufferSize (s : ByteStream) : Z := stream_size_ s.
Definition GetBuffer (s : ByteStream) : option (list Z) := data_ s.
Definition GetReadPtr (s : ByteStream) : Z := read_idx_ s.
Definition GetWritePtr (s : ByteStream) : Z := write_idx_ s.

Definition Eof (s : ByteStream) : bool := GetReadPtr s =? GetWritePtr s.

Definition SetByteOrder (byte_order : BYTEORDER) : M ByteStream unit :=
  modify (set_byte_order_ byte_order).

(** [_Reserve]: the early return needs an owned, non-null block; otherwise
    the requested size is raised twice and a fresh block is allocated. The
    sums are 32-bit. *)
Definition _Reserve (new_size : Z) : M ByteStream unit :=
  let* s := get in
  let data := data_ s in
  if (new_size <=? stream_size_ s) && bool_decide (data_ s <> None) && mallocated_ s
  then ret tt
  else
    let new_size :=
      if new_size <? uint32_t (stream_size_ s + 1024)
      then uint32_t (stream_size_ s + 1024) else new_size in
    let new_size :=
      if new_size <? uint32_t (stream_size_ s + stream_size_ s / 16)
      then uint32_t (stream_size_ s + stream_size_ s / 16) else new_size in
    let fresh := new_array new_size in
    match data with
    | Some old =>
        match block_read old 0 (write_idx_ s) with
        | None => undefined OutOfBoundsRead
        | Some src =>
            match block_write fresh 0 src with
            | None => undefined (BufferOverrun (write_idx_ s) new_size)
            | Some copied =>
                put (set_mallocated_ true
                       (set_stream_size_ new_size (set_data_ (Some copied) s)))
            end
        end
    | None =>
        put (set_mallocated_ true
               (set_stream_size_ new_size (set_data_ (Some fresh) s)))
    end.

(** [Add(const void* data, uint32_t size)]; [data] is [None] for a null
    pointer, else the block it points to. *)
Definition Add (data : option (list Z)) (size : Z) : M ByteStream unit :=
  match data with
  | None => ret tt
  | Some src_block =>
      if size =? 0 then ret tt
      else
        let* s0 := get in
        let* _ := _Reserve (uint32_t (write_idx_ s0 + size)) in
        let* s := get in
        match block_read src_block 0 size, data_ s with
        | None, _ => undefined OutOfBoundsRead
        | Some _, None => undefined NullDereference
        | Some src, Some buf =>
            match block_write buf (write_idx_ s) src with
            | None => undefined (BufferOverrun (write_idx_ s + size) (size_of buf))
            | Some buf' =>
                put (set_write_idx_ (uint32_t (write_idx_ s + size))
                       (set_data_ (Some buf') s))
            end
        end
  end.

(** [Get(void* data, uint32_t read_size)], returning the bytes stored at
    [data]. *)
Definition Get (read_size : Z) : M ByteStream (list Z) :=
  let* s := get in
  match data_ s with
  | None => throw (access_violation_exception "byte stream overflow")
  | Some buf =>
      if uint32_t (read_size + read_idx_ s) >? write_idx_ s
      then throw (access_violation_exception "byte stream overflow")
      else
        match block_read buf (read_idx_ s) read_size with
        | None => undefined OutOfBoundsRead
        | Some bytes =>
            let* _ := put (set_read_idx_ (uint32_t (read_idx_ s + read_size)) s) in
            ret bytes
        end
  end.

(** [SetReadPtr]; the source compares with [wirte_idx_], an undeclared name
    read as [write_idx_]. *)
Definition SetReadPtr (read_idx : Z) : M ByteStream unit :=
  let* s := get in
  if read_idx >? write_idx_ s
  then throw (int_exception (-1))
  else put (set_read_idx_ read_idx s).

Definition SetWritePtr (write_idx : Z) : M ByteStream unit :=
  let* s := get in
  let write_idx := if write_idx >? stream_size_ s then stream_size_ s else write_idx in
  put (set_write_idx_ write_idx s).

(** The six [_WriteByteorder] overloads; there is none for the 8-bit types. *)
Definition _WriteByteorder (t : scalar) (byte_order : BYTEORDER) (d : Z) : Z :=
  let network := BYTEORDER_eqb byte_order (NETWORK_BYTEORDER os) in
  match t with
  | Int16 => if network then int16_t (HtonUint16 os (uint16_t d)) else d
  | Uint16 => if network then HtonUint16 os d else d
  | Int32 => if network then int32_t (HtonUint32 os (uint32_t d)) else d
  | Uint32 => if network then HtonUint32 os d else d
  | Int64 => if network then int64_t (HtonUint64 os (uint64_t d)) else d
  | Uint64 => if network then HtonUint64 os d else d
  | Int8 | Uint8 => d
  end.

(** The six [_ReadByteorder] overloads. *)
Definition _ReadByteorder (t : scalar) (byte_order : BYTEORDER) (d : Z) : Z :=
  let network := BYTEORDER_eqb byte_order (NETWORK_BYTEORDER os) in
  match t with
  | Int16 => if network then int16_t (NtohUint16 os (uint16_t d)) else d
  | Uint16 => if network then NtohUint16 os d else d
  | Int32 => if network then int32_t (NtohUint32 os (uint32_t d)) else d
  | Uint32 => if network then NtohUint32 os d else d
  | Int64 => if network then int64_t (NtohUint64 os (uint64_t d)) else d
  | Uint64 => if network then NtohUint64 os d else d
  | Int8 | Uint8 => d
  end.

(** [operator <<] for the integer type [t]: the 8-bit overloads add the byte
    as it is, the others add the converted object. *)
Definition op_lshift (t : scalar) (b : Z) : M ByteStream unit :=
  let* s := get in
  match t with
  | Int8 | Uint8 => Add (Some (object_bytes t b)) 1
  | _ => Add (Some (object_bytes t (_WriteByteorder t (byte_order_ s) b))) (sizeof t)
  end.

(** [operator >>] for the integer type [t]. *)
Definition op_rshift (t : scalar) : M ByteStream Z :=
  match t with
  | Int8 | Uint8 =>
      let* bytes := Get 1 in
      ret (object_value t bytes)
  | _ =>
      let* bytes := Get (sizeof t) in
      let* s := get in
      ret (_ReadByteorder t (byte_order_ s) (object_value t bytes))
  end.

Definition GetInt8 : M ByteStream Z := op_rshift Int8.
Definition GetUint8 : M ByteStream Z := op_rshift Uint8.
Definition PutInt8 (value : Z) : M ByteStream unit := op_lshift Int8 value.
Definition PutUint8 (value : Z) : M ByteStream unit := op_lshift Uint8 value.
Definition GetInt16 : M ByteStream Z := op_rshift Int16.
Definition GetUint16 : M ByteStream Z := op_rshift Uint16.
Definition PutInt16 (value : Z) : M ByteStream unit := op_lshift Int16 value.
Definition PutUint16 (value : Z) : M ByteStream unit := op_lshift Uint16 value.
Definition GetInt32 : M ByteStream Z := op_rshift Int32.
Definition GetUint32 : M ByteStream Z := op_rshift Uint32.
Definition PutInt32 (value : Z) : M ByteStream unit := op_lshift Int32 value.
Definition PutUint32 (value : Z) : M ByteStream unit := op_lshift Uint32 value.
Definition GetInt64 : M ByteStream Z := op_rshift Int64.
Definition GetUint64 : M ByteStream Z := op_rshift Uint64.
Definition PutInt64 (value : Z) : M ByteStream unit := op_lshift Int64 value.
Definition PutUint64 (value : Z) : M ByteStream unit := op_lshift Uint64 value.

(** [std::string] built from a [char] pointer: the bytes before the first zero byte of the
    block; undefined for a null pointer or a block without a zero byte. *)
Fixpoint c_str (buf : list Z) : option (list Z) :=
  match buf with
  | [] => None
  | c :: rest => if c =? 0 then Some [] else option_map (cons c) (c_str rest)
  end.

Definition string_of_buffer (p : option (list Z)) : outcome (list Z) :=
  match p with
  | None => Undefined NullDereference
  | Some buf =>
      match c_str buf with
      | Some str => Returns str
      | None => Undefined OutOfBoundsRead
      end
  end.

(** The loop of [GetString]: the state is [*this], the local stream [bs] is
    passed along. One unit of fuel per iteration. *)
Fixpoint GetString_loop (fuel : nat) (bs : ByteStream) : M ByteStream ByteStream :=
  match fuel with
  | O => fun s => (OutOfFuel, s)
  | S fuel' =>
      let* s := get in
      if Eof s then
        fun s' => match PutUint8 0 bs with
                  | (Returns _, bs') => (Returns bs', s')
                  | (Throws e, _) => (Throws e, s')
                  | (Undefined f, _) => (Undefined f, s')
                  | (OutOfFuel, _) => (OutOfFuel, s')
                  end
      else
        let* c := GetUint8 in
        fun s' => match PutUint8 c bs with
                  | (Returns _, bs') =>
                      if c =? 0 then (Returns bs', s') else GetString_loop fuel' bs' s'
                  | (Throws e, _) => (Throws e, s')
                  | (Undefined f, _) => (Undefined f, s')
                  | (OutOfFuel, _) => (OutOfFuel, s')
                  end
  end.

Definition GetString (fuel : nat) : M ByteStream (list Z) :=
  let* bs := GetString_loop fuel (ByteStream_new 0) in
  fun s => (string_of_buffer (GetBuffer bs), s).

(** *** Strings, stream arguments, copies and [FlushReadPtr] *)

(** [strlen]: the count of bytes before the first zero byte of the block;
    [None] when the block holds no zero byte, the scan then leaves it. *)
Definition strlen (block : list Z) : option Z := option_map size_of (c_str block).

(** A [std::string] is the list of its bytes; what [c_str()] points to is
    that list followed by a zero byte. *)
Definition string_c_str (str : list Z) : list Z := str ++ [0].

(** [Add(const char* append_str)] *)
Definition Add_cstr (append_str : option (list Z)) : M ByteStream unit :=
  match append_str with
  | None => ret tt
  | Some block =>
      match strlen block with
      | None => undefined OutOfBoundsRead
      | Some len => if len =? 0 then ret tt else Add append_str (uint32_t len)
      end
  end.

(** [Add(string& append_str)] *)
Definition Add_string (append_str : list Z) : M ByteStream unit :=
  Add (Some (string_c_str append_str)) (uint32_t (size_of append_str)).

(** [Add(const ByteStream& append_str)], for a stream other than [*this]. *)
Definition Add_stream (append_str : ByteStream) : M ByteStream unit :=
  Add (GetBuffer append_str) (GetWritePtr append_str).

(** [operator <<(char* str)]: the string and its terminating zero. *)
Definition op_lshift_cstr (str : option (list Z)) : M ByteStream unit :=
  match str with
  | None => throw null_ptr_exception
  | Some block =>
      match strlen block with
      | None => undefined OutOfBoundsRead
      | Some len => Add str (uint32_t (len + 1))
      end
  end.

(** [operator <<(string& str)] and [PutString] *)
Definition op_lshift_string (str : list Z) : M ByteStream unit :=
  op_lshift_cstr (Some (string_c_str str)).

Definition PutString (str : list Z) : M ByteStream unit := op_lshift_string str.

(** [operator <<(const ByteStream& bs)], for a stream other than [*this]. *)
Definition op_lshift_stream (bs : ByteStream) : M ByteStream unit :=
  Add (GetBuffer bs) (uint32_t (GetWritePtr bs)).

(** [operator >>(string& str)] *)
Definition op_rshift_string (fuel : nat) : M ByteStream (list Z) := GetString fuel.

(** [_Free]; the byte order is not reset. *)
Definition _Free : M ByteStream unit :=
  modify (fun s => mkByteStream None 0 0 0 false (byte_order_ s)).

(** [operator=(const ByteStream& c)]. [c] is [None] when the argument is
    [*this] itself: its members are then read after [_Free] has run. The
    source tests [c.m_uStreamSize], an undeclared name read as
    [c.stream_size_]. *)
Definition op_assign (c : option ByteStream) : M ByteStream unit :=
  let* _ := _Free in
  let* this := get in
  let c := default this c in
  if 0 <? stream_size_ c then
    let fresh := new_array (stream_size_ c) in
    let assigned (block : list Z) : ByteStream :=
      mkByteStream (Some block) (read_idx_ c) (write_idx_ c) (stream_size_ c) true
        (byte_order_ c) in
    match data_ c with
    | None => fun _ => (Undefined NullDereference, assigned fresh)
    | Some old =>
        match block_read old 0 (write_idx_ c) with
        | None => fun _ => (Undefined OutOfBoundsRead, assigned fresh)
        | Some src =>
            match block_write fresh 0 src with
            | None => fun _ => (Undefined (BufferOverrun (write_idx_ c) (stream_size_ c)),
                                assigned fresh)
            | Some copied => put (assigned copied)
            end
        end
    end
  else ret tt.

(** [ByteStream(const ByteStream& c)] *)
Definition ByteStream_copy (c : ByteStream) : outcome unit * ByteStream :=
  op_assign (Some c) (mkByteStream None 0 0 0 false (HOST_BYTEORDER os)).

(** What [FlushReadPtr] does: it runs to an outcome, or it hands [memcpy] two
    ranges of the block that overlap, which the C library leaves undefined. *)
Inductive flush_result :=
| Flushed (r : outcome unit * ByteStream)
| FlushOverlap.

(** [FlushReadPtr]: the bytes from the read cursor to the end of the block
    are copied to its start, [capacity - read cursor] of them (a 32-bit
    difference), then both cursors are moved down. *)
Definition FlushReadPtr (s : ByteStream) : flush_result :=
  match GetBuffer s with
  | None => Flushed (Returns tt, s)
  | Some buf =>
      let n := uint32_t (GetBufferSize s - GetReadPtr s) in
      if (0 <? n) && (GetReadPtr s <? n) then FlushOverlap
      else
        match block_read buf (GetReadPtr s) n with
        | None => Flushed (Undefined OutOfBoundsRead, s)
        | Some src =>
            match block_write buf 0 src with
            | None => Flushed (Undefined (BufferOverrun n (size_of buf)), s)
            | Some moved =>
                Flushed
                  ((let* _ := SetWritePtr (uint32_t (GetWritePtr s - GetReadPtr s)) in
                    SetReadPtr 0) (set_data_ (Some moved) s))
            end
        end
  end.


End Platform.

(** Two streams used as examples: a borrowed block of four bytes, and a
    borrowed block holding the bytes of "hi!". *)
Definition four_bytes : ByteStream := ByteStream_wrap OS_WIN (Some [1; 2; 3; 4]) 4.
Definition hi_stream : ByteStream := ByteStream_wrap OS_WIN (Some [104; 105; 33]) 3.

(** More example streams: a borrowed block holding "hi", a zero byte, "yo",
    a zero byte and one byte more; and the four-byte stream after three of
    its bytes were read. *)
Definition two_strings : ByteStream :=
  ByteStream_wrap OS_WIN (Some [104; 105; 0; 121; 111; 0; 7]) 7.
Definition mostly_read : ByteStream := snd (SetReadPtr 3 four_bytes).

(** The filler for memory that [new] leaves uninitialised, in the examples. *)
Definition zero_fill : nat -> Z := fun _ => 0.

End BS.

(** ** event/event.h, the [OS_LINUX] branch *)

Module EventLinux.

(** The pthread calls an [Event] method makes, in order. *)
Inductive call :=
| pthread_mutex_lock
| pthread_mutex_trylock
| pthread_mutex_unlock
| pthread_cond_broadcast
| pthread_cond_wait
| pthread_cond_timewait (tv_sec tv_nsec : Z)
| clock_gettime.

Record Event := mkEvent {
  mutex_held : bool;        (* [mutex_handle_] is held by the calling thread *)
  event_state_ : bool;
  calls : list call }.

(** [Event::Event()] *)
Definition Event_new : Event := mkEvent false false [].

Definition log (c : call) : M Event unit :=
  modify (fun e => mkEvent (mutex_held e) (event_state_ e) (calls e ++ [c])).
Definition set_mutex_held (b : bool) : M Event unit :=
  modify (fun e => mkEvent b (event_state_ e) (calls e)).
Definition set_event_state_ (b : bool) : M Event unit :=
  modify (fun e => mkEvent (mutex_held e) b (calls e)).

(** What the operating system answers during one call of a method. A wait on
    the condition variable releases the mutex, so other threads run: each
    answer of a wait carries the value of [event_state_] the caller finds
    when the wait returns. *)
Record pthread_answers := mkAnswers {
  lock_rc : Z;
  trylock_rc : Z;
  clock_gettime_rc : Z;
  now : Z * Z;                       (* [tv_sec], [tv_nsec] of the clock *)
  wait_rcs : list (Z * bool) }.

Definition ETIMEDOUT : Z := 110.

Definition Reset (os : pthread_answers) : M Event unit :=
  let* _ := log pthread_mutex_lock in
  if negb (lock_rc os =? 0) then throw (int_exception (-1))
  else
    let* _ := set_mutex_held true in
    let* _ := set_event_state_ false in
    let* _ := log pthread_mutex_unlock in
    set_mutex_held false.

Definition Signal (os : pthread_answers) : M Event unit :=
  let* _ := log pthread_mutex_lock in
  if negb (lock_rc os =? 0) then throw (int_exception (-1))
  else
    let* _ := set_mutex_held true in
    let* _ := set_event_state_ true in
    let* _ := log pthread_cond_broadcast in
    let* _ := log pthread_mutex_unlock in
    set_mutex_held false.

Definition unlock_and_return (b : bool) : M Event bool :=
  let* _ := log pthread_mutex_unlock in
  let* _ := set_mutex_held false in
  ret b.

(** [while (!event_state_) { if (pthread_cond_wait(..) != 0) {unlock; return
    false;} }], then the unlock and [return true] after the loop. *)
Fixpoint wait_forever (answers : list (Z * bool)) : M Event bool :=
  let* e := get in
  if negb (event_state_ e) then
    match answers with
    | [] => fun e' => (OutOfFuel, e')
    | (rc, state) :: rest =>
        let* _ := log pthread_cond_wait in
        let* _ := set_event_state_ state in
        if negb (rc =? 0) then unlock_and_return false
        else wait_forever rest
    end
  else unlock_and_return true.

(** [while (event_state_) { if (pthread_cond_timewait(..) != 0) {unlock;
    return false;} }], then the unlock and [return true] after the loop. *)
Fixpoint wait_until (ts : Z * Z) (answers : list (Z * bool)) : M Event bool :=
  let* e := get in
  if event_state_ e then
    match answers with
    | [] => fun e' => (OutOfFuel, e')
    | (rc, state) :: rest =>
        let* _ := log (pthread_cond_timewait (fst ts) (snd ts)) in
        let* _ := set_event_state_ state in
        if negb (rc =? 0) then unlock_and_return false
        else wait_until ts rest
    end
  else unlock_and_return true.

(** The deadline computed from [timeout] milliseconds. *)
Definition deadline (ts : Z * Z) (timeout : Z) : Z * Z :=
  let tv_sec := fst ts + timeout / 1000 in
  let tv_nsec := snd ts + (timeout mod 1000) * 1000000 in
  if tv_nsec >=? 1000000000 then (tv_sec + 1, tv_nsec - 1000000000)
  else (tv_sec, tv_nsec).

Definition Wait (os : pthread_answers) (timeout : Z) : M Event bool :=
  let locked : M Event bool :=
    if timeout =? 0 then
      let* _ := log pthread_mutex_trylock in
      ret (trylock_rc os =? 0)
    else
      let* _ := log pthread_mutex_lock in
      ret (lock_rc os =? 0) in
  let* got := locked in
  if negb got then ret false
  else
    let* _ := set_mutex_held true in
    if timeout =? 0xffffffff then wait_forever (wait_rcs os)
    else
      let* _ := log clock_gettime in
      if clock_gettime_rc os =? -1 then ret false
      else wait_until (deadline (now os) timeout) (wait_rcs os).

(** An answer of a wait on the condition variable that makes the loop of
    [Wait] stop: the wait fails, or the caller finds the state the loop waits
    for, set in the branch without timeout and clear in the timed one. *)
Definition loop_ends (timeout : Z) (a : Z * bool) : Prop :=
  fst a <> 0 \/ snd a = (timeout =? 0xffffffff).

End EventLinux.

(** ** network/iocp_base.h: contexts and pools *)

Module IOCP.

(** Values of the Windows SDK the sources use by name. *)
Definition INVALID_SOCKET : Z := 2 ^ 64 - 1.
Definition SOCKET_ERROR : Z := -1.
Definition WAIT_TIMEOUT : Z := 258.
Definition ERROR_NETNAME_DELETED : Z := 64.
Definition WSA_IO_PENDING : Z := 997.
Definition WSAEWOULDBLOCK : Z := 10035.
Definition SD_SEND : Z := 1.
Definition AF_INET : Z := 2.
Definition sizeof_SOCKADDR_IN : Z := 16.

Definition MAX_IO_BUFFER_SIZE : Z := 4096.
Definition WORKER_THREADS_PER_PROCESSOR : Z := 2.
Definition MEM_POOL_SIZE : Z := 1000.

Inductive IO_OPERATION := ACCEPT_POSTED | RECV_POSTED | SEND_POSTED | NULL_POSTED.

Definition IO_OPERATION_eqb (a b : IO_OPERATION) : bool :=
  match a, b with
  | ACCEPT_POSTED, ACCEPT_POSTED | RECV_POSTED, RECV_POSTED
  | SEND_POSTED, SEND_POSTED | NULL_POSTED, NULL_POSTED => true
  | _, _ => false
  end.

Record OVERLAPPED := mkOVERLAPPED {
  Internal : Z; InternalHigh : Z; Offset : Z; OffsetHigh : Z; hEvent : Z }.

Record SOCKADDR_IN := mkSOCKADDR_IN {
  sin_family : Z; sin_port : Z; sin_addr : Z; sin_zero : list Z }.

(** What [ZeroMemory] leaves in the two structures. *)
Definition OVERLAPPED_zero : OVERLAPPED := mkOVERLAPPED 0 0 0 0 0.
Definition SOCKADDR_IN_zero : SOCKADDR_IN := mkSOCKADDR_IN 0 0 0 (repeat 0 8%nat).

(** Where a [char*] stored in a [WSABUF] points. *)
Inductive buf_pointer :=
| inline_buf            (* [buf_] of the context that holds the descriptor *)
| other_buf (a : Z).

Record WSABUF := mkWSABUF { WSABUF_len : Z; WSABUF_buf : buf_pointer }.

Record IOCP_IoContext := mkIoContext {
  overlapped_ : OVERLAPPED;
  sock_accept_ : Z;
  wsa_buf_ : WSABUF;
  buf_ : list Z;
  trans_len_ : Z;
  operation_ : IO_OPERATION;
  remote_addr_ : SOCKADDR_IN;
  addr_size_ : Z }.

(** An [IOCP_IoContext*]: an object made by [new], or the [recv_context_]
    member of the socket context at an address. *)
Inductive io_ptr := HeapIo (a : Z) | RecvIo (shell : Z).

Global Instance io_ptr_eq_dec : EqDecision io_ptr.
Proof. solve_decision. Defined.

(** Calls into the operating system and into the user's callbacks, in the
    order the code makes them. *)
Inductive event :=
| closesocket (s : Z)
| shutdown (s how : Z)
| send (s : Z) (len : Z)
| WSASocket
| WSAConnect (s : Z) (remote : SOCKADDR_IN)
| bind_addr (s : Z) (local : SOCKADDR_IN)   (* [bind] *)
| getsockname (s : Z)
| listen (s : Z)
| WSAIoctl (s : Z)
| WSARecv (s : Z) (io : io_ptr)
| WSASend (s : Z) (io : io_ptr)
| WSARecvFrom (s : Z) (io : io_ptr)
| WSASendTo (s : Z) (io : io_ptr)
| AcceptEx (listen_sock accept_sock : Z) (io : io_ptr)
| GetAcceptExSockAddrs (io : io_ptr)
| CreateIoCompletionPort (s key : Z)
| ConnectedCallback (sock_id : Z)
| ReceivedCallback (sock_id : Z) (data : list Z) (data_len : Z)
| DisconnectedCallback (sock_id : Z)
| ReceiveFromCallback (sock_id : Z) (data : list Z) (data_len : Z) (src_addr : SOCKADDR_IN).

Definition is_user_callback (e : event) : bool :=
  match e with
  | ConnectedCallback _ | ReceivedCallback _ _ _ | DisconnectedCallback _
  | ReceiveFromCallback _ _ _ _ => true
  | _ => false
  end.

(** [IOCP_IoContext()]: the constructor leaves [sock_accept_] as it finds
    it. *)
Definition IOCP_IoContext_new (indeterminate : Z) : IOCP_IoContext :=
  mkIoContext OVERLAPPED_zero indeterminate
    (mkWSABUF MAX_IO_BUFFER_SIZE inline_buf)
    (repeat 0 (Z.to_nat MAX_IO_BUFFER_SIZE)) 0 NULL_POSTED SOCKADDR_IN_zero
    sizeof_SOCKADDR_IN.

(** [IOCP_IoContext::Reset], with the system calls it makes. *)
Definition IOCP_IoContext_Reset (c : IOCP_IoContext) : list event * IOCP_IoContext :=
  let '(evs, accept) :=
    if INVALID_SOCKET =? sock_accept_ c
    then ([closesocket (sock_accept_ c)], INVALID_SOCKET)
    else ([], sock_accept_ c) in
  (evs,
   mkIoContext OVERLAPPED_zero accept
     (mkWSABUF MAX_IO_BUFFER_SIZE inline_buf)
     (repeat 0 (Z.to_nat MAX_IO_BUFFER_SIZE)) 0 NULL_POSTED SOCKADDR_IN_zero
     sizeof_SOCKADDR_IN).

(** [IOCP_IoContext::ResetBuffer] *)
Definition IOCP_IoContext_ResetBuffer (c : IOCP_IoContext) : IOCP_IoContext :=
  mkIoContext OVERLAPPED_zero (sock_accept_ c)
    (mkWSABUF MAX_IO_BUFFER_SIZE inline_buf)
    (repeat 0 (Z.to_nat MAX_IO_BUFFER_SIZE)) 0 (operation_ c) (remote_addr_ c)
    sizeof_SOCKADDR_IN.

Definition set_sock_accept_ (v : Z) (c : IOCP_IoContext) : IOCP_IoContext :=
  mkIoContext (overlapped_ c) v (wsa_buf_ c) (buf_ c) (trans_len_ c)
    (operation_ c) (remote_addr_ c) (addr_size_ c).
Definition set_wsa_buf_len (v : Z) (c : IOCP_IoContext) : IOCP_IoContext :=
  mkIoContext (overlapped_ c) (sock_accept_ c)
    (mkWSABUF v (WSABUF_buf (wsa_buf_ c))) (buf_ c) (trans_len_ c)
    (operation_ c) (remote_addr_ c) (addr_size_ c).
Definition set_buf_ (v : list Z) (c : IOCP_IoContext) : IOCP_IoContext :=
  mkIoContext (overlapped_ c) (sock_accept_ c) (wsa_buf_ c) v (trans_len_ c)
    (operation_ c) (remote_addr_ c) (addr_size_ c).
Definition set_trans_len_ (v : Z) (c : IOCP_IoContext) : IOCP_IoContext :=
  mkIoContext (overlapped_ c) (sock_accept_ c) (wsa_buf_ c) (buf_ c) v
    (operation_ c) (remote_addr_ c) (addr_size_ c).
Definition set_operation_ (v : IO_OPERATION) (c : IOCP_IoContext) : IOCP_IoContext :=
  mkIoContext (overlapped_ c) (sock_accept_ c) (wsa_buf_ c) (buf_ c) (trans_len_ c)
    v (remote_addr_ c) (addr_size_ c).
Definition set_remote_addr_ (v : SOCKADDR_IN) (c : IOCP_IoContext) : IOCP_IoContext :=
  mkIoContext (overlapped_ c) (sock_accept_ c) (wsa_buf_ c) (buf_ c) (trans_len_ c)
    (operation_ c) v (addr_size_ c).

(** [IOCP_IoContextPool]: the list holds pointers. *)
Record IOCP_IoContextPool := mkIoContextPool {
  pool_list_io_context_ : list io_ptr;
  pool_size_ : Z }.

(** [IOCP_IoContextPool(uint32_t pool_size)] *)
Definition IOCP_IoContextPool_new (pool_size : Z) : IOCP_IoContextPool :=
  mkIoContextPool [] (uint32_t pool_size).

(** [IOCP_SocketContext]; the mutex and the pool pointer are left out: one
    thread runs at a time and there is one pool. *)
Record IOCP_SocketContext := mkSocketContext {
  sock_ : Z;
  list_io_context_ : list io_ptr;
  recv_context_ : IOCP_IoContext;
  local_addr_ : SOCKADDR_IN;
  sock_id_ : Z;
  is_listen_sock_ : bool }.

Definition set_sock_ (v : Z) (s : IOCP_SocketContext) : IOCP_SocketContext :=
  mkSocketContext v (list_io_context_ s) (recv_context_ s) (local_addr_ s)
    (sock_id_ s) (is_listen_sock_ s).
Definition set_list_io_context_ (v : list io_ptr) (s : IOCP_SocketContext) : IOCP_SocketContext :=
  mkSocketContext (sock_ s) v (recv_context_ s) (local_addr_ s)
    (sock_id_ s) (is_listen_sock_ s).
Definition set_recv_context_ (v : IOCP_IoContext) (s : IOCP_SocketContext) : IOCP_SocketContext :=
  mkSocketContext (sock_ s) (list_io_context_ s) v (local_addr_ s)
    (sock_id_ s) (is_listen_sock_ s).
Definition set_local_addr_ (v : SOCKADDR_IN) (s : IOCP_SocketContext) : IOCP_SocketContext :=
  mkSocketContext (sock_ s) (list_io_context_ s) (recv_context_ s) v
    (sock_id_ s) (is_listen_sock_ s).
Definition set_sock_id_ (v : Z) (s : IOCP_SocketContext) : IOCP_SocketContext :=
  mkSocketContext (sock_ s) (list_io_context_ s) (recv_context_ s) (local_addr_ s)
    v (is_listen_sock_ s).
Definition set_is_listen_sock_ (v : bool) (s : IOCP_SocketContext) : IOCP_SocketContext :=
  mkSocketContext (sock_ s) (list_io_context_ s) (recv_context_ s) (local_addr_ s)
    (sock_id_ s) v.

(** [IOCP_SocketContextPtr]: a shared pointer, null or the address of a
    socket context. *)
Definition IOCP_SocketContextPtr : Type := option Z.

Record IOCP_SocketContextPool := mkSocketContextPool {
  list_idle_ : list IOCP_SocketContextPtr;
  sock_pool_size_ : Z;
  map_active_ : gmap Z Z }.

(** [IOCP_SocketContextPool(pool_io_context, uint32_t pool_size)] *)
Definition IOCP_SocketContextPool_new (pool_size : Z) : IOCP_SocketContextPool :=
  mkSocketContextPool [] (uint32_t pool_size) ∅.

(** The objects of one facade: the two pools it owns, every context that
    was allocated and not deleted, and the calls made so far. Socket contexts
    are never taken out of [socks]: the count of shared owners is not
    followed, a context only stops being reachable. *)
Record World := mkWorld {
  ios : gmap Z IOCP_IoContext;
  socks : gmap Z IOCP_SocketContext;
  pool_io_context_ : IOCP_IoContextPool;
  pool_sock_context_ : IOCP_SocketContextPool;
  next_addr : Z;
  trace : list event }.

Definition set_ios (v : gmap Z IOCP_IoContext) (w : World) : World :=
  mkWorld v (socks w) (pool_io_context_ w) (pool_sock_context_ w) (next_addr w) (trace w).
Definition set_socks (v : gmap Z IOCP_SocketContext) (w : World) : World :=
  mkWorld (ios w) v (pool_io_context_ w) (pool_sock_context_ w) (next_addr w) (trace w).
Definition set_pool_io_context_ (v : IOCP_IoContextPool) (w : World) : World :=
  mkWorld (ios w) (socks w) v (pool_sock_context_ w) (next_addr w) (trace w).
Definition set_pool_sock_context_ (v : IOCP_SocketContextPool) (w : World) : World :=
  mkWorld (ios w) (socks w) (pool_io_context_ w) v (next_addr w) (trace w).
Definition set_next_addr (v : Z) (w : World) : World :=
  mkWorld (ios w) (socks w) (pool_io_context_ w) (pool_sock_context_ w) v (trace w).
Definition set_trace (v : list event) (w : World) : World :=
  mkWorld (ios w) (socks w) (pool_io_context_ w) (pool_sock_context_ w) (next_addr w) v.

(** What [Init] of each facade builds: [new IOCP_IoContextPool(MEM_POOL_SIZE)]
    and [new IOCP_SocketContextPool(pool_io_context_, 2*MEM_POOL_SIZE)]. *)
Definition World_new (io_pool_size sock_pool_size : Z) : World :=
  mkWorld ∅ ∅ (IOCP_IoContextPool_new io_pool_size)
    (IOCP_SocketContextPool_new sock_pool_size) 1 [].

Definition Init_World : World := World_new MEM_POOL_SIZE (2 * MEM_POOL_SIZE).

Definition emit (e : event) : M World unit :=
  modify (fun w => set_trace (trace w ++ [e]) w).

Definition emit_all (es : list event) : M World unit :=
  modify (fun w => set_trace (trace w ++ es) w).

(** Reading and writing through an [IOCP_IoContext*]. *)
Definition read_io (p : io_ptr) : M World IOCP_IoContext :=
  let* w := get in
  match p with
  | HeapIo a =>
      match ios w !! a with
      | Some c => ret c
      | None => undefined UseAfterFree
      end
  | RecvIo sh =>
      match socks w !! sh with
      | Some s => ret (recv_context_ s)
      | None => undefined UseAfterFree
      end
  end.

Definition write_io (p : io_ptr) (c : IOCP_IoContext) : M World unit :=
  let* w := get in
  match p with
  | HeapIo a =>
      match ios w !! a with
      | Some _ => put (set_ios (<[a := c]> (ios w)) w)
      | None => undefined UseAfterFree
      end
  | RecvIo sh =>
      match socks w !! sh with
      | Some s => put (set_socks (<[sh := set_recv_context_ c s]> (socks w)) w)
      | None => undefined UseAfterFree
      end
  end.

Definition update_io (p : io_ptr) (f : IOCP_IoContext -> IOCP_IoContext) : M World unit :=
  let* c := read_io p in
  write_io p (f c).

(** Reading and writing through an [IOCP_SocketContextPtr]. *)
Definition read_sock (p : IOCP_SocketContextPtr) : M World IOCP_SocketContext :=
  let* w := get in
  match p with
  | None => undefined NullDereference
  | Some sh =>
      match socks w !! sh with
      | Some s => ret s
      | None => undefined UseAfterFree
      end
  end.

Definition update_sock (p : IOCP_SocketContextPtr)
    (f : IOCP_SocketContext -> IOCP_SocketContext) : M World unit :=
  let* s := read_sock p in
  let* w := get in
  match p with
  | None => undefined NullDereference
  | Some sh => put (set_socks (<[sh := f s]> (socks w)) w)
  end.

Fixpoint for_each {A} (l : list A) (body : A -> M World unit) : M World unit :=
  match l with
  | [] => ret tt
  | x :: rest => let* _ := body x in for_each rest body
  end.

Section Allocation.

(** What an uninitialised [sock_accept_], and an uninitialised [local_addr_],
    hold in the object allocated at a given address. *)
Variable indeterminate : Z -> Z.
Variable indeterminate_addr : Z -> SOCKADDR_IN.

(** [new IOCP_IoContext] *)
Definition new_IoContext : M World io_ptr :=
  let* w := get in
  let a := next_addr w in
  let* _ := put (set_next_addr (a + 1)
                   (set_ios (<[a := IOCP_IoContext_new (indeterminate a)]> (ios w)) w)) in
  ret (HeapIo a).

(** [delete context] *)
Definition delete_IoContext (p : io_ptr) : M World unit :=
  let* w := get in
  match p with
  | HeapIo a =>
      match ios w !! a with
      | Some _ => put (set_ios (delete a (ios w)) w)
      | None => undefined UseAfterFree
      end
  | RecvIo _ => undefined InvalidDelete
  end.

(** [context->Reset()] *)
Definition Reset_at (p : io_ptr) : M World unit :=
  let* c := read_io p in
  let '(evs, c') := IOCP_IoContext_Reset c in
  let* _ := emit_all evs in
  write_io p c'.

Definition GetIoContext : M World io_ptr :=
  let* w := get in
  let pool := pool_io_context_ w in
  match pool_list_io_context_ pool with
  | [] => new_IoContext
  | context :: rest =>
      let* _ := put (set_pool_io_context_ (mkIoContextPool rest (pool_size_ pool)) w) in
      ret context
  end.

Definition PutIoContext (context : io_ptr) : M World unit :=
  let* _ := Reset_at context in
  let* w := get in
  let pool := pool_io_context_ w in
  if pool_size_ pool <=? Z.of_nat (length (pool_list_io_context_ pool))
  then delete_IoContext context
  else put (set_pool_io_context_
              (mkIoContextPool (pool_list_io_context_ pool ++ [context]) (pool_size_ pool)) w).

(** [IOCP_SocketContext(pool_io_context)]: the constructor sets [sock_],
    [sock_id_] and [is_listen_sock_] only. *)
Definition IOCP_SocketContext_new (a : Z) : IOCP_SocketContext :=
  mkSocketContext INVALID_SOCKET [] (IOCP_IoContext_new (indeterminate a))
    (indeterminate_addr a) 0 false.

(** [IOCP_SocketContext::Reset] on the context a shared pointer holds. *)
Definition IOCP_SocketContext_Reset (p : IOCP_SocketContextPtr) : M World unit :=
  let* _ := update_sock p (set_sock_id_ 0) in
  let* _ := update_sock p (set_is_listen_sock_ false) in
  let* s := read_sock p in
  let* _ :=
    if negb (INVALID_SOCKET =? sock_ s) then
      let* _ := emit (shutdown (sock_ s) SD_SEND) in
      let* _ := emit (closesocket (sock_ s)) in
      update_sock p (set_sock_ INVALID_SOCKET)
    else ret tt in
  let* _ := update_sock p (set_local_addr_ SOCKADDR_IN_zero) in
  let* _ :=
    match p with
    | Some sh => Reset_at (RecvIo sh)
    | None => undefined NullDereference
    end in
  let* s' := read_sock p in
  let* _ := for_each (list_io_context_ s') PutIoContext in
  update_sock p (set_list_io_context_ []).

Definition AddContext (p : IOCP_SocketContextPtr) (context : io_ptr) : M World unit :=
  update_sock p (fun s => set_list_io_context_ (list_io_context_ s ++ [context]) s).

(** The loop of [RemoveContext]: erase the first entry equal to [context]. *)
Fixpoint erase_first (context : io_ptr) (l : list io_ptr) : list io_ptr :=
  match l with
  | [] => []
  | it :: rest => if decide (context = it) then rest else it :: erase_first context rest
  end.

Definition RemoveContext (p : IOCP_SocketContextPtr) (context : io_ptr) : M World unit :=
  let* _ := update_sock p (fun s => set_list_io_context_ (erase_first context (list_io_context_ s)) s) in
  PutIoContext context.

(** [GetSocketContext] *)
Definition GetSocketContext : M World IOCP_SocketContextPtr :=
  let* w := get in
  let pool := pool_sock_context_ w in
  match list_idle_ pool with
  | [] =>
      let a := next_addr w in
      let* _ := put (set_next_addr (a + 1)
                       (set_socks (<[a := IOCP_SocketContext_new a]> (socks w)) w)) in
      ret (Some a)
  | context_ptr :: rest =>
      let* _ := put (set_pool_sock_context_
                       (mkSocketContextPool rest (sock_pool_size_ pool) (map_active_ pool)) w) in
      ret context_ptr
  end.

(** The guarded [list_idle_.push_back] shared by [PutSocketContext] and
    [DelActiveContext]. *)
Definition push_idle (p : IOCP_SocketContextPtr) : M World unit :=
  let* w := get in
  let pool := pool_sock_context_ w in
  if Z.of_nat (length (list_idle_ pool)) <? sock_pool_size_ pool then
    put (set_pool_sock_context_
           (mkSocketContextPool (list_idle_ pool ++ [p]) (sock_pool_size_ pool)
              (map_active_ pool)) w)
  else ret tt.

Definition PutSocketContext (p : IOCP_SocketContextPtr) : M World unit := push_idle p.

(** [map_active_[context_ptr->sock_id_] = context_ptr]. A handle the id
    held before is dropped from the map and nothing more: as said at [World],
    the owners of a context are not counted, so what the release of the
    dropped handle does when it was the last owner (the destructor, which
    calls [Reset]) is not part of this definition. It is the assignment of
    the source whenever the id is free or holds this same handle. *)
Definition AddActiveContext (p : IOCP_SocketContextPtr) : M World unit :=
  let* s := read_sock p in
  let* w := get in
  let pool := pool_sock_context_ w in
  match p with
  | Some sh =>
      put (set_pool_sock_context_
             (mkSocketContextPool (list_idle_ pool) (sock_pool_size_ pool)
                (<[sock_id_ s := sh]> (map_active_ pool))) w)
  | None => undefined NullDereference
  end.

Definition DelActiveContext (sock_id : Z) : M World unit :=
  let* w := get in
  let pool := pool_sock_context_ w in
  match map_active_ pool !! sock_id with
  | None => ret tt
  | Some sh =>
      let* _ := put (set_pool_sock_context_
                       (mkSocketContextPool (list_idle_ pool) (sock_pool_size_ pool)
                          (delete sock_id (map_active_ pool))) w) in
      let* _ := IOCP_SocketContext_Reset (Some sh) in
      push_idle (Some sh)
  end.

Definition GetActiveContext (sock_id : Z) : M World IOCP_SocketContextPtr :=
  let* w := get in
  ret (map_active_ (pool_sock_context_ w) !! sock_id).


End Allocation.

(** A use of the I/O context pool: a [GetIoContext], or a [PutIoContext] of
    some pointer. *)
Inductive pool_op := pool_get | pool_put (context : io_ptr).

Definition pool_step (indeterminate : Z -> Z) (op : pool_op) : M World unit :=
  match op with
  | pool_get => let* _ := GetIoContext indeterminate in ret tt
  | pool_put context => PutIoContext context
  end.

(** A sequence of uses; it ends early if one of them is undefined. *)
Definition pool_run (indeterminate : Z -> Z) (ops : list pool_op) : M World unit :=
  for_each ops (pool_step indeterminate).

Definition pool_length (w : World) : Z :=
  Z.of_nat (length (pool_list_io_context_ (pool_io_context_ w))).

Definition pool_list (w : World) : list io_ptr :=
  pool_list_io_context_ (pool_io_context_ w).

(** The list of the pool is within its capacity. *)
Definition pool_bounded (w : World) : Prop :=
  pool_length w <= pool_size_ (pool_io_context_ w).

(** A pointer to a heap context that is allocated. *)
Definition live_heap (w : World) (p : io_ptr) : Prop :=
  exists a, p = HeapIo a /\ is_Some (ios w !! a).

(** The socket context at [sh] is allocated and its outstanding list names
    allocated heap contexts, each once. *)
Definition shell_ok (w : World) (sh : Z) : Prop :=
  exists s, socks w !! sh = Some s /\
    NoDup (list_io_context_ s) /\
    Forall (live_heap w) (list_io_context_ s).

(** Calls none of which is a callback of the user. *)
Definition quiet (evs : list event) : Prop :=
  Forall (fun e => is_user_callback e = false) evs.

(** The receive context of the socket context at address 1, the first one
    a facade allocates. *)
Definition first_recv_context (w : World) : IOCP_IoContext :=
  match socks w !! 1 with
  | Some s => recv_context_ s
  | None => IOCP_IoContext_new 0
  end.

(** *** Uses of the socket context pool *)

(** The entries of the active map in the order of their keys, the order in
    which a [std::map] is walked. *)
Definition key_le (a b : Z * Z) : Prop := fst a <= fst b.

Global Instance key_le_dec : RelDecision key_le.
Proof. intros a b. unfold key_le. apply _. Defined.

Definition active_entries (w : World) : list (Z * Z) :=
  merge_sort key_le (map_to_list (map_active_ (pool_sock_context_ w))).

(** [ClearActiveContext] *)
Definition ClearActiveContext : M World unit :=
  let* w := get in
  let* _ := for_each (active_entries w)
              (fun it =>
                 let* _ := IOCP_SocketContext_Reset (Some (snd it)) in
                 push_idle (Some (snd it))) in
  let* w' := get in
  let pool := pool_sock_context_ w' in
  put (set_pool_sock_context_
         (mkSocketContextPool (list_idle_ pool) (sock_pool_size_ pool) ∅) w').

Inductive sock_pool_op :=
| sock_get
| sock_put (p : IOCP_SocketContextPtr)
| sock_add_active (p : IOCP_SocketContextPtr)
| sock_del_active (sock_id : Z)
| sock_clear_active.

Definition sock_pool_step (indeterminate : Z -> Z) (indeterminate_addr : Z -> SOCKADDR_IN)
    (op : sock_pool_op) : M World unit :=
  match op with
  | sock_get => let* _ := GetSocketContext indeterminate indeterminate_addr in ret tt
  | sock_put p => PutSocketContext p
  | sock_add_active p => AddActiveContext p
  | sock_del_active sock_id => DelActiveContext sock_id
  | sock_clear_active => ClearActiveContext
  end.

(** A sequence of uses; it ends early if one of them is undefined. *)
Definition sock_pool_run (indeterminate : Z -> Z) (indeterminate_addr : Z -> SOCKADDR_IN)
    (ops : list sock_pool_op) : M World unit :=
  for_each ops (sock_pool_step indeterminate indeterminate_addr).

Definition idle_length (w : World) : Z :=
  Z.of_nat (length (list_idle_ (pool_sock_context_ w))).

(** The idle list of the socket pool is within its capacity. *)
Definition idle_bounded (w : World) : Prop :=
  idle_length w <= sock_pool_size_ (pool_sock_context_ w).

(** A method that leaves the socket pool as it finds it, whatever its
    outcome. *)
Definition keeps_sock_pool {A} (m : M World A) : Prop :=
  forall w, pool_sock_context_ (snd (m w)) = pool_sock_context_ w.

(** A method that keeps the idle list within the capacity and the capacity
    as it is, whatever its outcome. *)
Definition keeps_idle_bound {A} (m : M World A) : Prop :=
  forall w, idle_bounded w ->
    idle_bounded (snd (m w)) /\
    sock_pool_size_ (pool_sock_context_ (snd (m w))) = sock_pool_size_ (pool_sock_context_ w).

(** Calls that are all [closesocket(INVALID_SOCKET)], the call
    [IOCP_IoContext::Reset] makes on an empty accept slot. *)
Definition only_closes_invalid (evs : list event) : Prop :=
  Forall (fun e => e = closesocket INVALID_SOCKET) evs.

(** The socket context after [PostRecv] of the TCP worker, and of the UDP
    worker, armed its receive context. *)
Definition recv_posted (s : IOCP_SocketContext) : IOCP_SocketContext :=
  set_recv_context_
    (set_operation_ RECV_POSTED (IOCP_IoContext_ResetBuffer (recv_context_ s))) s.

Definition udp_recv_posted (s : IOCP_SocketContext) : IOCP_SocketContext :=
  set_recv_context_
    (set_operation_ RECV_POSTED
       (set_remote_addr_ SOCKADDR_IN_zero (IOCP_IoContext_ResetBuffer (recv_context_ s)))) s.

(** The context [GetIoContext] would pop, if any, is an allocated heap
    context whose buffer has the declared size. *)
Definition pool_head_ready (w : World) : Prop :=
  forall p rest, pool_list w = p :: rest ->
    exists a c, p = HeapIo a /\ ios w !! a = Some c /\
                size_of (buf_ c) = MAX_IO_BUFFER_SIZE.

(** The handle [GetSocketContext] would pop, if any, is not null and its
    socket context is allocated. *)
Definition idle_head_ready (w : World) : Prop :=
  forall p rest, list_idle_ (pool_sock_context_ w) = p :: rest ->
    exists sh, p = Some sh /\ is_Some (socks w !! sh).

(** The [SOCKADDR_IN] the facades fill in from an address and a port:
    zeroed, [AF_INET], the port through [htons]. *)
Definition sockaddr_of (ip_addr port : Z) : SOCKADDR_IN :=
  mkSOCKADDR_IN AF_INET (HtonUint16 OS_WIN port) ip_addr (repeat 0 8%nat).

(** *** What the operating system answers during one step of a worker *)

(** [GetQueuedCompletionStatus]: the return value, what it stores through
    its three out-parameters ([None]: nothing stored, the variable keeps its
    value; the overlapped pointer is always stored, null or not) and the
    [GetLastError] that follows a failure. *)
Record GQCS := mkGQCS {
  gqcs_ret : bool;
  gqcs_bytes : option Z;
  gqcs_key : option Z;
  gqcs_overlapped : option io_ptr;
  gqcs_error : Z }.

Record OsAnswers := mkOsAnswers {
  dequeue : GQCS;
  probe_send : Z;              (* [send(sock, "", 0, 0)] *)
  accept_remote : SOCKADDR_IN; (* remote address out of [GetAcceptExSockAddrs_] *)
  associate : bool;            (* [CreateIoCompletionPort] gave a handle *)
  recv_post : Z * Z;           (* [WSARecv]/[WSARecvFrom], [WSAGetLastError] *)
  send_post : Z * Z;           (* [WSASend]/[WSASendTo], [WSAGetLastError] *)
  accept_socket : Z;           (* [WSASocket] *)
  accept_post : bool * Z;      (* [AcceptEx_], [WSAGetLastError] *)
  connect_post : Z * Z;        (* [WSAConnect], [WSAGetLastError] *)
  bind_ret : Z;                (* [bind] *)
  getsockname_ret : Z * SOCKADDR_IN; (* [getsockname] and the address it stores *)
  listen_ret : Z;              (* [listen] *)
  ioctl_ret : Z * Z }.         (* the two [WSAIoctl] calls *)

(** The variables [_Run] declares before its loop. *)
Record Locals := mkLocals {
  bytes_transfered : Z;
  sock_id : Z;
  overlapped : option io_ptr;
  io_data : option io_ptr }.

Definition Locals_new : Locals := mkLocals 0 0 None None.

Inductive loop_ctl := Continue | Break.

Definition store_dequeue (q : GQCS) (l : Locals) : Locals :=
  mkLocals (default (bytes_transfered l) (gqcs_bytes q))
           (default (sock_id l) (gqcs_key q))
           (gqcs_overlapped q)
           (io_data l).

(** [CONTAINING_RECORD(overlapped, IOCP_IoContext, overlapped_)]:
    [overlapped_] is the first member, the offset is zero. *)
Definition CONTAINING_RECORD (overlapped : option io_ptr) : option io_ptr := overlapped.

(** ** network/iocp_tcpworkthread.h *)

Module TCP.

Section Worker.

Variable indeterminate : Z -> Z.
Variable indeterminate_addr : Z -> SOCKADDR_IN.

Definition AssociateWithIOCP (os : OsAnswers) (sock_context : IOCP_SocketContextPtr) : M World bool :=
  let* s := read_sock sock_context in
  let* _ := emit (CreateIoCompletionPort (sock_ s) (uint32_t (sock_id_ s))) in
  ret (associate os).

(** [PostAccept]; the [assert] on [sock_context->sock_] is taken as
    evaluated, it only reads. *)
Definition PostAccept (os : OsAnswers) (sock_context : IOCP_SocketContextPtr)
    (io_context : io_ptr) : M World bool :=
  let* _ := read_sock sock_context in
  let* _ := update_io io_context (set_operation_ ACCEPT_POSTED) in
  let* _ := emit WSASocket in
  let* _ := update_io io_context (set_sock_accept_ (accept_socket os)) in
  if INVALID_SOCKET =? accept_socket os then ret false
  else
    let* s := read_sock sock_context in
    let* _ := emit (AcceptEx (sock_ s) (accept_socket os) io_context) in
    if negb (fst (accept_post os)) && negb (WSA_IO_PENDING =? snd (accept_post os))
    then ret false
    else ret true.

Definition PostRecv (os : OsAnswers) (sock_context : IOCP_SocketContextPtr) : M World bool :=
  let* _ := update_sock sock_context
              (fun s => set_recv_context_ (IOCP_IoContext_ResetBuffer (recv_context_ s)) s) in
  let* _ := update_sock sock_context
              (fun s => set_recv_context_ (set_operation_ RECV_POSTED (recv_context_ s)) s) in
  let* s := read_sock sock_context in
  let* _ := match sock_context with
            | Some sh => emit (WSARecv (sock_ s) (RecvIo sh))
            | None => undefined NullDereference
            end in
  if negb (0 =? fst (recv_post os)) && negb (WSA_IO_PENDING =? snd (recv_post os)) then
    let* s1 := read_sock sock_context in
    let* _ := DelActiveContext (sock_id_ s1) in
    let* s2 := read_sock sock_context in
    let* _ := emit (DisconnectedCallback (sock_id_ s2)) in
    ret false
  else ret true.

Definition PostSend (os : OsAnswers) (sock_context : IOCP_SocketContextPtr)
    (io_context : io_ptr) : M World bool :=
  let* _ := update_io io_context (set_operation_ SEND_POSTED) in
  let* s := read_sock sock_context in
  let* _ := emit (WSASend (sock_ s) io_context) in
  if negb (0 =? fst (send_post os)) && negb (WSA_IO_PENDING =? snd (send_post os)) then
    let* s1 := read_sock sock_context in
    let* _ := DelActiveContext (sock_id_ s1) in
    let* s2 := read_sock sock_context in
    let* _ := emit (DisconnectedCallback (sock_id_ s2)) in
    ret false
  else ret true.

Definition _HandleError (os : OsAnswers) (sock_context : IOCP_SocketContextPtr)
    (err : Z) : M World bool :=
  match sock_context with
  | None => ret true
  | Some _ =>
      let* s := read_sock sock_context in
      let sock_id := sock_id_ s in
      if negb (is_listen_sock_ s) && (WAIT_TIMEOUT =? err) then
        let* _ := emit (send (sock_ s) 0) in
        let byte_send := probe_send os in
        let* _ :=
          if -1 =? byte_send then
            let* _ := DelActiveContext sock_id in
            emit (DisconnectedCallback sock_id)
          else ret tt in
        ret true
      else if negb (is_listen_sock_ s) && (ERROR_NETNAME_DELETED =? err) then
        let* _ := DelActiveContext sock_id in
        let* _ := emit (DisconnectedCallback sock_id) in
        ret true
      else ret false
  end.

Definition _DoAccept (os : OsAnswers) (sock_context : IOCP_SocketContextPtr)
    (io_context : io_ptr) : M World bool :=
  let* io := read_io io_context in
  let* _ := emit (GetAcceptExSockAddrs io_context) in
  let remote_addr := accept_remote os in
  let* new_sock_context := GetSocketContext indeterminate indeterminate_addr in
  let* _ := update_sock new_sock_context (set_sock_ (sock_accept_ io)) in
  let* _ := update_sock new_sock_context (set_sock_id_ (uint32_t (sock_accept_ io))) in
  let* _ := update_sock new_sock_context (set_local_addr_ remote_addr) in
  let* _ := AddActiveContext new_sock_context in
  let* associated := AssociateWithIOCP os new_sock_context in
  if negb associated then
    let* n := read_sock new_sock_context in
    let* _ := DelActiveContext (sock_id_ n) in
    ret false
  else
    let* n := read_sock new_sock_context in
    let* _ := emit (ConnectedCallback (sock_id_ n)) in
    let* posted := PostRecv os new_sock_context in
    if negb posted then
      let* n1 := read_sock new_sock_context in
      let* _ := DelActiveContext (sock_id_ n1) in
      let* n2 := read_sock new_sock_context in
      let* _ := emit (DisconnectedCallback (sock_id_ n2)) in
      ret false
    else
      let* _ := update_io io_context IOCP_IoContext_ResetBuffer in
      PostAccept os sock_context io_context.

Definition _DoRecv (os : OsAnswers) (sock_context : IOCP_SocketContextPtr) : M World bool :=
  let* s := read_sock sock_context in
  let* _ := emit (ReceivedCallback (sock_id_ s) (buf_ (recv_context_ s))
                    (trans_len_ (recv_context_ s))) in
  PostRecv os sock_context.

Definition _DoSend (sock_context : IOCP_SocketContextPtr) (io_context : io_ptr) : M World unit :=
  RemoveContext sock_context io_context.

(** One turn of the [while (!_Signalled())] loop of [_Run]. *)
Definition _Run_iteration (os : OsAnswers) (l0 : Locals) : M World (loop_ctl * Locals) :=
  let l := store_dequeue (dequeue os) l0 in
  let ret_ := gqcs_ret (dequeue os) in
  let* sock_context := GetActiveContext (sock_id l) in
  if negb ret_ then
    let* handled := _HandleError os sock_context (gqcs_error (dequeue os)) in
    if handled then ret (Continue, l) else ret (Break, l)
  else
    let l := mkLocals (bytes_transfered l) (sock_id l) (overlapped l)
               (CONTAINING_RECORD (overlapped l)) in
    match io_data l with
    | None => ret (Continue, l)
    | Some io_ptr_ =>
        let* io := read_io io_ptr_ in
        if (0 =? bytes_transfered l)
           && (IO_OPERATION_eqb RECV_POSTED (operation_ io)
               || IO_OPERATION_eqb SEND_POSTED (operation_ io))
        then
          let* _ := DelActiveContext (sock_id l) in
          let* _ := emit (DisconnectedCallback (sock_id l)) in
          ret (Continue, l)
        else
          match operation_ io with
          | ACCEPT_POSTED =>
              let* _ := _DoAccept os sock_context io_ptr_ in
              ret (Continue, l)
          | RECV_POSTED =>
              let* _ := update_sock sock_context
                          (fun s => set_recv_context_
                                      (set_trans_len_ (int32_t (bytes_transfered l))
                                         (recv_context_ s)) s) in
              let* _ := _DoRecv os sock_context in
              ret (Continue, l)
          | SEND_POSTED =>
              let* _ := _DoSend sock_context io_ptr_ in
              ret (Continue, l)
          | NULL_POSTED => ret (Continue, l)
          end
    end.

(** [_Run]: the loop runs while the stop event is not signalled; [script]
    holds the answers of the operating system for the turns made before
    that. *)
Fixpoint _Run_loop (script : list OsAnswers) (l : Locals) : M World Z :=
  match script with
  | [] => ret 0
  | os :: rest =>
      let* '(ctl, l') := _Run_iteration os l in
      match ctl with
      | Continue => _Run_loop rest l'
      | Break => ret 0
      end
  end.

Definition _Run (script : list OsAnswers) : M World Z := _Run_loop script Locals_new.

End Worker.

End TCP.

(** ** network/iocp_udpworkthread.h *)

Module UDP.

Definition AssociateWithIOCP (os : OsAnswers) (sock_context : IOCP_SocketContextPtr) : M World bool :=
  let* s := read_sock sock_context in
  let* _ := emit (CreateIoCompletionPort (sock_ s) (uint32_t (sock_id_ s))) in
  ret (associate os).

Definition PostRecv (os : OsAnswers) (sock_context : IOCP_SocketContextPtr) : M World bool :=
  let* _ := update_sock sock_context
              (fun s => set_recv_context_ (IOCP_IoContext_ResetBuffer (recv_context_ s)) s) in
  let* _ := update_sock sock_context
              (fun s => set_recv_context_ (set_remote_addr_ SOCKADDR_IN_zero (recv_context_ s)) s) in
  let* _ := update_sock sock_context
              (fun s => set_recv_context_ (set_operation_ RECV_POSTED (recv_context_ s)) s) in
  let* s := read_sock sock_context in
  let* _ := match sock_context with
            | Some sh => emit (WSARecvFrom (sock_ s) (RecvIo sh))
            | None => undefined NullDereference
            end in
  if negb (0 =? fst (recv_post os)) && negb (WSA_IO_PENDING =? snd (recv_post os))
  then ret false
  else ret true.

Definition PostSend (os : OsAnswers) (sock_context : IOCP_SocketContextPtr)
    (io_context : io_ptr) : M World bool :=
  let* _ := update_io io_context (set_operation_ SEND_POSTED) in
  let* s := read_sock sock_context in
  let* _ := emit (WSASendTo (sock_ s) io_context) in
  if (SOCKET_ERROR =? fst (send_post os)) && negb (WSA_IO_PENDING =? snd (send_post os))
  then ret false
  else ret true.

Definition _HandleError (sock_context : IOCP_SocketContextPtr) (err : Z) : M World bool :=
  match sock_context with
  | None => ret true
  | Some _ =>
      let* s := read_sock sock_context in
      let sock_id := sock_id_ s in
      if WAIT_TIMEOUT =? err then ret true
      else if ERROR_NETNAME_DELETED =? err then ret true
      else ret false
  end.

Definition _DoRecv (os : OsAnswers) (sock_context : IOCP_SocketContextPtr) : M World bool :=
  let* s := read_sock sock_context in
  let* _ := emit (ReceiveFromCallback (sock_id_ s) (buf_ (recv_context_ s))
                    (trans_len_ (recv_context_ s)) (remote_addr_ (recv_context_ s))) in
  PostRecv os sock_context.

Definition _DoSend (sock_context : IOCP_SocketContextPtr) (io_context : io_ptr) : M World unit :=
  RemoveContext sock_context io_context.

(** One turn of the [while (!_Signalled())] loop of [_Run]. *)
Definition _Run_iteration (os : OsAnswers) (l0 : Locals) : M World (loop_ctl * Locals) :=
  let l := store_dequeue (dequeue os) l0 in
  let ret_ := gqcs_ret (dequeue os) in
  let* sock_context := GetActiveContext (sock_id l) in
  if negb ret_ then
    let* handled := _HandleError sock_context (gqcs_error (dequeue os)) in
    if handled then ret (Continue, l) else ret (Break, l)
  else
    let l := mkLocals (bytes_transfered l) (sock_id l) (overlapped l)
               (CONTAINING_RECORD (overlapped l)) in
    match io_data l with
    | None => ret (Continue, l)
    | Some io_ptr_ =>
        let* io := read_io io_ptr_ in
        match operation_ io with
        | RECV_POSTED =>
            let* _ := update_sock sock_context
                        (fun s => set_recv_context_
                                    (set_trans_len_ (int32_t (bytes_transfered l))
                                       (recv_context_ s)) s) in
            let* _ := _DoRecv os sock_context in
            ret (Continue, l)
        | SEND_POSTED =>
            let* _ := _DoSend sock_context io_ptr_ in
            ret (Continue, l)
        | _ => ret (Continue, l)
        end
    end.

Fixpoint _Run_loop (script : list OsAnswers) (l : Locals) : M World Z :=
  match script with
  | [] => ret 0
  | os :: rest =>
      let* '(ctl, l') := _Run_iteration os l in
      match ctl with
      | Continue => _Run_loop rest l'
      | Break => ret 0
      end
  end.

Definition _Run (script : list OsAnswers) : M World Z := _Run_loop script Locals_new.

End UDP.

(** ** network/iocp_tcpclient.h, iocp_tcpsever.h, iocp_udppeer.h: the
    sending and closing entry points *)

Section Facades.

Variable indeterminate : Z -> Z.
Variable indeterminate_addr : Z -> SOCKADDR_IN.

(** [memcpy(io_context->buf_, data, data_len)]: [data] is the caller's
    block, [data_len] is converted to [size_t]. Writing past the 4096 bytes
    of [buf_] is undefined behaviour; the fault records how many bytes the
    call copies. *)
Definition memcpy_to_buf_ (io_context : io_ptr) (data : list Z) (data_len : Z) : M World unit :=
  let n := uint64_t data_len in
  match block_read data 0 n with
  | None => undefined OutOfBoundsRead
  | Some src =>
      let* c := read_io io_context in
      match block_write (buf_ c) 0 src with
      | None => undefined (BufferOverrun n (size_of (buf_ c)))
      | Some stored => write_io io_context (set_buf_ stored c)
      end
  end.

Definition IOCP_TCPClient_CloseSocket (sock_id : Z) : M World unit :=
  DelActiveContext sock_id.

(** [Connect(sock_id, dst_ip, dst_port)]: the result and what is stored
    through the reference [sock_id] ([None]: nothing). [dst_ip_addr] is what
    [inet_addr(dst_ip)] returns; the socket handle is the [WSASocket] answer. *)
Definition IOCP_TCPClient_Connect (is_start_ : bool) (os : OsAnswers)
    (dst_ip_addr : Z) (dst_port : Z) : M World (bool * option Z) :=
  if negb is_start_ then ret (false, None)
  else
    let* sock_context := GetSocketContext indeterminate indeterminate_addr in
    let* _ := emit WSASocket in
    let* _ := update_sock sock_context (set_sock_ (accept_socket os)) in
    if INVALID_SOCKET =? accept_socket os then
      let* _ := PutSocketContext sock_context in
      ret (false, None)
    else
      let remote :=
        mkSOCKADDR_IN AF_INET (HtonUint16 OS_WIN dst_port) dst_ip_addr (repeat 0 8%nat) in
      let* _ := update_sock sock_context
                  (fun s => set_recv_context_ (set_remote_addr_ remote (recv_context_ s)) s) in
      let* s := read_sock sock_context in
      let* _ := emit (WSAConnect (sock_ s) remote) in
      if (SOCKET_ERROR =? fst (connect_post os))
         && negb (WSAEWOULDBLOCK =? snd (connect_post os))
      then
        let* _ := emit (closesocket (sock_ s)) in
        let* _ := update_sock sock_context (set_sock_ INVALID_SOCKET) in
        let* _ := PutSocketContext sock_context in
        ret (false, None)
      else
        let* _ := update_sock sock_context (set_sock_id_ (uint32_t (sock_ s))) in
        let* s1 := read_sock sock_context in
        let sock_id := sock_id_ s1 in
        let* _ := AddActiveContext sock_context in
        let* associated := TCP.AssociateWithIOCP os sock_context in
        if negb associated then
          let* s2 := read_sock sock_context in
          let* _ := DelActiveContext (sock_id_ s2) in
          ret (false, Some sock_id)
        else
          let* posted := TCP.PostRecv os sock_context in
          ret (posted, Some sock_id).

Definition IOCP_TCPClient_Send (is_start_ : bool) (os : OsAnswers)
    (sock_id : Z) (data : list Z) (data_len : Z) : M World bool :=
  if negb is_start_ then ret false
  else
    let* sock_content := GetActiveContext sock_id in
    match sock_content with
    | None => ret false
    | Some _ =>
        let* io_context := GetIoContext indeterminate in
        let* _ := memcpy_to_buf_ io_context data data_len in
        let* _ := update_io io_context (set_wsa_buf_len (uint32_t data_len)) in
        let* _ := AddContext sock_content io_context in
        TCP.PostSend os sock_content io_context
    end.

Definition IOCP_TCPServer_CloseSocket (sock_id : Z) : M World unit :=
  DelActiveContext sock_id.

Definition IOCP_TCPServer_Send (is_start_ : bool) (os : OsAnswers)
    (sock_id : Z) (data : list Z) (data_len : Z) : M World bool :=
  if negb is_start_ then ret false
  else
    let* sock_content := GetActiveContext sock_id in
    match sock_content with
    | None => ret false
    | Some _ =>
        let* io_context := GetIoContext indeterminate in
        let* _ := memcpy_to_buf_ io_context data data_len in
        let* _ := update_io io_context (set_wsa_buf_len (uint32_t data_len)) in
        let* _ := AddContext sock_content io_context in
        TCP.PostSend os sock_content io_context
    end.

(** [_InitializeListenSocket]: the result and the new value of the member
    [listen_sock_context_]. [host_addr] is the address the two branches on
    [host_ip_] compute. *)
Definition IOCP_TCPServer__InitializeListenSocket (os : OsAnswers)
    (host_addr : Z) (listen_port_ : Z) : M World (bool * IOCP_SocketContextPtr) :=
  let* listen_sock_context_ := GetSocketContext indeterminate indeterminate_addr in
  let* _ := update_sock listen_sock_context_ (set_is_listen_sock_ true) in
  let* _ := emit WSASocket in
  let* _ := update_sock listen_sock_context_ (set_sock_ (accept_socket os)) in
  if INVALID_SOCKET =? accept_socket os then ret (false, listen_sock_context_)
  else
    let* s0 := read_sock listen_sock_context_ in
    let* _ := update_sock listen_sock_context_ (set_sock_id_ (uint32_t (sock_ s0))) in
    let* _ := AddActiveContext listen_sock_context_ in
    let* s := read_sock listen_sock_context_ in
    let failed : M World (bool * IOCP_SocketContextPtr) :=
      let* s' := read_sock listen_sock_context_ in
      let* _ := DelActiveContext (sock_id_ s') in
      ret (false, listen_sock_context_) in
    let* _ := emit (CreateIoCompletionPort (sock_ s) (uint32_t (sock_id_ s))) in
    if negb (associate os) then failed
    else
      let host :=
        mkSOCKADDR_IN AF_INET (HtonUint16 OS_WIN listen_port_) host_addr (repeat 0 8%nat) in
      let* _ := emit (bind_addr (sock_ s) host) in
      if SOCKET_ERROR =? bind_ret os then failed
      else
        let* _ := emit (listen (sock_ s)) in
        if SOCKET_ERROR =? listen_ret os then failed
        else
          let* _ := emit (WSAIoctl (sock_ s)) in
          if SOCKET_ERROR =? fst (ioctl_ret os) then failed
          else
            let* _ := emit (WSAIoctl (sock_ s)) in
            if SOCKET_ERROR =? snd (ioctl_ret os) then failed
            else ret (true, listen_sock_context_).

(** [Start] of the server: one accept is posted per worker thread; [workers]
    holds the answers of the operating system to each of these posts. The
    outstanding list of the listener is appended to directly. *)
Definition IOCP_TCPServer_Start (is_start_ : bool) (workers : list OsAnswers)
    (listen_sock_context_ : IOCP_SocketContextPtr) : M World bool :=
  if is_start_ then ret true
  else
    let* _ :=
      for_each workers (fun os =>
        let* io_context := GetIoContext indeterminate in
        let* _ := update_sock listen_sock_context_
                    (fun s => set_list_io_context_ (list_io_context_ s ++ [io_context]) s) in
        let* _ := TCP.PostAccept os listen_sock_context_ io_context in
        ret tt) in
    ret true.

Definition IOCP_UDPNode_CloseSocket (sock_id : Z) : M World unit :=
  DelActiveContext sock_id.

(** [Create(sock_id, bind_ip, bind_port)]: the result, what is stored through
    the reference [sock_id] ([None]: nothing) and the final value of the
    reference [bind_port]. [bind_ip_addr] is the address the two branches on
    [bind_ip] compute. *)
Definition IOCP_UDPNode_Create (is_start_ : bool) (os : OsAnswers)
    (bind_ip_addr : Z) (bind_port : Z) : M World (bool * option Z * Z) :=
  if negb is_start_ then ret (false, None, bind_port)
  else
    let* sock_context := GetSocketContext indeterminate indeterminate_addr in
    let* _ := emit WSASocket in
    let* _ := update_sock sock_context (set_sock_ (accept_socket os)) in
    if INVALID_SOCKET =? accept_socket os then
      let* _ := PutSocketContext sock_context in
      ret (false, None, bind_port)
    else
      let local :=
        mkSOCKADDR_IN AF_INET (HtonUint16 OS_WIN bind_port) bind_ip_addr (repeat 0 8%nat) in
      let* _ := update_sock sock_context (set_local_addr_ local) in
      let* s := read_sock sock_context in
      let* _ := emit (bind_addr (sock_ s) local) in
      if negb (0 =? bind_ret os) then
        let* _ := emit (closesocket (sock_ s)) in
        let* _ := PutSocketContext sock_context in
        ret (false, None, bind_port)
      else
        let continue_ (bind_port : Z) : M World (bool * option Z * Z) :=
          let* _ := update_sock sock_context (set_sock_id_ (uint32_t (sock_ s))) in
          let* s1 := read_sock sock_context in
          let sock_id := sock_id_ s1 in
          let* _ := AddActiveContext sock_context in
          let* associated := UDP.AssociateWithIOCP os sock_context in
          if negb associated then
            let* s2 := read_sock sock_context in
            let* _ := DelActiveContext (sock_id_ s2) in
            ret (false, Some sock_id, bind_port)
          else
            let* posted := UDP.PostRecv os sock_context in
            ret (posted, Some sock_id, bind_port) in
        if 0 =? bind_port then
          let* _ := update_sock sock_context (set_local_addr_ SOCKADDR_IN_zero) in
          let* _ := emit (getsockname (sock_ s)) in
          if negb (0 =? fst (getsockname_ret os)) then
            let* _ := emit (closesocket (sock_ s)) in
            let* _ := PutSocketContext sock_context in
            ret (false, None, bind_port)
          else
            let* _ := update_sock sock_context (set_local_addr_ (snd (getsockname_ret os))) in
            continue_ (NtohUint16 OS_WIN (sin_port (snd (getsockname_ret os))))
        else continue_ bind_port.

(** [SendTo(sock_id, data, data_len, dst_ip, dst_port)]; [dst_ip_addr] is
    what [inet_addr(dst_ip)] returns, [htons] swaps on the Windows host. *)
Definition IOCP_UDPNode_SendTo (is_start_ : bool) (os : OsAnswers)
    (sock_id : Z) (data : list Z) (data_len : Z)
    (dst_ip_addr : Z) (dst_port : Z) : M World bool :=
  if negb is_start_ then ret false
  else
    let* sock_content := GetActiveContext sock_id in
    match sock_content with
    | None => ret false
    | Some _ =>
        let* io_context := GetIoContext indeterminate in
        let* _ := memcpy_to_buf_ io_context data data_len in
        let* _ := update_io io_context (set_wsa_buf_len (uint32_t data_len)) in
        let* _ := update_io io_context (set_remote_addr_ SOCKADDR_IN_zero) in
        let* _ := update_io io_context
                    (set_remote_addr_
                       (mkSOCKADDR_IN AF_INET (HtonUint16 OS_WIN dst_port) dst_ip_addr
                          (repeat 0 8%nat))) in
        let* _ := AddContext sock_content io_context in
        UDP.PostSend os sock_content io_context
    end.

(** [SendTo(sock_id, data, data_len, sock_addr)] *)
Definition IOCP_UDPNode_SendTo_addr (is_start_ : bool) (os : OsAnswers)
    (sock_id : Z) (data : list Z) (data_len : Z)
    (sock_addr : SOCKADDR_IN) : M World bool :=
  if negb is_start_ then ret false
  else
    let* sock_content := GetActiveContext sock_id in
    match sock_content with
    | None => ret false
    | Some _ =>
        let* io_context := GetIoContext indeterminate in
        let* _ := memcpy_to_buf_ io_context data data_len in
        let* _ := update_io io_context (set_wsa_buf_len (uint32_t data_len)) in
        let* _ := update_io io_context (set_remote_addr_ sock_addr) in
        let* _ := AddContext sock_content io_context in
        UDP.PostSend os sock_content io_context
    end.

End Facades.

(** *** A run of the facades used in the examples below *)

(** Every system call succeeds; [q] is what the queue gives; [WSASocket]
    gives [handle]. *)
Definition answers (q : GQCS) (handle : Z) : OsAnswers :=
  mkOsAnswers q 0 SOCKADDR_IN_zero true
    (0, 0) (0, 0) handle (true, 0) (0, 0) 0 (0, SOCKADDR_IN_zero) 0 (0, 0).

(** The queue has nothing. *)
Definition calm (handle : Z) : OsAnswers :=
  answers (mkGQCS false None None None WAIT_TIMEOUT) handle.

(** A packet in the queue. *)
Definition dequeued (q : GQCS) : OsAnswers := answers q 0.

Definition zeroed (a : Z) : Z := 0.
Definition zeroed_addr (a : Z) : SOCKADDR_IN := SOCKADDR_IN_zero.

(** A TCP client connects a socket whose handle is 7. *)
Definition tcp_connected : World :=
  snd (IOCP_TCPClient_Connect zeroed zeroed_addr true (calm 7) 0x0100007f 8080 Init_World).

(** The user closes it, then connects again and gets the handle 9. *)
Definition tcp_closed : World :=
  snd (IOCP_TCPClient_CloseSocket 7 tcp_connected).
Definition tcp_reconnected : World :=
  snd (IOCP_TCPClient_Connect zeroed zeroed_addr true (calm 9) 0x0100007f 8080 tcp_closed).

(** A TCP server listens on the socket 50 and starts with two worker
    threads, whose accepts carry the sockets 100 and 101; the first accept
    completes, and the accept posted again carries the socket 102. *)
Definition server_listening : World :=
  snd (IOCP_TCPServer__InitializeListenSocket zeroed zeroed_addr (calm 50) 0 17011 Init_World).
Definition server_started : World :=
  snd (IOCP_TCPServer_Start zeroed false [calm 100; calm 101] (Some 1) server_listening).
Definition server_accepted : World :=
  snd (TCP._Run_iteration zeroed zeroed_addr
         (answers (mkGQCS true (Some 0) (Some 50) (Some (HeapIo 2)) 0) 102)
         Locals_new server_started).

(** The same with a UDP node. *)
Definition udp_created : World :=
  snd (IOCP_UDPNode_Create zeroed zeroed_addr true (calm 7) 0 17012 Init_World).
Definition udp_closed : World :=
  snd (IOCP_UDPNode_CloseSocket 7 udp_created).
Definition udp_recreated : World :=
  snd (IOCP_UDPNode_Create zeroed zeroed_addr true (calm 9) 0 17013 udp_closed).

(** A receive on socket 7 that completed with [bytes] bytes before the
    close and is dequeued after it; its overlapped record is the one of the
    socket context at address 1. *)
Definition late_recv (bytes : Z) : OsAnswers :=
  dequeued (mkGQCS true (Some bytes) (Some 7) (Some (RecvIo 1)) 0).

(** 4097 bytes to send. *)
Definition oversized : list Z := repeat 65 4097%nat.

(** The connected client sends three bytes. *)
Definition tcp_sent : World :=
  snd (IOCP_TCPClient_Send zeroed true (calm 0) 7 [1; 2; 3] 3 tcp_connected).

(** Posting a receive or a send fails with the error 10054. *)
Definition posts_fail : OsAnswers :=
  mkOsAnswers (mkGQCS false None None None WAIT_TIMEOUT) 0 SOCKADDR_IN_zero true
    (SOCKET_ERROR, 10054) (SOCKET_ERROR, 10054) 0 (true, 0) (0, 0) 0
    (0, SOCKADDR_IN_zero) 0 (0, 0).

(** A failed dequeue with the completion key [key] and the error [err];
    the probing [send] answers [probe]. *)
Definition failed_dequeue (key err probe : Z) : OsAnswers :=
  mkOsAnswers (mkGQCS false None (Some key) None err) probe SOCKADDR_IN_zero true
    (0, 0) (0, 0) 0 (true, 0) (0, 0) 0 (0, SOCKADDR_IN_zero) 0 (0, 0).

End IOCP.

(** * Properties *)

(** ** Bit-level facts about the byte swaps *)

Module ByteOrderFacts.

Lemma byte_mask_bit k j : 0 <= k ->
  Z.testbit (Z.shiftl 255 k) j = (k <=? j) && (j <? k + 8).
Proof.
  intros Hk. destruct (Z.ltb_spec j 0).
  - rewrite Z.testbit_neg_r by lia. destruct (Z.leb_spec k j); [lia|reflexivity].
  - rewrite Z.shiftl_spec by lia. change 255 with (Z.ones 8).
    rewrite Z.testbit_ones by lia.
    destruct (Z.leb_spec k j), (Z.leb_spec 0 (j - k)), (Z.ltb_spec (j - k) 8),
      (Z.ltb_spec j (k + 8)); simpl; try lia; reflexivity.
Qed.

Lemma testbit_high d n i : 0 <= d < 2 ^ n -> 0 <= n -> n <= i -> Z.testbit d i = false.
Proof.
  intros Hd Hn Hi. destruct (Z.eq_dec d 0) as [->|Hne]; [apply Z.bits_0|].
  apply Z.bits_above_log2; [lia|].
  assert (Z.log2 d < n) by (apply Z.log2_lt_pow2; lia). lia.
Qed.

Lemma testbit_shiftl_any a n m : 0 <= n -> Z.testbit (Z.shiftl a n) m = Z.testbit a (m - n).
Proof.
  intros Hn. destruct (Z.ltb_spec m 0).
  - rewrite !Z.testbit_neg_r by lia. reflexivity.
  - apply Z.shiftl_spec; lia.
Qed.

Lemma testbit_shiftr_any a n m :
  Z.testbit (Z.shiftr a n) m = (0 <=? m) && Z.testbit a (m + n).
Proof.
  destruct (Z.leb_spec 0 m); simpl.
  - apply Z.shiftr_spec; lia.
  - apply Z.testbit_neg_r; lia.
Qed.

Lemma div8_eq i k : 8 * k <= i < 8 * k + 8 -> i / 8 = k.
Proof. intros H. symmetry. apply (Z.div_unique i 8 k (i - 8 * k)); lia. Qed.

(** Bit [i] of a swapped [n]-byte word comes from the mirrored byte. *)
Lemma swap_index n i : 0 <= i < 8 * n ->
  0 <= i + 8 * (n - 1) - 16 * (i / 8) < 8 * n /\
  (i + 8 * (n - 1) - 16 * (i / 8)) + 8 * (n - 1)
    - 16 * ((i + 8 * (n - 1) - 16 * (i / 8)) / 8) = i.
Proof.
  intros Hi.
  pose proof (Z.div_mod i 8 ltac:(lia)) as E.
  pose proof (Z.mod_pos_bound i 8 ltac:(lia)) as B.
  remember (i / 8) as q. remember (i mod 8) as r.
  assert (Hq : (i + 8 * (n - 1) - 16 * q) / 8 = n - 1 - q).
  { symmetry. apply (Z.div_unique _ 8 _ r); lia. }
  rewrite Hq. lia.
Qed.

Ltac mask_norm :=
  change 0xff with (Z.shiftl 255 0) in *;
  change 0xff00 with (Z.shiftl 255 8) in *;
  change 0xff0000 with (Z.shiftl 255 16) in *;
  change 0xff000000 with (Z.shiftl 255 24) in *;
  change 0xff00000000 with (Z.shiftl 255 32) in *;
  change 0xff0000000000 with (Z.shiftl 255 40) in *;
  change 0xff000000000000 with (Z.shiftl 255 48) in *;
  change 0xff00000000000000 with (Z.shiftl 255 56) in *.

Ltac bit_rw :=
  repeat first
    [ rewrite Z.lor_spec | rewrite Z.land_spec
    | rewrite Z.testbit_mod_pow2 by lia
    | rewrite byte_mask_bit by lia
    | rewrite testbit_shiftl_any by lia
    | rewrite testbit_shiftr_any ].

Ltac cmp_split :=
  repeat match goal with
  | |- context [?a <=? ?b] => destruct (Z.leb_spec a b); try lia
  | |- context [?a <? ?b] => destruct (Z.ltb_spec a b); try lia
  end.

Ltac bit_solve :=
  cmp_split; simpl; rewrite ?andb_false_r, ?andb_true_r, ?orb_false_r; simpl;
  try reflexivity; try (f_equal; lia).

Lemma ReverseShort_bit d i : 0 <= i ->
  Z.testbit (ReverseShort d) i = (i <? 16) && Z.testbit d (i + 8 - 16 * (i / 8)).
Proof.
  intros Hi. unfold ReverseShort, uint16_t. mask_norm. bit_rw.
  destruct (Z.ltb_spec i 16); [|bit_solve].
  destruct (Z.ltb_spec i 8);
  [ rewrite (div8_eq i 0) by lia | rewrite (div8_eq i 1) by lia ]; bit_solve.
Qed.

Lemma ReverseInt_bit d i : 0 <= i ->
  Z.testbit (ReverseInt d) i = (i <? 32) && Z.testbit d (i + 24 - 16 * (i / 8)).
Proof.
  intros Hi. unfold ReverseInt, uint32_t. mask_norm. bit_rw.
  destruct (Z.ltb_spec i 32); [|bit_solve].
  destruct (Z.ltb_spec i 16);
  [ destruct (Z.ltb_spec i 8);
    [ rewrite (div8_eq i 0) by lia | rewrite (div8_eq i 1) by lia ]
  | destruct (Z.ltb_spec i 24);
    [ rewrite (div8_eq i 2) by lia | rewrite (div8_eq i 3) by lia ] ]; bit_solve.
Qed.

Lemma ReverseLog_bit d i : 0 <= i ->
  Z.testbit (ReverseLog d) i = (i <? 64) && Z.testbit d (i + 56 - 16 * (i / 8)).
Proof.
  intros Hi. unfold ReverseLog, uint64_t. mask_norm. bit_rw.
  destruct (Z.ltb_spec i 64); [|bit_solve].
  destruct (Z.ltb_spec i 32);
  [ destruct (Z.ltb_spec i 16);
    [ destruct (Z.ltb_spec i 8);
      [ rewrite (div8_eq i 0) by lia | rewrite (div8_eq i 1) by lia ]
    | destruct (Z.ltb_spec i 24);
      [ rewrite (div8_eq i 2) by lia | rewrite (div8_eq i 3) by lia ] ]
  | destruct (Z.ltb_spec i 48);
    [ destruct (Z.ltb_spec i 40);
      [ rewrite (div8_eq i 4) by lia | rewrite (div8_eq i 5) by lia ]
    | destruct (Z.ltb_spec i 56);
      [ rewrite (div8_eq i 6) by lia | rewrite (div8_eq i 7) by lia ] ] ]; bit_solve.
Qed.

(** A function whose bits are those of its argument, mirrored bytewise and
    cut at [8 * n], maps into [n]-byte words and undoes itself on them. *)
Section Swap.

Variable n : Z.
Variable f : Z -> Z.
Hypothesis n_pos : 0 < n.
Hypothesis f_nonneg : forall d, 0 <= f d.
Hypothesis f_bit : forall d i, 0 <= i ->
  Z.testbit (f d) i = (i <? 8 * n) && Z.testbit d (i + 8 * (n - 1) - 16 * (i / 8)).

Lemma swap_range d : 0 <= f d < 2 ^ (8 * n).
Proof.
  split; [apply f_nonneg|].
  assert (E : f d mod 2 ^ (8 * n) = f d).
  { apply Z.bits_inj'. intros i Hi. rewrite Z.testbit_mod_pow2 by lia.
    rewrite f_bit by lia. destruct (i <? 8 * n); reflexivity. }
  rewrite <- E. apply Z.mod_pos_bound. apply Z.pow_pos_nonneg; lia.
Qed.

Lemma swap_involutive d : 0 <= d < 2 ^ (8 * n) -> f (f d) = d.
Proof.
  intros Hd. apply Z.bits_inj'. intros i Hi.
  rewrite f_bit by lia.
  destruct (Z.ltb_spec i (8 * n)); simpl.
  - destruct (swap_index n i ltac:(lia)) as [B E].
    rewrite f_bit by lia.
    destruct (Z.ltb_spec (i + 8 * (n - 1) - 16 * (i / 8)) (8 * n)); [|lia].
    simpl. f_equal. exact E.
  - symmetry. apply (testbit_high d (8 * n)); lia.
Qed.

End Swap.

Lemma lor_nonneg a b : 0 <= a -> 0 <= b -> 0 <= Z.lor a b.
Proof. intros. apply Z.lor_nonneg. split; assumption. Qed.

Lemma ReverseShort_nonneg d : 0 <= ReverseShort d.
Proof. unfold ReverseShort, uint16_t. apply Z.mod_pos_bound. lia. Qed.

Lemma shiftr_land_nonneg d m k : 0 <= m -> 0 <= Z.shiftr (Z.land d m) k.
Proof.
  intros Hm. apply Z.shiftr_nonneg. apply Z.land_nonneg. right. exact Hm.
Qed.

Lemma ReverseInt_nonneg d : 0 <= ReverseInt d.
Proof.
  unfold ReverseInt, uint32_t.
  repeat apply lor_nonneg;
    first [ apply shiftr_land_nonneg; lia | apply Z.mod_pos_bound; lia ].
Qed.

Lemma ReverseLog_nonneg d : 0 <= ReverseLog d.
Proof.
  unfold ReverseLog, uint64_t.
  repeat apply lor_nonneg;
    first [ apply shiftr_land_nonneg; lia | apply Z.mod_pos_bound; lia ].
Qed.

Lemma ReverseShort_range d : 0 <= ReverseShort d < 2 ^ 16.
Proof.
  apply (swap_range 2 ReverseShort ltac:(lia) ReverseShort_nonneg).
  intros; apply ReverseShort_bit; assumption.
Qed.

Lemma ReverseShort_involutive d : 0 <= d < 2 ^ 16 -> ReverseShort (ReverseShort d) = d.
Proof.
  apply (swap_involutive 2 ReverseShort ltac:(lia)).
  intros; apply ReverseShort_bit; assumption.
Qed.

Lemma ReverseInt_range d : 0 <= ReverseInt d < 2 ^ 32.
Proof.
  apply (swap_range 4 ReverseInt ltac:(lia) ReverseInt_nonneg).
  intros; apply ReverseInt_bit; assumption.
Qed.

Lemma ReverseInt_involutive d : 0 <= d < 2 ^ 32 -> ReverseInt (ReverseInt d) = d.
Proof.
  apply (swap_involutive 4 ReverseInt ltac:(lia)).
  intros; apply ReverseInt_bit; assumption.
Qed.

Lemma ReverseLong_range d : 0 <= ReverseLong d < 2 ^ 64.
Proof.
  apply (swap_range 8 ReverseLog ltac:(lia) ReverseLog_nonneg).
  intros; apply ReverseLog_bit; assumption.
Qed.

Lemma ReverseLong_involutive d : 0 <= d < 2 ^ 64 -> ReverseLong (ReverseLong d) = d.
Proof.
  apply (swap_involutive 8 ReverseLog ltac:(lia)).
  intros; apply ReverseLog_bit; assumption.
Qed.

(** The swap of the spec's endianness scenario. *)
Example ReverseInt_01020304 : ReverseInt 0x01020304 = 0x04030201.
Proof. reflexivity. Qed.

End ByteOrderFacts.

(** ** Casts and object representations *)

Module MemFacts.

Lemma signed_wrap_id bits z : 0 < bits ->
  - 2 ^ (bits - 1) <= z < 2 ^ (bits - 1) -> signed_wrap bits z = z.
Proof.
  intros Hb Hz. unfold signed_wrap.
  assert (E : 2 ^ bits = 2 * 2 ^ (bits - 1)).
  { replace bits with (Z.succ (bits - 1)) at 1 by lia. apply Z.pow_succ_r. lia. }
  destruct (Z.ltb_spec z 0).
  - rewrite <- (Z.mod_add z 1 (2 ^ bits)) by lia.
    rewrite Z.mod_small by lia.
    destruct (Z.ltb_spec (z + 1 * 2 ^ bits) (2 ^ (bits - 1))); lia.
  - rewrite Z.mod_small by lia.
    destruct (Z.ltb_spec z (2 ^ (bits - 1))); lia.
Qed.

Lemma signed_wrap_mod bits z : 0 < bits ->
  signed_wrap bits z mod 2 ^ bits = z mod 2 ^ bits.
Proof.
  intros Hb. unfold signed_wrap.
  assert (0 < 2 ^ bits) by (apply Z.pow_pos_nonneg; lia).
  destruct (z mod 2 ^ bits <? 2 ^ (bits - 1)).
  - apply Z.mod_mod. lia.
  - rewrite <- (Z.mod_add _ 1 (2 ^ bits)) by lia.
    replace (z mod 2 ^ bits - 2 ^ bits + 1 * 2 ^ bits) with (z mod 2 ^ bits) by lia.
    apply Z.mod_mod. lia.
Qed.

Lemma signed_wrap_of_mod bits z : 0 < bits ->
  signed_wrap bits (z mod 2 ^ bits) = signed_wrap bits z.
Proof.
  intros Hb. unfold signed_wrap.
  assert (0 < 2 ^ bits) by (apply Z.pow_pos_nonneg; lia).
  rewrite Z.mod_mod by lia. reflexivity.
Qed.

Lemma signed_wrap_range bits z : 0 < bits ->
  - 2 ^ (bits - 1) <= signed_wrap bits z < 2 ^ (bits - 1).
Proof.
  intros Hb. unfold signed_wrap.
  assert (E : 2 ^ bits = 2 * 2 ^ (bits - 1)).
  { replace bits with (Z.succ (bits - 1)) at 1 by lia. apply Z.pow_succ_r. lia. }
  assert (0 < 2 ^ (bits - 1)) by (apply Z.pow_pos_nonneg; lia).
  pose proof (Z.mod_pos_bound z (2 ^ bits) ltac:(lia)).
  destruct (Z.ltb_spec (z mod 2 ^ bits) (2 ^ (bits - 1))); lia.
Qed.

Lemma le_bytes_length n v : length (le_bytes n v) = n.
Proof. revert v. induction n as [|n IH]; intros v; simpl; [reflexivity|]. now rewrite IH. Qed.

Lemma le_value_le_bytes n v : le_value (le_bytes n v) = v mod 256 ^ Z.of_nat n.
Proof.
  revert v. induction n as [|n IH]; intros v.
  - simpl. now rewrite Z.mod_1_r.
  - cbn [le_bytes le_value]. rewrite IH.
    rewrite Nat2Z.inj_succ, Z.pow_succ_r by lia.
    assert (0 < 256 ^ Z.of_nat n) by (apply Z.pow_pos_nonneg; lia).
    rewrite (Z.rem_mul_r v 256 (256 ^ Z.of_nat n)) by lia. reflexivity.
Qed.

Lemma le_bytes_bytes n v : Forall (fun b => 0 <= b < 256) (le_bytes n v).
Proof.
  revert v. induction n as [|n IH]; intros v; simpl; constructor.
  - apply Z.mod_pos_bound. lia.
  - apply IH.
Qed.

Lemma size_of_app (a b : list Z) : size_of (a ++ b) = size_of a + size_of b.
Proof. unfold size_of. rewrite length_app. lia. Qed.

Lemma size_of_nonneg (a : list Z) : 0 <= size_of a.
Proof. unfold size_of. lia. Qed.

Lemma block_read_all (src : list Z) : block_read src 0 (size_of src) = Some src.
Proof.
  unfold block_read, size_of.
  destruct (Z.leb_spec 0 0); [|lia].
  destruct (Z.leb_spec 0 (Z.of_nat (length src))); [|lia].
  destruct (Z.leb_spec (0 + Z.of_nat (length src)) (Z.of_nat (length src))); [|lia].
  simpl. rewrite Nat2Z.id. now rewrite firstn_all.
Qed.

Lemma block_read_Some buf off n :
  0 <= off -> 0 <= n -> off + n <= size_of buf ->
  block_read buf off n = Some (take (Z.to_nat n) (drop (Z.to_nat off) buf)).
Proof.
  intros H1 H2 H3. unfold block_read.
  destruct (Z.leb_spec 0 off); [|lia].
  destruct (Z.leb_spec 0 n); [|lia].
  destruct (Z.leb_spec (off + n) (size_of buf)); [|lia]. reflexivity.
Qed.

Lemma block_write_Some buf off src :
  0 <= off -> off + size_of src <= size_of buf ->
  block_write buf off src =
    Some (take (Z.to_nat off) buf ++ src ++ drop (Z.to_nat (off + size_of src)) buf).
Proof.
  intros H1 H2. unfold block_write.
  destruct (Z.leb_spec 0 off); [|lia].
  destruct (Z.leb_spec (off + size_of src) (size_of buf)); [|lia]. reflexivity.
Qed.

Lemma block_write_None buf off src :
  0 <= off -> size_of buf < off + size_of src -> block_write buf off src = None.
Proof.
  intros H1 H2. unfold block_write.
  destruct (Z.leb_spec 0 off); [|lia].
  destruct (Z.leb_spec (off + size_of src) (size_of buf)); [lia|]. reflexivity.
Qed.

Lemma block_write_size buf off src out :
  block_write buf off src = Some out -> size_of out = size_of buf.
Proof.
  unfold block_write.
  destruct (Z.leb_spec 0 off); simpl; [|discriminate].
  destruct (Z.leb_spec (off + size_of src) (size_of buf)); [|discriminate].
  intros [= <-]. pose proof (size_of_nonneg src).
  unfold size_of in *. rewrite !length_app, length_take, length_drop. lia.
Qed.

(** After a store of [src] at [off], the first [off + |src|] bytes are the old
    first [off] bytes followed by [src]. *)
Lemma block_write_prefix buf off src out :
  0 <= off -> block_write buf off src = Some out ->
  take (Z.to_nat (off + size_of src)) out = take (Z.to_nat off) buf ++ src.
Proof.
  intros Hoff. unfold block_write.
  destruct (Z.leb_spec 0 off); simpl; [|discriminate].
  destruct (Z.leb_spec (off + size_of src) (size_of buf)); [|discriminate].
  intros [= <-]. pose proof (size_of_nonneg src).
  rewrite app_assoc. rewrite take_app_length'; [reflexivity|].
  unfold size_of in *. rewrite length_app, length_take. lia.
Qed.

End MemFacts.

(** ** Byte stream *)

Module BSFacts.

Import BS MemFacts ByteOrderFacts.

Section Platform.

Variable os : OS.
Variable little_endian_memory : bool.
Variable uninit : nat -> Z.

Lemma new_array_size n : 0 <= n -> size_of (new_array uninit n) = n.
Proof.
  intros Hn. unfold new_array, size_of. rewrite length_map, length_seq. lia.
Qed.

Lemma wf_written_length s : wf s ->
  length (written s) = Z.to_nat (write_idx_ s).
Proof.
  intros (Hr & Hw & Hs & Hd). unfold written.
  destruct (data_ s) as [buf|].
  - rewrite length_take. unfold size_of in Hd. lia.
  - simpl. lia.
Qed.

(** The two raises of the requested size never lower it. *)
Lemma raised_size_ge n old :
  let n1 := if n <? uint32_t (old + 1024) then uint32_t (old + 1024) else n in
  let n2 := if n1 <? uint32_t (old + old / 16) then uint32_t (old + old / 16) else n1 in
  n <= n2.
Proof.
  simpl.
  destruct (Z.ltb_spec n (uint32_t (old + 1024)));
  match goal with |- context [?a <? ?b] => destruct (Z.ltb_spec a b) end; lia.
Qed.

Lemma raised_size_range n old : 0 <= n < 2 ^ 32 ->
  let n1 := if n <? uint32_t (old + 1024) then uint32_t (old + 1024) else n in
  let n2 := if n1 <? uint32_t (old + old / 16) then uint32_t (old + old / 16) else n1 in
  0 <= n2 < 2 ^ 32.
Proof.
  intros Hn. simpl.
  pose proof (Z.mod_pos_bound (old + 1024) (2 ^ 32) ltac:(lia)).
  pose proof (Z.mod_pos_bound (old + old / 16) (2 ^ 32) ltac:(lia)).
  unfold uint32_t.
  destruct (Z.ltb_spec n ((old + 1024) mod 2 ^ 32));
  match goal with |- context [?a <? ?b] => destruct (Z.ltb_spec a b) end; lia.
Qed.

(** Without 32-bit overflow the two raises compute the maximum. *)
Lemma raised_size_max n old : 0 <= old -> old + Z.max 1024 (old / 16) < 2 ^ 32 ->
  let n1 := if n <? uint32_t (old + 1024) then uint32_t (old + 1024) else n in
  let n2 := if n1 <? uint32_t (old + old / 16) then uint32_t (old + old / 16) else n1 in
  n2 = Z.max n (Z.max (old + 1024) (old + old / 16)).
Proof.
  intros Hold Hsum. simpl.
  assert (0 <= old / 16) by (apply Z.div_pos; lia).
  unfold uint32_t. rewrite !Z.mod_small by lia.
  destruct (Z.ltb_spec n (old + 1024));
  match goal with |- context [?a <? ?b] => destruct (Z.ltb_spec a b) end; lia.
Qed.

(** [_Reserve] when the block has to be replaced: the outcome in terms of
    the raised size. *)
Lemma _Reserve_grow n s :
  wf s ->
  (n <=? stream_size_ s) && bool_decide (data_ s <> None) && mallocated_ s = false ->
  let old := stream_size_ s in
  let n1 := if n <? uint32_t (old + 1024) then uint32_t (old + 1024) else n in
  let n2 := if n1 <? uint32_t (old + old / 16) then uint32_t (old + old / 16) else n1 in
  0 <= n2 -> write_idx_ s <= n2 ->
  exists buf',
    _Reserve uninit n s =
      (Returns tt, set_mallocated_ true (set_stream_size_ n2 (set_data_ (Some buf') s))) /\
    size_of buf' = n2 /\
    take (Z.to_nat (write_idx_ s)) buf' = written s.
Proof.
  intros (Hr & Hw & Hs & Hd) Hc old n1 n2 Hn2 Hwn.
  unfold _Reserve, bind, get. rewrite Hc. fold old. fold n1. fold n2.
  unfold written. destruct (data_ s) as [buf|] eqn:Hdata.
  - rewrite block_read_Some by lia.
    change (drop (Z.to_nat 0) buf) with buf.
    assert (Hlen : size_of (take (Z.to_nat (write_idx_ s)) buf) = write_idx_ s).
    { unfold size_of in *. rewrite length_take. lia. }
    destruct (block_write (new_array uninit n2) 0 (take (Z.to_nat (write_idx_ s)) buf))
      as [copied|] eqn:Hbw.
    2:{ rewrite block_write_Some in Hbw by (rewrite ?new_array_size; lia). discriminate. }
    pose proof (block_write_size _ _ _ _ Hbw) as Hsz.
    pose proof (block_write_prefix _ 0 _ _ ltac:(lia) Hbw) as Hpre.
    rewrite new_array_size in Hsz by lia.
    rewrite Hlen in Hpre. simpl in Hpre.
    exists copied. repeat split; assumption.
  - eexists. split; [reflexivity|]. split; [apply new_array_size; lia|].
    replace (write_idx_ s) with 0 by lia. reflexivity.
Qed.

(** [_Reserve] before a write at the write cursor: it returns, keeps the
    cursors, the byte order and the written bytes, and leaves room. *)
Lemma _Reserve_returns n s :
  wf s -> 0 <= n < 2 ^ 32 -> write_idx_ s <= n ->
  exists s',
    _Reserve uninit n s = (Returns tt, s') /\ wf s' /\ n <= stream_size_ s' /\
    data_ s' <> None /\ written s' = written s /\
    read_idx_ s' = read_idx_ s /\ write_idx_ s' = write_idx_ s /\
    byte_order_ s' = byte_order_ s.
Proof.
  intros Hwf Hn Hwn.
  destruct ((n <=? stream_size_ s) && bool_decide (data_ s <> None) && mallocated_ s) eqn:Hc.
  - exists s. unfold _Reserve, bind, get. rewrite Hc.
    apply andb_prop in Hc as [Hc _]. apply andb_prop in Hc as [Hc1 Hc2].
    apply Z.leb_le in Hc1. apply bool_decide_eq_true in Hc2.
    repeat split; try assumption; try reflexivity; apply Hwf.
  - pose proof (raised_size_ge n (stream_size_ s)) as Hge.
    pose proof (raised_size_range n (stream_size_ s) Hn) as Hrange.
    simpl in Hge, Hrange.
    destruct (_Reserve_grow n s Hwf Hc) as (buf' & E & Hsz & Hpre); [lia | lia |].
    eexists. split; [exact E|].
    destruct Hwf as (Hr & Hw & Hs & Hd).
    repeat split; simpl; try lia; try congruence.
    unfold written. simpl. exact Hpre.
Qed.

(** [Add] of a non-empty block that fits below 2^32. *)
Lemma Add_returns src size s :
  wf s -> size_of src = size -> 0 < size -> write_idx_ s + size < 2 ^ 32 ->
  exists s',
    Add uninit (Some src) size s = (Returns tt, s') /\ wf s' /\
    data_ s' <> None /\ written s' = written s ++ src /\
    read_idx_ s' = read_idx_ s /\ write_idx_ s' = write_idx_ s + size /\
    byte_order_ s' = byte_order_ s.
Proof.
  intros Hwf Hsz Hpos Hfit.
  assert (Hw0 : 0 <= write_idx_ s) by (destruct Hwf; lia).
  assert (Hu : uint32_t (write_idx_ s + size) = write_idx_ s + size).
  { unfold uint32_t. apply Z.mod_small. lia. }
  destruct (_Reserve_returns (write_idx_ s + size) s Hwf ltac:(lia) ltac:(lia))
    as (s1 & E & Hwf1 & Hroom & Hd1 & Hwr1 & Hr1 & Hw1 & Hb1).
  unfold Add. destruct (Z.eqb_spec size 0); [lia|].
  unfold bind at 1, get. unfold bind at 1. rewrite Hu, E.
  unfold bind at 1, get. subst size. rewrite block_read_all.
  destruct (data_ s1) as [buf|] eqn:Hdata; [|congruence].
  destruct Hwf1 as (Hr & Hw & Hs & Hd). rewrite Hdata in Hd.
  destruct (block_write buf (write_idx_ s1) src) as [buf'|] eqn:Hbw.
  2:{ rewrite block_write_Some in Hbw by lia. discriminate. }
  pose proof (block_write_size _ _ _ _ Hbw) as Hsz'.
  pose proof (block_write_prefix _ (write_idx_ s1) _ _ ltac:(lia) Hbw) as Hpre.
  eexists. split; [reflexivity|].
  rewrite Hw1, Hu.
  repeat split; simpl; try lia; try congruence.
  rewrite <- Hwr1. unfold written. simpl. rewrite Hdata, <- Hw1. exact Hpre.
Qed.

(** [Get] of [n] bytes that lie before the write cursor. *)
Lemma Get_returns n s :
  wf s -> 0 < n -> read_idx_ s + n <= write_idx_ s ->
  Get n s = (Returns (take (Z.to_nat n) (unread s)),
             set_read_idx_ (read_idx_ s + n) s).
Proof.
  intros (Hr & Hw & Hs & Hd) Hn Hfit.
  unfold Get, bind, get, unread, written.
  destruct (data_ s) as [buf|] eqn:Hdata; [|lia].
  assert (Hu : forall a b, a + b = read_idx_ s + n -> uint32_t (a + b) = read_idx_ s + n).
  { intros a b ->. unfold uint32_t. apply Z.mod_small. lia. }
  rewrite (Hu n (read_idx_ s)) by lia.
  destruct (Z.gtb_spec (read_idx_ s + n) (write_idx_ s)); [lia|].
  rewrite block_read_Some by lia.
  rewrite (Hu (read_idx_ s) n) by lia.
  unfold ret. do 2 f_equal.
  rewrite skipn_firstn_comm, firstn_firstn. f_equal. lia.
Qed.


Lemma sizeof_pos t : 0 < sizeof t.
Proof. destruct t; reflexivity. Qed.

Lemma object_bytes_size t v : size_of (object_bytes little_endian_memory t v) = sizeof t.
Proof.
  unfold object_bytes, size_of.
  destruct little_endian_memory; rewrite ?length_rev, le_bytes_length;
    destruct t; reflexivity.
Qed.

Lemma cast_in_range t z : in_range t z -> cast t z = z.
Proof.
  destruct t; simpl; intros H;
    first [ apply signed_wrap_id; simpl; lia | apply Z.mod_small; lia ].
Qed.

Lemma cast_of_mod t z : cast t (z mod 256 ^ Z.of_nat (Z.to_nat (sizeof t))) = cast t z.
Proof.
  destruct t; simpl sizeof;
    first [ apply (signed_wrap_of_mod 8); lia | apply (signed_wrap_of_mod 16); lia
          | apply (signed_wrap_of_mod 32); lia | apply (signed_wrap_of_mod 64); lia
          | apply Z.mod_mod; lia ].
Qed.

(** Storing a value of type [t] in memory and loading it gives it back. *)
Lemma object_value_bytes t v : in_range t v ->
  object_value little_endian_memory t (object_bytes little_endian_memory t v) = v.
Proof.
  intros Hv. unfold object_value, object_bytes.
  destruct little_endian_memory; rewrite ?rev_involutive;
    rewrite le_value_le_bytes, cast_of_mod; apply cast_in_range; exact Hv.
Qed.

Lemma uint16_of_int16 z : uint16_t (int16_t z) = uint16_t z.
Proof. apply (signed_wrap_mod 16). lia. Qed.
Lemma uint32_of_int32 z : uint32_t (int32_t z) = uint32_t z.
Proof. apply (signed_wrap_mod 32). lia. Qed.
Lemma uint64_of_int64 z : uint64_t (int64_t z) = uint64_t z.
Proof. apply (signed_wrap_mod 64). lia. Qed.

Lemma uint16_small z : 0 <= z < 2 ^ 16 -> uint16_t z = z.
Proof. apply Z.mod_small. Qed.
Lemma uint32_small z : 0 <= z < 2 ^ 32 -> uint32_t z = z.
Proof. apply Z.mod_small. Qed.
Lemma uint64_small z : 0 <= z < 2 ^ 64 -> uint64_t z = z.
Proof. apply Z.mod_small. Qed.
Lemma uint16_range z : 0 <= uint16_t z < 2 ^ 16.
Proof. apply Z.mod_pos_bound. lia. Qed.
Lemma uint32_range z : 0 <= uint32_t z < 2 ^ 32.
Proof. apply Z.mod_pos_bound. lia. Qed.
Lemma uint64_range z : 0 <= uint64_t z < 2 ^ 64.
Proof. apply Z.mod_pos_bound. lia. Qed.

Lemma Hton16_range d : 0 <= d < 2 ^ 16 -> 0 <= HtonUint16 os d < 2 ^ 16.
Proof. unfold HtonUint16. destruct (HOST_IS_LITTLE_ENDIAN os); [intros _; apply ReverseShort_range|auto]. Qed.
Lemma Hton32_range d : 0 <= d < 2 ^ 32 -> 0 <= HtonUint32 os d < 2 ^ 32.
Proof. unfold HtonUint32. destruct (HOST_IS_LITTLE_ENDIAN os); [intros _; apply ReverseInt_range|auto]. Qed.
Lemma Hton64_range d : 0 <= d < 2 ^ 64 -> 0 <= HtonUint64 os d < 2 ^ 64.
Proof. unfold HtonUint64. destruct (HOST_IS_LITTLE_ENDIAN os); [intros _; apply ReverseLong_range|auto]. Qed.

Lemma Ntoh_Hton16 d : 0 <= d < 2 ^ 16 -> NtohUint16 os (HtonUint16 os d) = d.
Proof.
  unfold NtohUint16, HtonUint16.
  destruct (HOST_IS_LITTLE_ENDIAN os); [apply ReverseShort_involutive|reflexivity].
Qed.
Lemma Ntoh_Hton32 d : 0 <= d < 2 ^ 32 -> NtohUint32 os (HtonUint32 os d) = d.
Proof.
  unfold NtohUint32, HtonUint32.
  destruct (HOST_IS_LITTLE_ENDIAN os); [apply ReverseInt_involutive|reflexivity].
Qed.
Lemma Ntoh_Hton64 d : 0 <= d < 2 ^ 64 -> NtohUint64 os (HtonUint64 os d) = d.
Proof.
  unfold NtohUint64, HtonUint64.
  destruct (HOST_IS_LITTLE_ENDIAN os); [apply ReverseLong_involutive|reflexivity].
Qed.

(** What [_WriteByteorder] yields is a value of the type. *)
Lemma _WriteByteorder_in_range t o v :
  in_range t v -> in_range t (_WriteByteorder os t o v).
Proof.
  intros Hv. unfold _WriteByteorder.
  destruct t; try exact Hv; destruct (BYTEORDER_eqb o (NETWORK_BYTEORDER os));
    try exact Hv; simpl in *.
  - apply (signed_wrap_range 16); lia.
  - apply (signed_wrap_range 32); lia.
  - apply (signed_wrap_range 64); lia.
  - apply Hton16_range; exact Hv.
  - apply Hton32_range; exact Hv.
  - apply Hton64_range; exact Hv.
Qed.

(** [_ReadByteorder] undoes [_WriteByteorder] under the same byte order. *)
Lemma _ReadByteorder_WriteByteorder t o v :
  in_range t v -> _ReadByteorder os t o (_WriteByteorder os t o v) = v.
Proof.
  intros Hv. unfold _ReadByteorder, _WriteByteorder.
  destruct t; try reflexivity; destruct (BYTEORDER_eqb o (NETWORK_BYTEORDER os));
    try reflexivity; simpl in Hv.
  - rewrite uint16_of_int16.
    rewrite (uint16_small (HtonUint16 os _)) by apply Hton16_range, uint16_range.
    rewrite Ntoh_Hton16 by apply uint16_range.
    unfold int16_t, uint16_t.
    rewrite signed_wrap_of_mod by lia. apply signed_wrap_id; simpl; lia.
  - rewrite uint32_of_int32.
    rewrite (uint32_small (HtonUint32 os _)) by apply Hton32_range, uint32_range.
    rewrite Ntoh_Hton32 by apply uint32_range.
    unfold int32_t, uint32_t.
    rewrite signed_wrap_of_mod by lia. apply signed_wrap_id; simpl; lia.
  - rewrite uint64_of_int64.
    rewrite (uint64_small (HtonUint64 os _)) by apply Hton64_range, uint64_range.
    rewrite Ntoh_Hton64 by apply uint64_range.
    unfold int64_t, uint64_t.
    rewrite signed_wrap_of_mod by lia. apply signed_wrap_id; simpl; lia.
  - apply Ntoh_Hton16; exact Hv.
  - apply Ntoh_Hton32; exact Hv.
  - apply Ntoh_Hton64; exact Hv.
Qed.

(** The eight [<<] overloads as one call of [Add], the eight [>>] overloads
    as one call of [Get]. *)
Lemma op_lshift_Add t b s :
  op_lshift os little_endian_memory uninit t b s =
  Add uninit (Some (object_bytes little_endian_memory t
                      (_WriteByteorder os t (byte_order_ s) b))) (sizeof t) s.
Proof. destruct t; reflexivity. Qed.

Lemma op_rshift_Get t s bytes s' :
  Get (sizeof t) s = (Returns bytes, s') ->
  op_rshift os little_endian_memory t s =
  (Returns (_ReadByteorder os t (byte_order_ s')
              (object_value little_endian_memory t bytes)), s').
Proof.
  intros E. destruct t; unfold op_rshift, bind; cbn [sizeof] in *; rewrite E; reflexivity.
Qed.

(** C7. For each of the eight integer types, each value of the type and each
    byte order: on a well-formed stream whose write cursor leaves room below
    2^32, setting the byte order, writing the value with [<<], moving the read
    cursor to where the value was written and reading with [>>] returns the
    value; both cursors end right after it. *)
Theorem put_get_round_trip (t : scalar) (v : Z) (o : BYTEORDER) (s : ByteStream) :
  wf s -> in_range t v -> write_idx_ s + sizeof t < 2 ^ 32 ->
  exists s',
    (let* _ := SetByteOrder o in
     let* pos := gets GetWritePtr in
     let* _ := op_lshift os little_endian_memory uninit t v in
     let* _ := SetReadPtr pos in
     op_rshift os little_endian_memory t) s = (Returns v, s') /\
    read_idx_ s' = write_idx_ s + sizeof t /\
    write_idx_ s' = write_idx_ s + sizeof t /\
    byte_order_ s' = o.
Proof.
  intros Hwf Hv Hfit.
  pose proof (sizeof_pos t) as Hsz.
  set (s0 := set_byte_order_ o s).
  assert (Hwf0 : wf s0) by exact Hwf.
  set (w := _WriteByteorder os t o v).
  destruct (Add_returns (object_bytes little_endian_memory t w) (sizeof t) s0 Hwf0
              (object_bytes_size t w) Hsz Hfit)
    as (s1 & EA & Hwf1 & Hd1 & Hwr1 & Hr1 & Hw1 & Hb1).
  change (write_idx_ s0) with (write_idx_ s) in Hw1.
  change (read_idx_ s0) with (read_idx_ s) in Hr1.
  change (written s0) with (written s) in Hwr1.
  change (byte_order_ s0) with o in Hb1.
  set (s2 := set_read_idx_ (write_idx_ s) s1).
  assert (Hwf2 : wf s2).
  { destruct Hwf as (? & ? & ? & ?), Hwf1 as (? & ? & ? & ?).
    repeat split; simpl; try lia; assumption. }
  assert (Hun : unread s2 = object_bytes little_endian_memory t w).
  { unfold unread. change (written s2) with (written s1). rewrite Hwr1.
    change (read_idx_ s2) with (write_idx_ s).
    rewrite <- (wf_written_length s Hwf). apply drop_app_length. }
  pose proof (Get_returns (sizeof t) s2 Hwf2 Hsz) as EG.
  change (read_idx_ s2) with (write_idx_ s) in EG.
  change (write_idx_ s2) with (write_idx_ s1) in EG.
  specialize (EG ltac:(lia)). rewrite Hun in EG.
  rewrite firstn_all2 in EG
    by (pose proof (object_bytes_size t w) as L; unfold size_of in L; lia).
  exists (set_read_idx_ (write_idx_ s + sizeof t) s2). split.
  - unfold bind at 1. unfold SetByteOrder, modify. fold s0.
    unfold bind at 1. unfold gets. change (GetWritePtr s0) with (write_idx_ s).
    unfold bind at 1. rewrite op_lshift_Add. change (byte_order_ s0) with o. fold w.
    rewrite EA.
    unfold bind at 1. unfold SetReadPtr, bind at 1, get.
    destruct (Z.gtb_spec (write_idx_ s) (write_idx_ s1)); [lia|].
    unfold put. fold s2.
    rewrite (op_rshift_Get t s2 _ _ EG).
    change (byte_order_ (set_read_idx_ (write_idx_ s + sizeof t) s2)) with (byte_order_ s1).
    rewrite Hb1. unfold w.
    rewrite object_value_bytes by (apply _WriteByteorder_in_range; exact Hv).
    rewrite _ReadByteorder_WriteByteorder by exact Hv. reflexivity.
  - simpl. repeat split; try lia; assumption.
Qed.


(** C8, as amended. For a well-formed stream of capacity [old] and a
    32-bit request [n]: [_Reserve n] leaves the stream as it is when
    [n <= old] and the stream owns a non-null block; in every other case,
    provided [old + max(1024, old/16)] fits in 32 bits, it returns with a
    fresh owned block of capacity [max(n, old + 1024, old + old/16)], which is
    at least [n] and at least [old + max(1024, old/16)], and the written
    bytes and the cursors are kept. *)
Theorem Reserve_capacity (n : Z) (s : ByteStream) :
  wf s -> 0 <= n < 2 ^ 32 ->
  let old := stream_size_ s in
  (n <= old -> data_ s <> None -> mallocated_ s = true ->
   _Reserve uninit n s = (Returns tt, s)) /\
  (~ (n <= old /\ data_ s <> None /\ mallocated_ s = true) ->
   old + Z.max 1024 (old / 16) < 2 ^ 32 ->
   exists s',
     _Reserve uninit n s = (Returns tt, s') /\
     stream_size_ s' = Z.max n (Z.max (old + 1024) (old + old / 16)) /\
     n <= stream_size_ s' /\
     old + Z.max 1024 (old / 16) <= stream_size_ s' /\
     mallocated_ s' = true /\ data_ s' <> None /\
     written s' = written s /\
     read_idx_ s' = read_idx_ s /\ write_idx_ s' = write_idx_ s).
Proof.
  intros Hwf Hn old. split.
  - intros Hle Hd Hm. unfold _Reserve, bind, get. fold old.
    destruct (Z.leb_spec n old); [|lia].
    rewrite (bool_decide_eq_true_2 _ Hd), Hm. reflexivity.
  - intros Hnot Hsum.
    assert (Hc : (n <=? stream_size_ s) && bool_decide (data_ s <> None) && mallocated_ s = false).
    { destruct (Z.leb_spec n (stream_size_ s)); simpl; [|reflexivity].
      destruct (bool_decide (data_ s <> None)) eqn:Hb; simpl; [|reflexivity].
      apply bool_decide_eq_true in Hb.
      destruct (mallocated_ s); [|reflexivity]. exfalso. apply Hnot. auto. }
    assert (Hold : 0 <= old) by (destruct Hwf as (? & ? & ? & ?); unfold old; lia).
    pose proof (raised_size_max n old Hold Hsum) as Hmax. simpl in Hmax.
    assert (Hw : write_idx_ s <= old) by (destruct Hwf as (? & ? & ? & ?); assumption).
    assert (0 <= old / 16) by (apply Z.div_pos; lia).
    destruct (_Reserve_grow n s Hwf Hc) as (buf' & E & Hsz & Hpre);
      fold old; rewrite ?Hmax; [lia | lia |].
    fold old in E. rewrite Hmax in E.
    eexists. split; [exact E|]. simpl.
    repeat split; try lia; try congruence.
    unfold written at 1. simpl. exact Hpre.
Qed.

(** The outcome of [SetReadPtr] on every stream. To a position beyond the
    write cursor it fails by throwing the integer -1, not an access violation
    exception, and leaves the stream, the read cursor included, as it was; to
    any position up to and including the write cursor it returns, and the
    read cursor is that position. *)
Theorem SetReadPtr_outcome (read_idx : Z) (s : ByteStream) :
  (read_idx > write_idx_ s -> SetReadPtr read_idx s = (Throws (int_exception (-1)), s)) /\
  (read_idx <= write_idx_ s ->
   SetReadPtr read_idx s = (Returns tt, set_read_idx_ read_idx s)).
Proof.
  unfold SetReadPtr, bind, get.
  split; intros H; destruct (Z.gtb_spec read_idx (write_idx_ s)); try lia; reflexivity.
Qed.

Lemma c_str_terminated (str tail : list Z) :
  Forall (fun c => 0 < c < 256) str -> c_str (str ++ 0 :: tail) = Some str.
Proof.
  induction 1 as [|c str Hc _ IH]; simpl; [reflexivity|].
  destruct (Z.eqb_spec c 0); [lia|]. rewrite IH. reflexivity.
Qed.

Lemma c_str_prefix (buf str : list Z) k :
  take k buf = str ++ [0] -> Forall (fun c => 0 < c < 256) str -> c_str buf = Some str.
Proof.
  intros Hk Hstr. rewrite <- (take_drop k buf), Hk, <- app_assoc. simpl.
  apply c_str_terminated. exact Hstr.
Qed.

Lemma set_read_idx_same s : set_read_idx_ (read_idx_ s) s = s.
Proof. destruct s; reflexivity. Qed.

Lemma PutUint8_returns c bs :
  wf bs -> 0 <= c < 256 -> write_idx_ bs + 1 < 2 ^ 32 ->
  exists bs',
    PutUint8 os little_endian_memory uninit c bs = (Returns tt, bs') /\ wf bs' /\
    data_ bs' <> None /\ written bs' = written bs ++ [c] /\
    write_idx_ bs' = write_idx_ bs + 1.
Proof.
  intros Hwf Hc Hfit. unfold PutUint8. rewrite op_lshift_Add.
  assert (E : object_bytes little_endian_memory Uint8
                (_WriteByteorder os Uint8 (byte_order_ bs) c) = [c]).
  { unfold object_bytes. simpl. rewrite Z.mod_small by lia.
    destruct little_endian_memory; reflexivity. }
  rewrite E.
  destruct (Add_returns [c] (sizeof Uint8) bs Hwf eq_refl ltac:(reflexivity) Hfit)
    as (bs' & EA & Hwf' & Hd & Hwr & _ & Hw & _).
  exists bs'. repeat (split; [assumption|]). exact Hw.
Qed.

Lemma GetUint8_returns c rest s :
  wf s -> unread s = c :: rest -> 0 <= c < 256 ->
  GetUint8 os little_endian_memory s = (Returns c, set_read_idx_ (read_idx_ s + 1) s).
Proof.
  intros Hwf Hun Hc.
  assert (Hlen : (Z.to_nat (read_idx_ s) < Z.to_nat (write_idx_ s))%nat).
  { pose proof (wf_written_length s Hwf) as L.
    assert (L2 : length (unread s) = S (length rest)) by (rewrite Hun; reflexivity).
    unfold unread in L2. rewrite length_drop in L2. lia. }
  destruct Hwf as (Hr & Hw & Hs & Hd).
  pose proof (Get_returns 1 s (conj Hr (conj Hw (conj Hs Hd))) ltac:(lia) ltac:(lia)) as EG.
  rewrite Hun in EG. simpl take in EG.
  unfold GetUint8. rewrite (op_rshift_Get Uint8 s _ _ EG).
  do 2 f_equal. unfold _ReadByteorder, object_value. simpl.
  assert (E : cast Uint8 (c + 256 * 0) = c).
  { simpl. unfold uint8_t. rewrite Z.mod_small; lia. }
  destruct little_endian_memory; exact E.
Qed.

(** The loop of [GetString] on a stream whose unread bytes are all non-zero:
    it consumes them all and leaves them, followed by a zero byte, appended
    to the local stream. *)
Lemma GetString_loop_returns (rest : list Z) :
  forall (fuel : nat) (s bs : ByteStream),
    wf s -> wf bs -> unread s = rest ->
    Forall (fun c => 0 < c < 256) rest ->
    write_idx_ bs + Z.of_nat (length rest) + 1 < 2 ^ 32 ->
    (length rest < fuel)%nat ->
    exists bs',
      GetString_loop os little_endian_memory uninit fuel bs s
        = (Returns bs', set_read_idx_ (write_idx_ s) s) /\
      data_ bs' <> None /\
      written bs' = written bs ++ rest ++ [0].
Proof.
  induction rest as [|c rest IH]; intros fuel s bs Hwf Hwfb Hun Hall Hfit Hfuel.
  - destruct fuel as [|fuel]; [simpl in Hfuel; lia|].
    assert (Heq : read_idx_ s = write_idx_ s).
    { pose proof (wf_written_length s Hwf) as L.
      assert (L2 : length (unread s) = 0%nat) by (rewrite Hun; reflexivity).
      unfold unread in L2. rewrite length_drop in L2.
      destruct Hwf as (Hr & _). lia. }
    destruct (PutUint8_returns 0 bs Hwfb ltac:(lia) ltac:(simpl in Hfit; lia))
      as (bs' & EP & _ & Hd & Hwr & _).
    exists bs'. split; [|split; [exact Hd | exact Hwr]].
    simpl. unfold bind at 1, get. unfold Eof, GetReadPtr, GetWritePtr.
    rewrite Heq, Z.eqb_refl, EP, <- Heq, set_read_idx_same. reflexivity.
  - destruct fuel as [|fuel]; [simpl in Hfuel; lia|].
    inversion Hall as [|? ? Hc Hrest]; subst.
    assert (Hlt : read_idx_ s < write_idx_ s).
    { pose proof (wf_written_length s Hwf) as L.
      assert (L2 : length (unread s) = S (length rest)) by (rewrite Hun; reflexivity).
      unfold unread in L2. rewrite length_drop in L2.
      destruct Hwf as (Hr & _). lia. }
    pose proof (GetUint8_returns c rest s Hwf Hun ltac:(lia)) as EG.
    simpl length in Hfit. 
    destruct (PutUint8_returns c bs Hwfb ltac:(lia) ltac:(lia))
      as (bs1 & EP & Hwfb1 & Hd1 & Hwr1 & Hw1).
    set (s1 := set_read_idx_ (read_idx_ s + 1) s) in *.
    assert (Hwf1 : wf s1).
    { destruct Hwf as (Hr & Hw & Hs & Hd). repeat split; simpl; try lia; assumption. }
    assert (Hun1 : unread s1 = rest).
    { unfold unread in *. change (written s1) with (written s).
      change (read_idx_ s1) with (read_idx_ s + 1).
      replace (Z.to_nat (read_idx_ s + 1)) with (Z.to_nat (read_idx_ s) + 1)%nat
        by (destruct Hwf as (Hr & _); lia).
      rewrite <- drop_drop, Hun. reflexivity. }
    destruct (IH fuel s1 bs1 Hwf1 Hwfb1 Hun1 Hrest ltac:(lia) ltac:(simpl in Hfuel; lia))
      as (bs' & EL & Hd' & Hwr').
    exists bs'. split; [|split; [exact Hd'|]].
    + cbn [GetString_loop]. unfold bind at 1, get. unfold Eof, GetReadPtr, GetWritePtr.
      destruct (Z.eqb_spec (read_idx_ s) (write_idx_ s)); [lia|].
      unfold bind at 1. rewrite EG. fold s1. rewrite EP.
      destruct (Z.eqb_spec c 0); [lia|]. exact EL.
    + rewrite Hwr', Hwr1, <- app_assoc. reflexivity.
Qed.

(** C10. On a well-formed stream whose unread bytes are all non-zero and
    fewer than 2^32 - 1, [GetString], given fuel for one turn more than there
    are unread bytes, raises nothing: it returns exactly the unread bytes and
    leaves the read cursor on the write cursor, the rest of the stream
    untouched. *)
Theorem GetString_without_zero_byte (fuel : nat) (s : ByteStream) :
  wf s ->
  Forall (fun c => 0 < c < 256) (unread s) ->
  write_idx_ s - read_idx_ s < 2 ^ 32 - 1 ->
  (length (unread s) < fuel)%nat ->
  GetString os little_endian_memory uninit fuel s
    = (Returns (unread s), set_read_idx_ (write_idx_ s) s).
Proof.
  intros Hwf Hall Hsmall Hfuel.
  set (bs0 := ByteStream_new os uninit 0).
  assert (Hwf0 : wf bs0) by (unfold wf; simpl; lia).
  assert (Hlen : Z.of_nat (length (unread s)) = write_idx_ s - read_idx_ s).
  { unfold unread. rewrite length_drop, (wf_written_length s Hwf).
    destruct Hwf as (Hr & _). lia. }
  destruct (GetString_loop_returns (unread s) fuel s bs0 Hwf Hwf0 eq_refl Hall
              ltac:(simpl; lia) Hfuel) as (bs' & EL & Hd & Hwr).
  unfold GetString, bind. fold bs0. rewrite EL.
  unfold GetBuffer, string_of_buffer.
  unfold written in Hwr. simpl in Hwr.
  destruct (data_ bs') as [buf|]; [|congruence].
  rewrite (c_str_prefix buf (unread s) _ Hwr Hall). reflexivity.
Qed.

End Platform.

(** C7, at an instance: a signed 16-bit value in network order on Windows,
    written into an empty stream. *)
Lemma put_get_round_trip_witness :
  let s := ByteStream_new OS_WIN (fun _ => 0) 0 in
  wf s /\ in_range Int16 (-2) /\ write_idx_ s + sizeof Int16 < 2 ^ 32 /\
  exists s',
    (let* _ := SetByteOrder BIG_ENDIAN in
     let* pos := gets GetWritePtr in
     let* _ := op_lshift OS_WIN true (fun _ => 0) Int16 (-2) in
     let* _ := SetReadPtr pos in
     op_rshift OS_WIN true Int16) s = (Returns (-2), s') /\
    read_idx_ s' = write_idx_ s + sizeof Int16 /\
    write_idx_ s' = write_idx_ s + sizeof Int16 /\
    byte_order_ s' = BIG_ENDIAN.
Proof.
  assert (H1 : wf (ByteStream_new OS_WIN (fun _ => 0) 0)) by (unfold wf; simpl; lia).
  assert (H2 : in_range Int16 (-2)) by (simpl; lia).
  assert (H3 : write_idx_ (ByteStream_new OS_WIN (fun _ => 0) 0) + sizeof Int16 < 2 ^ 32)
    by (simpl; lia).
  split; [exact H1|]. split; [exact H2|]. split; [exact H3|].
  exact (put_get_round_trip OS_WIN true (fun _ => 0) Int16 (-2) BIG_ENDIAN
           (ByteStream_new OS_WIN (fun _ => 0) 0) H1 H2 H3).
Defined.

(** Closes a comparison or an equation between closed terms. *)
Ltac concrete :=
  vm_compute; first [ reflexivity | discriminate | intros ?; discriminate ].

Ltac concrete_wf := unfold wf; repeat split; concrete.

(** C8, counterexample to the claim as stated: a stream borrows a 4-byte
    block and its write cursor is moved back to 0; adding two bytes asks
    [_Reserve] for 2 bytes, which is below the capacity 4, and yet the stream
    gets a new block of capacity 4 + 1024. *)
Lemma Reserve_borrowed_block_grows :
  let s := snd (SetWritePtr 0 four_bytes) in
  2 <= stream_size_ s /\
  fst (_Reserve (fun _ => 0) 2 s) = Returns tt /\
  stream_size_ (snd (_Reserve (fun _ => 0) 2 s)) = 1028 /\
  snd (_Reserve (fun _ => 0) 2 s) <> s /\
  stream_size_ (snd (Add (fun _ => 0) (Some [9; 9]) 2 s)) = 1028.
Proof.
  split; [simpl; lia|]. split; [vm_compute; reflexivity|].
  split; [vm_compute; reflexivity|]. split; [|vm_compute; reflexivity].
  intros H. apply (f_equal stream_size_) in H. vm_compute in H. discriminate H.
Qed.

(** C8 as amended, at instances: the owned stream of capacity 16 asked for
    8 bytes, and the borrowed stream of the counterexample. *)
Lemma Reserve_capacity_witness :
  let s := ByteStream_new OS_WIN (fun _ => 0) 16 in
  let b := four_bytes in
  wf s /\ 0 <= 8 < 2 ^ 32 /\
  _Reserve (fun _ => 0) 8 s = (Returns tt, s) /\
  exists b',
    _Reserve (fun _ => 0) 2 b = (Returns tt, b') /\
    stream_size_ b' = Z.max 2 (Z.max (4 + 1024) (4 + 4 / 16)) /\
    2 <= stream_size_ b' /\
    4 + Z.max 1024 (4 / 16) <= stream_size_ b' /\
    mallocated_ b' = true /\ data_ b' <> None /\
    written b' = written b /\
    read_idx_ b' = read_idx_ b /\ write_idx_ b' = write_idx_ b.
Proof.
  assert (W1 : wf (ByteStream_new OS_WIN (fun _ => 0) 16)) by concrete_wf.
  assert (W2 : wf (four_bytes)) by concrete_wf.
  split; [exact W1|]. split; [lia|]. split.
  - apply (proj1 (Reserve_capacity (fun _ => 0) 8 _ W1 ltac:(lia))).
    + simpl; lia.
    + simpl; discriminate.
    + reflexivity.
  - apply (proj2 (Reserve_capacity (fun _ => 0) 2 _ W2 ltac:(lia))).
    + simpl. intros (_ & _ & H). discriminate H.
    + concrete.
Defined.

(** C9, on the code. Moving the read cursor beyond the write cursor is to
    fail with the access violation error. On a stream whose write cursor is
    at 4, [SetReadPtr] to 5 does fail and leaves the stream as it was, but
    what it throws is the integer -1, which is no access violation exception
    with any message: the error cannot be caught as the kind it is to have. *)
Lemma SetReadPtr_throws_int :
  let s := four_bytes in
  5 > write_idx_ s /\
  SetReadPtr 5 s = (Throws (int_exception (-1)), s) /\
  forall msg, fst (SetReadPtr 5 s) <> Throws (access_violation_exception msg).
Proof.
  simpl. split; [lia|]. split; [reflexivity|]. intros msg H. discriminate H.
Qed.

(** The outcome of [SetReadPtr] at instances on the same stream. *)
Lemma SetReadPtr_outcome_witness :
  let s := four_bytes in
  5 > write_idx_ s /\ 4 <= write_idx_ s /\
  SetReadPtr 5 s = (Throws (int_exception (-1)), s) /\
  SetReadPtr 4 s = (Returns tt, set_read_idx_ 4 s).
Proof.
  assert (H1 : 5 > write_idx_ (four_bytes)) by (simpl; lia).
  assert (H2 : 4 <= write_idx_ (four_bytes)) by (simpl; lia).
  split; [exact H1|]. split; [exact H2|]. split.
  - exact (proj1 (SetReadPtr_outcome 5 _) H1).
  - exact (proj2 (SetReadPtr_outcome 4 _) H2).
Defined.

(** C10, at an instance: the stream above. *)
Lemma GetString_without_zero_byte_witness :
  wf hi_stream /\ Forall (fun c => 0 < c < 256) (unread hi_stream) /\
  write_idx_ hi_stream - read_idx_ hi_stream < 2 ^ 32 - 1 /\
  (length (unread hi_stream) < 4)%nat /\
  GetString OS_WIN true (fun _ => 0) 4 hi_stream
    = (Returns [104; 105; 33], set_read_idx_ 3 hi_stream).
Proof.
  assert (H1 : wf hi_stream) by concrete_wf.
  assert (H2 : Forall (fun c => 0 < c < 256) (unread hi_stream)).
  { simpl. repeat constructor; lia. }
  assert (H3 : write_idx_ hi_stream - read_idx_ hi_stream < 2 ^ 32 - 1) by concrete.
  assert (H4 : (length (unread hi_stream) < 4)%nat) by (simpl; lia).
  split; [exact H1|]. split; [exact H2|]. split; [exact H3|]. split; [exact H4|].
  exact (GetString_without_zero_byte OS_WIN true (fun _ => 0) 4 _ H1 H2 H3 H4).
Defined.

End BSFacts.

(** ** Event *)

Module EventFacts.

Import EventLinux.

(** A finite wait on an event that is set, and stays set, never returns
    [true]: the timed loop runs while the state is set and leaves only through
    a failed wait. *)
Lemma wait_until_set_not_true ts (answers : list (Z * bool)) :
  forall e, event_state_ e = true ->
    Forall (fun a => snd a = true) answers ->
    fst (wait_until ts answers e) <> Returns true.
Proof.
  induction answers as [|[rc state] rest IH]; intros e He Hall.
  - destruct e as [m st c]. simpl in He. subst st. simpl. discriminate.
  - inversion Hall as [|? ? Hs Hrest]; subst. simpl in Hs. subst state.
    destruct e as [m st c]. simpl in He. subst st.
    cbn -[Z.eqb]. unfold unlock_and_return.
    destruct (rc =? 0); cbn -[Z.eqb].
    + apply IH; [reflexivity | exact Hrest].
    + discriminate.
Qed.

Lemma Wait_finite_set_not_true os timeout e :
  event_state_ e = true -> timeout <> 0xffffffff ->
  Forall (fun a => snd a = true) (wait_rcs os) ->
  fst (Wait os timeout e) <> Returns true.
Proof.
  intros He Hfin Hall. unfold Wait.
  destruct (Z.eqb_spec timeout 0xffffffff) as [|_]; [contradiction|].
  destruct e as [m st c]. simpl in He. subst st.
  destruct (timeout =? 0); cbn -[Z.eqb wait_until].
  - destruct (trylock_rc os =? 0); cbn -[Z.eqb wait_until]; [|discriminate].
    destruct (clock_gettime_rc os =? -1); cbn -[Z.eqb wait_until]; [discriminate|].
    apply wait_until_set_not_true; [reflexivity | exact Hall].
  - destruct (lock_rc os =? 0); cbn -[Z.eqb wait_until]; [|discriminate].
    destruct (clock_gettime_rc os =? -1); cbn -[Z.eqb wait_until]; [discriminate|].
    apply wait_until_set_not_true; [reflexivity | exact Hall].
Qed.

(** The mirror image: a finite wait on an event that is not set returns
    [true] at once when the mutex and the clock are available. *)
Lemma Wait_finite_clear_true os timeout e :
  event_state_ e = false -> timeout <> 0xffffffff ->
  lock_rc os = 0 -> trylock_rc os = 0 -> clock_gettime_rc os <> -1 ->
  fst (Wait os timeout e) = Returns true.
Proof.
  intros He Hfin Hl Ht Hc. unfold Wait.
  destruct (Z.eqb_spec timeout 0xffffffff) as [|_]; [contradiction|].
  destruct (Z.eqb_spec (clock_gettime_rc os) (-1)) as [|_]; [contradiction|].
  destruct e as [m st c]. simpl in He. subst st. rewrite Hl, Ht.
  destruct (timeout =? 0); cbn; destruct (wait_rcs os); reflexivity.
Qed.

(** C6, on the code: after [Signal], with every system call succeeding and
    no [Reset] in between, [Wait(100)] and the poll [Wait(0)] both return
    false when the timed wait reports the timeout; only the wait without
    timeout returns true. *)
Theorem Wait_after_Signal :
  let os := mkAnswers 0 0 0 (0, 0) [(ETIMEDOUT, true)] in
  let signalled := snd (Signal os Event_new) in
  event_state_ signalled = true /\
  fst (Wait os 100 signalled) = Returns false /\
  fst (Wait os 0 signalled) = Returns false /\
  fst (Wait os 0xffffffff signalled) = Returns true.
Proof. repeat split; reflexivity. Qed.

End EventFacts.

(** ** I/O contexts and their pool *)

Module IoContextFacts.

Import IOCP.

(** What [Reset] does to every field: all but the accept slot get their
    initial value; the accept slot keeps its value, and [closesocket] is
    called exactly when that value is [INVALID_SOCKET]. *)
Lemma IOCP_IoContext_Reset_fields (c : IOCP_IoContext) :
  let r := IOCP_IoContext_Reset c in
  overlapped_ (snd r) = OVERLAPPED_zero /\
  buf_ (snd r) = repeat 0 (Z.to_nat MAX_IO_BUFFER_SIZE) /\
  remote_addr_ (snd r) = SOCKADDR_IN_zero /\
  wsa_buf_ (snd r) = mkWSABUF MAX_IO_BUFFER_SIZE inline_buf /\
  operation_ (snd r) = NULL_POSTED /\
  sock_accept_ (snd r) = sock_accept_ c /\
  fst r = (if INVALID_SOCKET =? sock_accept_ c then [closesocket INVALID_SOCKET] else []).
Proof.
  unfold IOCP_IoContext_Reset.
  destruct (Z.eqb_spec INVALID_SOCKET (sock_accept_ c)) as [E|E]; cbn -[INVALID_SOCKET];
    repeat split; try reflexivity; congruence.
Qed.

(** C5, on the code: a context that carries the accepted socket 1234 is
    reset; every other field is cleared, but [closesocket] is not called and
    the slot still holds 1234. *)
Theorem Reset_leaves_accepted_socket_open :
  let c := set_operation_ ACCEPT_POSTED (set_sock_accept_ 1234 (IOCP_IoContext_new 0)) in
  sock_accept_ c <> INVALID_SOCKET /\
  fst (IOCP_IoContext_Reset c) = [] /\
  sock_accept_ (snd (IOCP_IoContext_Reset c)) = 1234 /\
  operation_ (snd (IOCP_IoContext_Reset c)) = NULL_POSTED.
Proof. repeat split; try reflexivity. intros H; discriminate H. Qed.

Section Pool.

Variable indeterminate : Z -> Z.

Lemma read_io_heap a c w : ios w !! a = Some c -> read_io (HeapIo a) w = (Returns c, w).
Proof. intros H. unfold read_io, bind, get. rewrite H. reflexivity. Qed.

Lemma write_io_heap a c c' w : ios w !! a = Some c ->
  write_io (HeapIo a) c' w = (Returns tt, set_ios (<[a := c']> (ios w)) w).
Proof. intros H. unfold write_io, bind, get. rewrite H. reflexivity. Qed.

Lemma Reset_at_heap a c w : ios w !! a = Some c ->
  Reset_at (HeapIo a) w =
    (Returns tt,
     set_ios (<[a := snd (IOCP_IoContext_Reset c)]> (ios w))
       (set_trace (trace w ++ fst (IOCP_IoContext_Reset c)) w)).
Proof.
  intros H. unfold Reset_at. unfold bind at 1. rewrite (read_io_heap a c w H).
  destruct (IOCP_IoContext_Reset c) as [evs c'] eqn:E. simpl.
  unfold bind, emit_all, modify.
  rewrite (write_io_heap a c c') by exact H. reflexivity.
Qed.

(** [Reset_at] changes neither pool, whatever the pointer. *)
Lemma Reset_at_pools p w :
  pool_io_context_ (snd (Reset_at p w)) = pool_io_context_ w /\
  pool_sock_context_ (snd (Reset_at p w)) = pool_sock_context_ w.
Proof.
  unfold Reset_at, read_io, write_io, bind, get, emit_all, modify, undefined, put, ret.
  destruct p as [a|sh]; simpl.
  - destruct (ios w !! a) as [c|] eqn:E; simpl; [|split; reflexivity].
    destruct (IOCP_IoContext_Reset c) as [evs c']. simpl. rewrite E. split; reflexivity.
  - destruct (socks w !! sh) as [s|] eqn:E; simpl; [|split; reflexivity].
    destruct (IOCP_IoContext_Reset (recv_context_ s)) as [evs c']. simpl. rewrite E.
    split; reflexivity.
Qed.

Lemma delete_IoContext_pools p w :
  pool_io_context_ (snd (delete_IoContext p w)) = pool_io_context_ w /\
  pool_sock_context_ (snd (delete_IoContext p w)) = pool_sock_context_ w.
Proof.
  unfold delete_IoContext, bind, get, put, undefined.
  destruct p as [a|sh]; simpl; [|split; reflexivity].
  destruct (ios w !! a); split; reflexivity.
Qed.

(** [PutIoContext] leaves the pool as it is or appends the pointer, the
    latter only below the capacity. *)
Lemma PutIoContext_pool p w :
  let pool := pool_io_context_ w in
  let pool' := pool_io_context_ (snd (PutIoContext p w)) in
  pool' = pool \/
  (pool' = mkIoContextPool (pool_list_io_context_ pool ++ [p]) (pool_size_ pool) /\
   Z.of_nat (length (pool_list_io_context_ pool)) < pool_size_ pool).
Proof.
  simpl. unfold PutIoContext, bind.
  destruct (Reset_at_pools p w) as [Hp _].
  destruct (Reset_at p w) as [[[]| | |] w1]; simpl in Hp |- *; rewrite ?Hp; auto.
  unfold get. rewrite ?Hp.
  destruct (Z.leb_spec (pool_size_ (pool_io_context_ w))
              (Z.of_nat (length (pool_list_io_context_ (pool_io_context_ w))))) as [Hfull|Hroom].
  - destruct (delete_IoContext_pools p w1) as [Hd _]. rewrite Hd, Hp. auto.
  - right. split; [reflexivity | exact Hroom].
Qed.

Lemma PutIoContext_pool_size p w :
  pool_size_ (pool_io_context_ (snd (PutIoContext p w))) = pool_size_ (pool_io_context_ w).
Proof.
  destruct (PutIoContext_pool p w) as [E|[E _]]; simpl in E; rewrite E; reflexivity.
Qed.

Lemma GetIoContext_pool_size w :
  pool_size_ (pool_io_context_ (snd (GetIoContext indeterminate w)))
  = pool_size_ (pool_io_context_ w).
Proof.
  unfold GetIoContext, new_IoContext, bind, get, put, ret.
  destruct (pool_list_io_context_ (pool_io_context_ w)); reflexivity.
Qed.

Lemma PutIoContext_bounded p w :
  pool_bounded w -> pool_bounded (snd (PutIoContext p w)).
Proof.
  unfold pool_bounded, pool_length. intros Hb.
  destruct (PutIoContext_pool p w) as [E|[E Hroom]]; simpl in E; rewrite E; [exact Hb|].
  simpl. rewrite length_app. simpl. lia.
Qed.

Lemma GetIoContext_bounded w :
  pool_bounded w -> pool_bounded (snd (GetIoContext indeterminate w)).
Proof.
  unfold pool_bounded, pool_length. intros Hb.
  unfold GetIoContext, new_IoContext, bind, get, put, ret.
  destruct (pool_list_io_context_ (pool_io_context_ w)) as [|context rest] eqn:E; simpl.
  - rewrite E. exact Hb.
  - simpl in Hb. lia.
Qed.

Lemma pool_step_bounded op w :
  pool_bounded w -> pool_bounded (snd (pool_step indeterminate op w)).
Proof.
  intros Hb. destruct op as [|p]; simpl.
  - unfold bind. pose proof (GetIoContext_bounded w Hb) as H.
    destruct (GetIoContext indeterminate w) as [[?| | |] w1]; exact H.
  - apply PutIoContext_bounded. exact Hb.
Qed.

Lemma pool_run_bounded ops : forall w,
  pool_bounded w -> pool_bounded (snd (pool_run indeterminate ops w)).
Proof.
  induction ops as [|op ops IH]; intros w Hb; [exact Hb|].
  unfold pool_run. cbn [for_each]. unfold bind.
  pose proof (pool_step_bounded op w Hb) as H.
  destruct (pool_step indeterminate op w) as [[[]| | |] w1]; simpl in H |- *; try exact H.
  apply IH. exact H.
Qed.

Lemma World_new_bounded cap sock_cap : pool_bounded (World_new cap sock_cap).
Proof.
  unfold pool_bounded, pool_length. simpl. apply Z.mod_pos_bound. lia.
Qed.

(** C4. The pool is built empty with the capacity it is given, 1000 in every
    facade. [GetIoContext] pops the front of a non-empty list and allocates a
    fresh context when the list is empty. [PutIoContext] of an allocated
    context resets it, then appends it when the list is below the capacity and
    deletes it otherwise. After any sequence of gets and puts, from the empty
    pool or from any state within the capacity, the list is within the
    capacity. *)
Theorem IoContextPool_bounded :
  pool_size_ (pool_io_context_ Init_World) = 1000 /\
  pool_list Init_World = [] /\
  (forall w context rest,
     pool_list w = context :: rest ->
     exists w', GetIoContext indeterminate w = (Returns context, w') /\
                pool_list w' = rest /\ ios w' = ios w) /\
  (forall w,
     pool_list w = [] ->
     exists w', GetIoContext indeterminate w = (Returns (HeapIo (next_addr w)), w') /\
                pool_list w' = [] /\
                ios w' = <[next_addr w := IOCP_IoContext_new (indeterminate (next_addr w))]> (ios w)) /\
  (forall w a c,
     ios w !! a = Some c ->
     exists w', PutIoContext (HeapIo a) w = (Returns tt, w') /\
       if pool_size_ (pool_io_context_ w) <=? pool_length w
       then pool_list w' = pool_list w /\ ios w' !! a = None
       else pool_list w' = pool_list w ++ [HeapIo a] /\
            ios w' !! a = Some (snd (IOCP_IoContext_Reset c))) /\
  (forall w ops, pool_bounded w -> pool_bounded (snd (pool_run indeterminate ops w))) /\
  (forall cap sock_cap ops,
     pool_length (snd (pool_run indeterminate ops (World_new cap sock_cap))) <= uint32_t cap).
Proof.
  split; [reflexivity|]. split; [reflexivity|]. split; [|split; [|split; [|split]]].
  - intros w context rest H. unfold pool_list in H.
    unfold GetIoContext, bind, get, put, ret. rewrite H.
    eexists. split; [reflexivity|]. split; reflexivity.
  - intros w H. unfold pool_list in H.
    unfold GetIoContext, new_IoContext, bind, get, put, ret. rewrite H.
    eexists. split; [reflexivity|]. split; [exact H | reflexivity].
  - intros w a c H. unfold PutIoContext. unfold bind at 1.
    rewrite (Reset_at_heap a c w H). unfold bind, get. cbn [pool_io_context_ set_ios set_trace].
    unfold pool_length, pool_list.
    destruct (Z.leb_spec (pool_size_ (pool_io_context_ w))
                (Z.of_nat (length (pool_list_io_context_ (pool_io_context_ w))))).
    + unfold delete_IoContext, bind, get, put. cbn [ios set_ios].
      rewrite lookup_insert_eq. eexists. split; [reflexivity|].
      split; [reflexivity|]. cbn [ios set_ios]. apply lookup_delete_eq.
    + unfold put. eexists. split; [reflexivity|].
      split; [reflexivity|]. cbn [ios set_ios set_pool_io_context_]. apply lookup_insert_eq.
  - intros w ops. apply pool_run_bounded.
  - intros cap sock_cap ops.
    pose proof (pool_run_bounded ops _ (World_new_bounded cap sock_cap)) as H.
    unfold pool_bounded in H.
    assert (E : forall ops w, pool_size_ (pool_io_context_ (snd (pool_run indeterminate ops w)))
                              = pool_size_ (pool_io_context_ w)).
    { clear. induction ops as [|op ops IH]; intros w; [reflexivity|].
      unfold pool_run. cbn [for_each]. unfold bind.
      assert (S1 : pool_size_ (pool_io_context_ (snd (pool_step indeterminate op w)))
                   = pool_size_ (pool_io_context_ w)).
      { destruct op as [|p]; simpl.
        - unfold bind. pose proof (GetIoContext_pool_size w) as G.
          destruct (GetIoContext indeterminate w) as [[?| | |] w1]; exact G.
        - apply PutIoContext_pool_size. }
      destruct (pool_step indeterminate op w) as [[[]| | |] w1]; simpl in S1 |- *; try exact S1.
      fold (pool_run indeterminate ops w1). rewrite IH. exact S1. }
    rewrite E in H. exact H.
Qed.

End Pool.

(** C4, at an instance: two gets, then two puts, on the pool of capacity 1;
    the second put finds the list full and deletes its context. *)
Lemma IoContextPool_bounded_witness :
  let w := World_new 1 2 in
  let ops := [pool_get; pool_get; pool_put (HeapIo 1); pool_put (HeapIo 2)] in
  pool_bounded w /\
  pool_bounded (snd (pool_run zeroed ops w)) /\
  fst (pool_run zeroed ops w) = Returns tt /\
  pool_list (snd (pool_run zeroed ops w)) = [HeapIo 1] /\
  ios (snd (pool_run zeroed ops w)) !! 2 = None.
Proof.
  assert (H : pool_bounded (World_new 1 2)) by apply World_new_bounded.
  split; [exact H|]. split.
  - exact (proj1 (proj2 (proj2 (proj2 (proj2 (proj2 (IoContextPool_bounded zeroed))))))
             (World_new 1 2) _ H).
  - split; [vm_compute; reflexivity|]. split; vm_compute; reflexivity.
Defined.

End IoContextFacts.

(** ** Socket contexts, workers and facades *)

Module WorkerFacts.

Import IOCP IoContextFacts.

Lemma read_sock_live sh s w : socks w !! sh = Some s ->
  read_sock (Some sh) w = (Returns s, w).
Proof. intros H. unfold read_sock, bind, get. rewrite H. reflexivity. Qed.

Lemma update_sock_live sh s f w : socks w !! sh = Some s ->
  update_sock (Some sh) f w = (Returns tt, set_socks (<[sh := f s]> (socks w)) w).
Proof.
  intros H. unfold update_sock. unfold bind at 1. rewrite (read_sock_live sh s w H).
  reflexivity.
Qed.

Lemma Reset_at_recv sh s w : socks w !! sh = Some s ->
  Reset_at (RecvIo sh) w =
    (Returns tt,
     set_socks (<[sh := set_recv_context_ (snd (IOCP_IoContext_Reset (recv_context_ s))) s]> (socks w))
       (set_trace (trace w ++ fst (IOCP_IoContext_Reset (recv_context_ s))) w)).
Proof.
  intros H. unfold Reset_at, read_io, write_io, bind, get, ret, emit_all, modify, put.
  rewrite H. destruct (IOCP_IoContext_Reset (recv_context_ s)) as [evs c'].
  simpl. rewrite H. reflexivity.
Qed.

Lemma IOCP_IoContext_Reset_quiet c : quiet (fst (IOCP_IoContext_Reset c)).
Proof.
  destruct (IOCP_IoContext_Reset_fields c) as (_ & _ & _ & _ & _ & _ & E).
  cbv zeta in E. rewrite E.
  destruct (INVALID_SOCKET =? sock_accept_ c); repeat constructor.
Qed.

(** [PutIoContext] of an allocated heap context returns; it touches no
    socket context, calls nothing of the user's, and keeps every other heap
    context. *)
Lemma PutIoContext_heap_returns a c w : ios w !! a = Some c ->
  exists w1,
    PutIoContext (HeapIo a) w = (Returns tt, w1) /\
    socks w1 = socks w /\
    pool_sock_context_ w1 = pool_sock_context_ w /\
    trace w1 = trace w ++ fst (IOCP_IoContext_Reset c) /\
    forall a', a' <> a -> ios w1 !! a' = ios w !! a'.
Proof.
  intros H. unfold PutIoContext. unfold bind at 1.
  rewrite (Reset_at_heap a c w H). unfold bind, get. cbn [pool_io_context_ set_ios set_trace].
  destruct (pool_size_ (pool_io_context_ w) <=? _).
  - unfold delete_IoContext, bind, get, put. cbn [ios set_ios].
    rewrite lookup_insert_eq. eexists. split; [reflexivity|].
    cbn. repeat split; try reflexivity.
    intros a' Hne. rewrite lookup_delete_ne by congruence.
    rewrite lookup_insert_ne by congruence. reflexivity.
  - unfold put. eexists. split; [reflexivity|].
    cbn. repeat split; try reflexivity.
    intros a' Hne. rewrite lookup_insert_ne by congruence. reflexivity.
Qed.

(** Returning a list of distinct allocated heap contexts to the pool. *)
Lemma for_each_PutIoContext_returns (l : list io_ptr) : forall w,
  NoDup l -> Forall (live_heap w) l ->
  exists w' evs,
    for_each l PutIoContext w = (Returns tt, w') /\
    socks w' = socks w /\
    pool_sock_context_ w' = pool_sock_context_ w /\
    trace w' = trace w ++ evs /\ quiet evs.
Proof.
  induction l as [|p rest IH]; intros w Hnd Hall.
  - exists w, []. simpl. rewrite app_nil_r. repeat split; constructor.
  - inversion Hnd as [|? ? Hnotin Hnd']; subst.
    inversion Hall as [|? ? (a & -> & [c Hc]) Hall']; subst.
    destruct (PutIoContext_heap_returns a c w Hc) as (w1 & E1 & Hs1 & Hp1 & Ht1 & Hk1).
    assert (Hall1 : Forall (live_heap w1) rest).
    { rewrite Forall_forall in Hall' |- *. intros q Hq.
      destruct (Hall' q Hq) as (a' & -> & Hlive). exists a'. split; [reflexivity|].
      rewrite Hk1; [exact Hlive|]. intros ->. apply Hnotin. exact Hq. }
    destruct (IH w1 Hnd' Hall1) as (w' & evs & E & Hs & Hp & Ht & Hq).
    exists w', (fst (IOCP_IoContext_Reset c) ++ evs).
    cbn [for_each]. unfold bind. rewrite E1, E.
    repeat split.
    + congruence.
    + congruence.
    + rewrite Ht, Ht1, app_assoc. reflexivity.
    + apply Forall_app. split; [apply IOCP_IoContext_Reset_quiet | exact Hq].
Qed.

(** [IOCP_SocketContext::Reset] on a sound socket context returns: the
    context ends with id 0, an invalid socket and an empty outstanding list;
    the socket pool is not touched and nothing of the user's is called. *)
Lemma IOCP_SocketContext_Reset_returns sh w : shell_ok w sh ->
  exists w' evs,
    IOCP_SocketContext_Reset (Some sh) w = (Returns tt, w') /\
    pool_sock_context_ w' = pool_sock_context_ w /\
    trace w' = trace w ++ evs /\ quiet evs /\
    exists s', socks w' !! sh = Some s' /\ sock_id_ s' = 0 /\
               sock_ s' = INVALID_SOCKET /\ list_io_context_ s' = [].
Proof.
  intros (s & Hs & Hnd & Hall).
  unfold IOCP_SocketContext_Reset.
  (* sock_id_ = 0 *)
  unfold bind at 1. rewrite (update_sock_live sh s _ w Hs).
  set (w1 := set_socks _ w).
  assert (H1 : socks w1 !! sh = Some (set_sock_id_ 0 s)) by apply lookup_insert_eq.
  (* is_listen_sock_ = false *)
  unfold bind at 1. rewrite (update_sock_live sh _ _ w1 H1).
  set (w2 := set_socks _ w1).
  assert (H2 : socks w2 !! sh = Some (set_is_listen_sock_ false (set_sock_id_ 0 s)))
    by apply lookup_insert_eq.
  unfold bind at 1. rewrite (read_sock_live sh _ w2 H2).
  (* the socket *)
  set (s2 := set_is_listen_sock_ false (set_sock_id_ 0 s)) in *.
  assert (Hclose : exists w3 evs3 s3,
            (if negb (INVALID_SOCKET =? sock_ s2)
             then
               let* _ := emit (shutdown (sock_ s2) SD_SEND) in
               let* _ := emit (closesocket (sock_ s2)) in
               update_sock (Some sh) (set_sock_ INVALID_SOCKET)
             else ret tt) w2 = (Returns tt, w3) /\
            socks w3 !! sh = Some s3 /\ sock_ s3 = INVALID_SOCKET /\
            list_io_context_ s3 = list_io_context_ s /\ sock_id_ s3 = 0 /\
            ios w3 = ios w /\ pool_sock_context_ w3 = pool_sock_context_ w /\
            trace w3 = trace w ++ evs3 /\ quiet evs3).
  { destruct (Z.eqb_spec INVALID_SOCKET (sock_ s2)) as [Ei|Ei]; cbn [negb].
    - exists w2, [], s2. rewrite app_nil_r.
      repeat split; try reflexivity; try assumption; try constructor.
      symmetry. exact Ei.
    - unfold bind at 1, emit, modify. unfold bind at 1.
      set (w2' := set_trace _ (set_trace _ w2)).
      assert (H2' : socks w2' !! sh = Some s2) by exact H2.
      rewrite (update_sock_live sh _ _ w2' H2').
      eexists _, [shutdown (sock_ s2) SD_SEND; closesocket (sock_ s2)], _.
      split; [reflexivity|]. split; [apply lookup_insert_eq|].
      repeat split; try reflexivity.
      + cbn. rewrite <- app_assoc. reflexivity.
      + repeat constructor. }
  destruct Hclose as (w3 & evs3 & s3 & E3 & H3 & Hsock3 & Hlist3 & Hid3 & Hios3 & Hpool3 & Htr3 & Hq3).
  unfold bind at 1. rewrite E3.
  (* local_addr_ *)
  unfold bind at 1. rewrite (update_sock_live sh _ _ w3 H3).
  set (w4 := set_socks _ w3).
  assert (H4 : socks w4 !! sh = Some (set_local_addr_ SOCKADDR_IN_zero s3))
    by apply lookup_insert_eq.
  (* recv_context_.Reset() *)
  unfold bind at 1. rewrite (Reset_at_recv sh _ w4 H4).
  set (s5 := set_recv_context_ _ (set_local_addr_ SOCKADDR_IN_zero s3)).
  set (evs5 := fst (IOCP_IoContext_Reset (recv_context_ (set_local_addr_ SOCKADDR_IN_zero s3)))).
  set (w5 := set_socks _ (set_trace _ w4)).
  assert (H5 : socks w5 !! sh = Some s5) by apply lookup_insert_eq.
  unfold bind at 1. rewrite (read_sock_live sh _ w5 H5).
  (* the outstanding list *)
  assert (Hlist5 : list_io_context_ s5 = list_io_context_ s) by exact Hlist3.
  assert (Hall5 : Forall (live_heap w5) (list_io_context_ s5)).
  { rewrite Hlist5. rewrite Forall_forall in Hall |- *. intros q Hq.
    destruct (Hall q Hq) as (a & -> & Hlive). exists a. split; [reflexivity|].
    change (ios w5) with (ios w3). rewrite Hios3. exact Hlive. }
  destruct (for_each_PutIoContext_returns (list_io_context_ s5) w5
              ltac:(rewrite Hlist5; exact Hnd) Hall5)
    as (w6 & evs6 & E6 & Hs6 & Hp6 & Ht6 & Hq6).
  unfold bind at 1. rewrite E6.
  assert (H6 : socks w6 !! sh = Some s5) by (rewrite Hs6; exact H5).
  rewrite (update_sock_live sh _ _ w6 H6).
  eexists _, (evs3 ++ evs5 ++ evs6). split; [reflexivity|].
  split; [exact (eq_trans Hp6 Hpool3)|].
  split.
  { cbn. rewrite Ht6. change (trace w5) with (trace w3 ++ evs5). rewrite Htr3.
    rewrite <- !app_assoc. reflexivity. }
  split.
  { apply Forall_app. split; [exact Hq3|]. apply Forall_app. split; [|exact Hq6].
    apply IOCP_IoContext_Reset_quiet. }
  eexists. split; [apply lookup_insert_eq|].
  repeat split; try reflexivity; assumption.
Qed.

(** [DelActiveContext] returns when the context the id maps to, if any, is
    sound; afterwards the id is not in the active map, and nothing of the
    user's was called. *)
Lemma DelActiveContext_returns key w :
  (forall sh, map_active_ (pool_sock_context_ w) !! key = Some sh -> shell_ok w sh) ->
  exists w1 evs,
    DelActiveContext key w = (Returns tt, w1) /\
    map_active_ (pool_sock_context_ w1) !! key = None /\
    trace w1 = trace w ++ evs /\ quiet evs.
Proof.
  intros Hok. unfold DelActiveContext. unfold bind at 1, get.
  destruct (map_active_ (pool_sock_context_ w) !! key) as [sh|] eqn:Hact.
  - unfold bind at 1, put.
    set (w0 := set_pool_sock_context_ _ w).
    assert (Hok0 : shell_ok w0 sh) by exact (Hok sh eq_refl).
    destruct (IOCP_SocketContext_Reset_returns sh w0 Hok0)
      as (w' & evs & E & Hp & Ht & Hq & _).
    unfold bind. rewrite E.
    unfold push_idle, bind, get, put, ret. rewrite Hp.
    exists (snd (push_idle (Some sh) w')), evs.
    unfold push_idle, bind, get, put, ret. rewrite Hp.
    destruct (Z.of_nat (length (list_idle_ (pool_sock_context_ w0))) <? _); cbn.
    + repeat split; try assumption. apply lookup_delete_eq.
    + repeat split; try assumption. rewrite Hp. cbn. apply lookup_delete_eq.
  - exists w, []. rewrite app_nil_r. repeat split; try assumption. constructor.
Qed.


Lemma GetActiveContext_lookup key w :
  GetActiveContext key w = (Returns (map_active_ (pool_sock_context_ w) !! key), w).
Proof. reflexivity. Qed.

Section Worker.

Variable indeterminate : Z -> Z.
Variable indeterminate_addr : Z -> SOCKADDR_IN.

(** C3. A TCP worker dequeues a successful completion with zero bytes whose
    context is allocated and tagged Recv or Send, for a key whose socket
    context, if it is active, is sound. Then [DelActiveContext] returns a
    state in which the key is not active, having called nothing of the user's;
    the turn of the loop ends in that very state with one more call, the
    disconnect callback for that key, and goes on with the loop. *)
Theorem zero_byte_completion_disconnects
    (os : OsAnswers) (l : Locals) (w : World) (key : Z) (p : io_ptr) (io : IOCP_IoContext) :
  gqcs_ret (dequeue os) = true ->
  gqcs_bytes (dequeue os) = Some 0 ->
  gqcs_key (dequeue os) = Some key ->
  gqcs_overlapped (dequeue os) = Some p ->
  read_io p w = (Returns io, w) ->
  operation_ io = RECV_POSTED \/ operation_ io = SEND_POSTED ->
  (forall sh, map_active_ (pool_sock_context_ w) !! key = Some sh -> shell_ok w sh) ->
  exists w1 evs,
    DelActiveContext key w = (Returns tt, w1) /\
    map_active_ (pool_sock_context_ w1) !! key = None /\
    trace w1 = trace w ++ evs /\ quiet evs /\
    TCP._Run_iteration indeterminate indeterminate_addr os l w =
      (Returns (Continue, mkLocals 0 key (Some p) (Some p)),
       set_trace (trace w1 ++ [DisconnectedCallback key]) w1).
Proof.
  intros Hret Hbytes Hkey Hov Hio Hop Hok.
  destruct (DelActiveContext_returns key w Hok) as (w1 & evs & E & Hgone & Ht & Hq).
  exists w1, evs. repeat (split; [assumption|]).
  unfold TCP._Run_iteration, store_dequeue, CONTAINING_RECORD.
  rewrite Hret, Hbytes, Hkey, Hov. cbn [default from_option id sock_id bytes_transfered overlapped io_data negb].
  unfold bind at 1. rewrite GetActiveContext_lookup.
  unfold bind at 1. rewrite Hio.
  assert (Htag : IO_OPERATION_eqb RECV_POSTED (operation_ io)
                 || IO_OPERATION_eqb SEND_POSTED (operation_ io) = true).
  { destruct Hop as [-> | ->]; reflexivity. }
  rewrite Htag. cbn [Z.eqb andb].
  unfold bind at 1. rewrite E. reflexivity.
Qed.

(** A failed dequeue for a key that is not active is dropped by either
    worker: the loop goes on and the state is as before. *)
Lemma failed_dequeue_dropped (os : OsAnswers) (l : Locals) (w : World) (key : Z) :
  gqcs_ret (dequeue os) = false ->
  gqcs_key (dequeue os) = Some key ->
  map_active_ (pool_sock_context_ w) !! key = None ->
  TCP._Run_iteration indeterminate indeterminate_addr os l w
    = (Returns (Continue, store_dequeue (dequeue os) l), w) /\
  UDP._Run_iteration os l w = (Returns (Continue, store_dequeue (dequeue os) l), w).
Proof.
  intros Hret Hkey Hnone.
  assert (Hid : sock_id (store_dequeue (dequeue os) l) = key).
  { unfold store_dequeue. rewrite Hkey. reflexivity. }
  unfold TCP._Run_iteration, UDP._Run_iteration. rewrite Hret. cbn [negb].
  unfold bind. rewrite GetActiveContext_lookup, Hid, Hnone.
  split; reflexivity.
Qed.

(** A successful completion for a key that is not active, whose context is
    tagged Recv: the UDP worker, and the TCP worker unless the byte count is
    zero, go through the null socket context. *)
Lemma late_recv_completion_faults (os : OsAnswers) (l : Locals) (w : World)
    (key bytes : Z) (p : io_ptr) (io : IOCP_IoContext) :
  gqcs_ret (dequeue os) = true ->
  gqcs_bytes (dequeue os) = Some bytes ->
  gqcs_key (dequeue os) = Some key ->
  gqcs_overlapped (dequeue os) = Some p ->
  read_io p w = (Returns io, w) ->
  operation_ io = RECV_POSTED ->
  map_active_ (pool_sock_context_ w) !! key = None ->
  UDP._Run_iteration os l w = (Undefined NullDereference, w) /\
  (bytes <> 0 ->
   TCP._Run_iteration indeterminate indeterminate_addr os l w = (Undefined NullDereference, w)).
Proof.
  intros Hret Hbytes Hkey Hov Hio Hop Hnone. split.
  - unfold UDP._Run_iteration, store_dequeue, CONTAINING_RECORD.
    rewrite Hret, Hbytes, Hkey, Hov.
    cbn [default from_option id sock_id bytes_transfered overlapped io_data negb].
    unfold bind at 1. rewrite GetActiveContext_lookup, Hnone.
    unfold bind at 1. rewrite Hio, Hop. reflexivity.
  - intros Hne.
    unfold TCP._Run_iteration, store_dequeue, CONTAINING_RECORD.
    rewrite Hret, Hbytes, Hkey, Hov.
    cbn [default from_option id sock_id bytes_transfered overlapped io_data negb].
    unfold bind at 1. rewrite GetActiveContext_lookup, Hnone.
    unfold bind at 1. rewrite Hio, Hop.
    destruct (Z.eqb_spec 0 bytes); [congruence|]. reflexivity.
Qed.

End Worker.

(** C3, at an instance: the connected client of the example run dequeues a
    zero-byte completion of its receive. *)
Lemma zero_byte_completion_disconnects_witness :
  let os := late_recv 0 in
  let w := tcp_connected in
  gqcs_ret (dequeue os) = true /\
  gqcs_bytes (dequeue os) = Some 0 /\
  gqcs_key (dequeue os) = Some 7 /\
  gqcs_overlapped (dequeue os) = Some (RecvIo 1) /\
  read_io (RecvIo 1) w = (Returns (first_recv_context w), w) /\
  (operation_ (first_recv_context w) = RECV_POSTED
   \/ operation_ (first_recv_context w) = SEND_POSTED) /\
  (forall sh, map_active_ (pool_sock_context_ w) !! 7 = Some sh -> shell_ok w sh) /\
  exists w1 evs,
    DelActiveContext 7 w = (Returns tt, w1) /\
    map_active_ (pool_sock_context_ w1) !! 7 = None /\
    trace w1 = trace w ++ evs /\ quiet evs /\
    TCP._Run_iteration zeroed zeroed_addr os Locals_new w =
      (Returns (Continue, mkLocals 0 7 (Some (RecvIo 1)) (Some (RecvIo 1))),
       set_trace (trace w1 ++ [DisconnectedCallback 7]) w1).
Proof.
  assert (H5 : read_io (RecvIo 1) tcp_connected
               = (Returns (first_recv_context tcp_connected), tcp_connected))
    by (vm_compute; reflexivity).
  assert (H6 : operation_ (first_recv_context tcp_connected) = RECV_POSTED
               \/ operation_ (first_recv_context tcp_connected) = SEND_POSTED)
    by (left; vm_compute; reflexivity).
  assert (H7 : forall sh, map_active_ (pool_sock_context_ tcp_connected) !! 7 = Some sh ->
                          shell_ok tcp_connected sh).
  { intros sh Hsh. vm_compute in Hsh. injection Hsh as <-.
    eexists. split; [vm_compute; reflexivity|]. split; constructor. }
  split; [reflexivity|]. split; [reflexivity|]. split; [reflexivity|].
  split; [reflexivity|]. split; [exact H5|]. split; [exact H6|]. split; [exact H7|].
  exact (zero_byte_completion_disconnects zeroed zeroed_addr (late_recv 0) Locals_new
           tcp_connected 7 (RecvIo 1) _ eq_refl eq_refl eq_refl eq_refl H5 H6 H7).
Defined.

(** C1, on the code. In the example run the user closed socket 7 and
    connected again, which reuses the socket context; then a receive of
    socket 7 that had completed before the close is dequeued. The lookup of 7
    gives the null handle, and yet: with 5 bytes the TCP worker writes through
    the null handle; with 0 bytes it calls the disconnect callback for 7; the
    UDP worker, in the same run of a UDP node, writes through the null handle
    with 5 bytes and with 0 bytes. *)
Theorem late_completion_is_dispatched :
  fst (GetActiveContext 7 tcp_reconnected) = Returns None /\
  fst (TCP._Run_iteration zeroed zeroed_addr (late_recv 5) Locals_new tcp_reconnected)
    = Undefined NullDereference /\
  fst (TCP._Run_iteration zeroed zeroed_addr (late_recv 0) Locals_new tcp_reconnected)
    = Returns (Continue, mkLocals 0 7 (Some (RecvIo 1)) (Some (RecvIo 1))) /\
  trace (snd (TCP._Run_iteration zeroed zeroed_addr (late_recv 0) Locals_new tcp_reconnected))
    = trace tcp_reconnected ++ [DisconnectedCallback 7] /\
  fst (GetActiveContext 7 udp_recreated) = Returns None /\
  fst (UDP._Run_iteration (late_recv 5) Locals_new udp_recreated) = Undefined NullDereference /\
  fst (UDP._Run_iteration (late_recv 0) Locals_new udp_recreated) = Undefined NullDereference.
Proof.
  split; [vm_compute; reflexivity|]. split; [vm_compute; reflexivity|].
  split; [vm_compute; reflexivity|]. split; [vm_compute; reflexivity|].
  split; [vm_compute; reflexivity|]. split; vm_compute; reflexivity.
Qed.

Section Copy.

(** The copy of [Send] and [SendTo] into a context whose buffer has the
    declared 4096 bytes: up to 4096 bytes are stored at the front of the
    buffer; more than 4096 bytes are copied all the same, past its end. *)
Lemma memcpy_to_buf__outcome (p : io_ptr) (c : IOCP_IoContext) (data : list Z)
    (data_len : Z) (w : World) :
  read_io p w = (Returns c, w) ->
  size_of (buf_ c) = MAX_IO_BUFFER_SIZE ->
  size_of data = data_len -> data_len < 2 ^ 64 ->
  (data_len <= MAX_IO_BUFFER_SIZE ->
   memcpy_to_buf_ p data data_len w
     = write_io p (set_buf_ (data ++ drop (Z.to_nat data_len) (buf_ c)) c) w) /\
  (MAX_IO_BUFFER_SIZE < data_len ->
   memcpy_to_buf_ p data data_len w
     = (Undefined (BufferOverrun data_len MAX_IO_BUFFER_SIZE), w)).
Proof.
  intros Hio Hbuf Hlen Hsmall.
  pose proof (MemFacts.size_of_nonneg data) as Hnn.
  assert (Hu : uint64_t data_len = data_len) by (apply Z.mod_small; lia).
  unfold memcpy_to_buf_. rewrite Hu. subst data_len.
  rewrite MemFacts.block_read_all. unfold bind. rewrite Hio.
  split; intros H.
  - rewrite MemFacts.block_write_Some by lia. reflexivity.
  - rewrite MemFacts.block_write_None by lia. rewrite Hbuf. reflexivity.
Qed.

End Copy.

(** C2, on the code: each of the four sending entry points, given 4097
    bytes for an active socket, neither fails nor truncates; the copy into the
    4096-byte buffer of the context taken from the pool is made with all 4097
    bytes. *)
Theorem Send_oversized_overruns :
  size_of oversized = 4097 /\
  fst (IOCP_TCPClient_Send zeroed true (calm 0) 7 oversized 4097 tcp_connected)
    = Undefined (BufferOverrun 4097 MAX_IO_BUFFER_SIZE) /\
  fst (IOCP_TCPServer_Send zeroed true (calm 0) 100 oversized 4097 server_accepted)
    = Undefined (BufferOverrun 4097 MAX_IO_BUFFER_SIZE) /\
  fst (IOCP_UDPNode_SendTo zeroed true (calm 0) 7 oversized 4097 0x0100007f 17012 udp_created)
    = Undefined (BufferOverrun 4097 MAX_IO_BUFFER_SIZE) /\
  fst (IOCP_UDPNode_SendTo_addr zeroed true (calm 0) 7 oversized 4097 SOCKADDR_IN_zero udp_created)
    = Undefined (BufferOverrun 4097 MAX_IO_BUFFER_SIZE).
Proof.
  split; [vm_compute; reflexivity|]. split; [vm_compute; reflexivity|].
  split; [vm_compute; reflexivity|]. split; vm_compute; reflexivity.
Qed.

End WorkerFacts.

(** ** Byte swaps and byte sequences *)

Module ByteLayout.

Import ByteOrderFacts MemFacts.

Lemma le_bytes_lookup n v k : (k < n)%nat ->
  le_bytes n v !! k = Some ((v / 2 ^ (8 * Z.of_nat k)) mod 256).
Proof.
  revert v k. induction n as [|n IH]; intros v k Hk; [lia|].
  destruct k as [|k]; cbn [le_bytes].
  - simpl. rewrite Z.div_1_r. reflexivity.
  - cbn [lookup list_lookup]. rewrite IH by lia. f_equal. f_equal.
    rewrite Z.div_div by (try apply Z.pow_pos_nonneg; lia).
    f_equal. replace (8 * Z.of_nat (S k)) with (8 + 8 * Z.of_nat k) by lia.
    rewrite Z.pow_add_r by lia. reflexivity.
Qed.

(** A byte of a number is fixed by eight of its bits. *)
Lemma byte_of_bits a b k : 0 <= k ->
  (forall j, 0 <= j < 8 -> Z.testbit a (j + 8 * k) = Z.testbit b j) ->
  0 <= b < 256 ->
  (a / 2 ^ (8 * k)) mod 256 = b.
Proof.
  intros Hk Hbits Hb. apply Z.bits_inj'. intros j Hj.
  change 256 with (2 ^ 8). rewrite Z.testbit_mod_pow2 by lia.
  destruct (Z.ltb_spec j 8); simpl.
  - rewrite Z.div_pow2_bits by lia. apply Hbits. lia.
  - symmetry. apply (testbit_high b 8); lia.
Qed.

Lemma rev_lookup {A} (l : list A) k : (k < length l)%nat ->
  rev l !! k = l !! (length l - S k)%nat.
Proof. intros H. rewrite rev_alt. apply (reverse_lookup l k H). Qed.

(** The low [n] bytes of a number depend on its low [8 * n] bits only. *)
Lemma le_bytes_mod n v : le_bytes n (v mod 2 ^ (8 * Z.of_nat n)) = le_bytes n v.
Proof.
  apply list_eq. intros k.
  destruct (decide (k < n)%nat) as [Hk|Hk].
  - rewrite !le_bytes_lookup by lia. f_equal.
    apply byte_of_bits; [lia| |apply Z.mod_pos_bound; lia].
    intros j Hj. rewrite Z.testbit_mod_pow2 by lia.
    destruct (Z.ltb_spec (j + 8 * Z.of_nat k) (8 * Z.of_nat n)); [|lia]. simpl.
    change 256 with (2 ^ 8). rewrite Z.testbit_mod_pow2 by lia.
    destruct (Z.ltb_spec j 8); [|lia]. simpl.
    rewrite Z.div_pow2_bits by lia. reflexivity.
  - rewrite !lookup_ge_None_2; [reflexivity| |]; rewrite le_bytes_length; lia.
Qed.

Lemma le_bytes_congr n a b :
  a mod 2 ^ (8 * Z.of_nat n) = b mod 2 ^ (8 * Z.of_nat n) -> le_bytes n a = le_bytes n b.
Proof. intros E. rewrite <- (le_bytes_mod n a), E. apply le_bytes_mod. Qed.

(** A function that mirrors the bits bytewise reverses the byte sequence. *)
Section SwapBytes.

Variable n : nat.
Variable f : Z -> Z.
Hypothesis f_bit : forall d i, 0 <= i ->
  Z.testbit (f d) i =
    (i <? 8 * Z.of_nat n) && Z.testbit d (i + 8 * (Z.of_nat n - 1) - 16 * (i / 8)).

Lemma swap_bytes d : le_bytes n (f d) = rev (le_bytes n d).
Proof.
  apply list_eq. intros k.
  destruct (decide (k < n)%nat) as [Hk|Hk].
  - rewrite rev_lookup by (rewrite le_bytes_length; exact Hk).
    rewrite le_bytes_length, !le_bytes_lookup by lia. f_equal.
    apply byte_of_bits; [lia| |apply Z.mod_pos_bound; lia].
    intros j Hj. rewrite f_bit by lia.
    rewrite (div8_eq (j + 8 * Z.of_nat k) (Z.of_nat k)) by lia.
    destruct (Z.ltb_spec (j + 8 * Z.of_nat k) (8 * Z.of_nat n)); [|lia]. simpl.
    change 256 with (2 ^ 8). rewrite Z.testbit_mod_pow2 by lia.
    destruct (Z.ltb_spec j 8); [|lia]. simpl.
    rewrite Z.div_pow2_bits by lia. f_equal. lia.
  - rewrite !lookup_ge_None_2; [reflexivity| |].
    + rewrite length_rev, le_bytes_length. lia.
    + rewrite le_bytes_length. lia.
Qed.

End SwapBytes.

Lemma ReverseShort_bytes d : le_bytes 2 (ReverseShort d) = rev (le_bytes 2 d).
Proof. apply (swap_bytes 2 ReverseShort). intros; apply ReverseShort_bit; assumption. Qed.

Lemma ReverseInt_bytes d : le_bytes 4 (ReverseInt d) = rev (le_bytes 4 d).
Proof. apply (swap_bytes 4 ReverseInt). intros; apply ReverseInt_bit; assumption. Qed.

Lemma ReverseLog_bytes d : le_bytes 8 (ReverseLog d) = rev (le_bytes 8 d).
Proof. apply (swap_bytes 8 ReverseLog). intros; apply ReverseLog_bit; assumption. Qed.

(** X1. [ReverseShort], [ReverseInt] and [ReverseLog] reverse the order of
    the bytes of their argument: the two, four and eight low bytes of the
    result, least significant first, are those of the argument, most
    significant first. *)
Theorem Reverse_reverses_bytes (d : Z) :
  le_bytes 2 (ReverseShort d) = rev (le_bytes 2 d) /\
  le_bytes 4 (ReverseInt d) = rev (le_bytes 4 d) /\
  le_bytes 8 (ReverseLog d) = rev (le_bytes 8 d).
Proof.
  split; [apply ReverseShort_bytes|].
  split; [apply ReverseInt_bytes | apply ReverseLog_bytes].
Qed.

(** X2. On either platform the 16-bit and the 32-bit conversions between
    host and network order undo each other, in both directions, and map
    values of the type to values of the type. *)
Theorem Ntoh_Hton_inverse (os : OS) (d : Z) :
  (0 <= d < 2 ^ 16 ->
   NtohUint16 os (HtonUint16 os d) = d /\ HtonUint16 os (NtohUint16 os d) = d /\
   0 <= HtonUint16 os d < 2 ^ 16 /\ 0 <= NtohUint16 os d < 2 ^ 16) /\
  (0 <= d < 2 ^ 32 ->
   NtohUint32 os (HtonUint32 os d) = d /\ HtonUint32 os (NtohUint32 os d) = d /\
   0 <= HtonUint32 os d < 2 ^ 32 /\ 0 <= NtohUint32 os d < 2 ^ 32).
Proof.
  split; intros Hd.
  - unfold NtohUint16, HtonUint16. destruct (HOST_IS_LITTLE_ENDIAN os).
    + pose proof (ReverseShort_involutive d Hd). pose proof (ReverseShort_range d).
      repeat split; try assumption; lia.
    + repeat split; try reflexivity; lia.
  - unfold NtohUint32, HtonUint32. destruct (HOST_IS_LITTLE_ENDIAN os).
    + pose proof (ReverseInt_involutive d Hd). pose proof (ReverseInt_range d).
      repeat split; try assumption; lia.
    + repeat split; try reflexivity; lia.
Qed.

(** X2, at instances: the port 8080 on the Windows branch and a 32-bit
    address on the Linux branch. *)
Lemma Ntoh_Hton_inverse_witness :
  0 <= 8080 < 2 ^ 16 /\ 0 <= 0x0100007f < 2 ^ 32 /\
  NtohUint16 OS_WIN (HtonUint16 OS_WIN 8080) = 8080 /\
  HtonUint16 OS_WIN 8080 = 0x901f /\
  NtohUint32 OS_LINUX (HtonUint32 OS_LINUX 0x0100007f) = 0x0100007f.
Proof.
  assert (H1 : 0 <= 8080 < 2 ^ 16) by lia.
  assert (H2 : 0 <= 0x0100007f < 2 ^ 32) by lia.
  split; [exact H1|]. split; [exact H2|]. split; [|split].
  - exact (proj1 (proj1 (Ntoh_Hton_inverse OS_WIN 8080) H1)).
  - reflexivity.
  - exact (proj1 (proj2 (Ntoh_Hton_inverse OS_LINUX 0x0100007f) H2)).
Defined.

End ByteLayout.

(** ** Byte stream: queue behaviour, strings, copies, wire format *)

Module StreamFacts.

Import BS MemFacts ByteOrderFacts BSFacts ByteLayout.

Section Platform.

Variable os : OS.
Variable little_endian_memory : bool.
Variable uninit : nat -> Z.

Lemma wf_unread_length s : wf s ->
  size_of (unread s) = write_idx_ s - read_idx_ s.
Proof.
  intros Hwf. unfold size_of, unread.
  rewrite length_drop, (wf_written_length s Hwf).
  destruct Hwf as (Hr & _). lia.
Qed.

(** Bytes appended behind the write cursor are appended to the unread
    bytes. *)
Lemma unread_app s s' extra : wf s ->
  written s' = written s ++ extra -> read_idx_ s' = read_idx_ s ->
  unread s' = unread s ++ extra.
Proof.
  intros Hwf Hw Hr. unfold unread. rewrite Hw, Hr.
  apply drop_app_le. rewrite (wf_written_length s Hwf).
  destruct Hwf as (H & _). lia.
Qed.

(** [Add] reads only the first [size] bytes of the block it is given. *)
Lemma Add_prefix (block : list Z) (size : Z) (s : ByteStream) :
  0 <= size <= size_of block ->
  Add uninit (Some block) size s = Add uninit (Some (take (Z.to_nat size) block)) size s.
Proof.
  intros Hsz. unfold Add.
  destruct (size =? 0); [reflexivity|].
  unfold bind, get.
  destruct (_Reserve uninit (uint32_t (write_idx_ s + size)) s) as [[[]| | |] s1];
    try reflexivity.
  rewrite (block_read_Some block 0 size) by lia.
  rewrite (block_read_Some (take (Z.to_nat size) block) 0 size).
  - change (drop (Z.to_nat 0) ?l) with l. rewrite take_take, Nat.min_id. reflexivity.
  - lia.
  - lia.
  - unfold size_of in *. rewrite length_take. lia.
Qed.

(** X3. The stream is a queue of bytes: on a well-formed stream, after two
    non-empty blocks are added (the 32-bit write cursor not wrapping), one
    [Get] of all unread bytes returns the bytes that were unread before,
    then the first block, then the second, and leaves the stream at its
    end. *)
Theorem Add_Add_Get_fifo (a b : list Z) (s : ByteStream) :
  wf s -> a <> [] -> b <> [] ->
  write_idx_ s + size_of a + size_of b < 2 ^ 32 ->
  exists s',
    (let* _ := Add uninit (Some a) (size_of a) in
     let* _ := Add uninit (Some b) (size_of b) in
     Get (size_of (unread s) + size_of a + size_of b)) s
      = (Returns (unread s ++ a ++ b), s') /\
    Eof s' = true /\ wf s'.
Proof.
  intros Hwf Ha Hb Hfit.
  assert (Hla : 0 < size_of a) by (unfold size_of; destruct a; [congruence|simpl; lia]).
  assert (Hlb : 0 < size_of b) by (unfold size_of; destruct b; [congruence|simpl; lia]).
  destruct (Add_returns uninit a (size_of a) s Hwf eq_refl Hla ltac:(lia))
    as (s1 & E1 & Hwf1 & _ & Hwr1 & Hr1 & Hw1 & _).
  destruct (Add_returns uninit b (size_of b) s1 Hwf1 eq_refl Hlb ltac:(lia))
    as (s2 & E2 & Hwf2 & _ & Hwr2 & Hr2 & Hw2 & _).
  pose proof (wf_unread_length s Hwf) as Hlen.
  assert (Hun : unread s2 = unread s ++ a ++ b).
  { rewrite (unread_app s1 s2 b Hwf1 Hwr2 Hr2), (unread_app s s1 a Hwf Hwr1 Hr1).
    rewrite <- app_assoc. reflexivity. }
  assert (Hr : 0 <= read_idx_ s <= write_idx_ s) by (destruct Hwf as (H & _); lia).
  pose proof (Get_returns (size_of (unread s) + size_of a + size_of b) s2 Hwf2
                ltac:(lia) ltac:(lia)) as EG.
  eexists. unfold bind. rewrite E1, E2, EG. split; [|split].
  - f_equal. f_equal. rewrite Hun. apply take_ge.
    unfold size_of. rewrite !length_app. lia.
  - unfold Eof, GetReadPtr, GetWritePtr. simpl. apply Z.eqb_eq. lia.
  - destruct Hwf2 as (A & B & C & D). split; [simpl; lia|].
    split; [exact B|]. split; [exact C|exact D].
Qed.

(** X4. The bounds check of [Get] on a well-formed stream, for a 32-bit
    count [n]. Without a block every [Get] throws the access violation
    exception. With a block: when the [n] bytes lie before the write cursor
    they are returned and the read cursor moves by [n]; when they reach past
    the write cursor and [read cursor + n] fits in 32 bits, [Get] and every
    typed read of that size throw the access violation exception and leave
    the stream as it was; when [read cursor + n] does not fit in 32 bits the
    sum wraps, the check passes and the copy reads outside the block. *)
Theorem Get_bounds_check (n : Z) (s : ByteStream) :
  wf s -> 0 <= n < 2 ^ 32 ->
  (data_ s = None ->
   Get n s = (Throws (access_violation_exception "byte stream overflow"), s)) /\
  (data_ s <> None -> read_idx_ s + n <= write_idx_ s ->
   Get n s = (Returns (take (Z.to_nat n) (unread s)), set_read_idx_ (read_idx_ s + n) s)) /\
  (write_idx_ s < read_idx_ s + n -> read_idx_ s + n < 2 ^ 32 ->
   Get n s = (Throws (access_violation_exception "byte stream overflow"), s) /\
   forall t, sizeof t = n ->
     op_rshift os little_endian_memory t s
       = (Throws (access_violation_exception "byte stream overflow"), s)) /\
  (data_ s <> None -> 2 ^ 32 <= read_idx_ s + n ->
   Get n s = (Undefined OutOfBoundsRead, s)).
Proof.
  intros (Hr & Hw & Hs & Hd) Hn.
  split; [|split; [|split]].
  - intros Hnull. unfold Get, bind, get. rewrite Hnull. reflexivity.
  - intros Hdata Hfit. unfold Get, bind, get, unread, written.
    destruct (data_ s) as [buf|]; [|congruence].
    unfold uint32_t. rewrite Z.mod_small by lia.
    destruct (Z.gtb_spec (n + read_idx_ s) (write_idx_ s)); [lia|].
    rewrite block_read_Some by lia.
    rewrite Z.mod_small by lia.
    unfold ret, put. do 2 f_equal.
    rewrite skipn_firstn_comm, firstn_firstn. f_equal. lia.
  - intros Hshort Hfit.
    assert (EG : Get n s = (Throws (access_violation_exception "byte stream overflow"), s)).
    { unfold Get, bind, get. destruct (data_ s) as [buf|]; [|reflexivity].
      unfold uint32_t. rewrite Z.mod_small by lia.
      destruct (Z.gtb_spec (n + read_idx_ s) (write_idx_ s)); [reflexivity|lia]. }
    split; [exact EG|].
    intros t Ht. subst n.
    destruct t; unfold op_rshift, bind; cbn [sizeof] in *; rewrite EG; reflexivity.
  - intros Hdata Hwrap. unfold Get, bind, get.
    destruct (data_ s) as [buf|]; [|congruence].
    assert (E : uint32_t (n + read_idx_ s) = n + read_idx_ s - 2 ^ 32).
    { unfold uint32_t. symmetry. apply (Z.mod_unique_pos _ _ 1); lia. }
    rewrite E.
    destruct (Z.gtb_spec (n + read_idx_ s - 2 ^ 32) (write_idx_ s)); [lia|].
    unfold block_read.
    destruct (Z.leb_spec (read_idx_ s + n) (size_of buf)); [lia|].
    rewrite andb_false_r. reflexivity.
Qed.

(** The loop of [GetString] on a stream whose unread bytes hold a zero
    byte: it consumes the bytes up to and including the first zero byte. *)
Lemma GetString_loop_zero (pre : list Z) :
  forall (fuel : nat) (post : list Z) (s bs : ByteStream),
    wf s -> wf bs -> unread s = pre ++ 0 :: post ->
    Forall (fun c => 0 < c < 256) pre ->
    write_idx_ bs + Z.of_nat (length pre) + 1 < 2 ^ 32 ->
    (length pre < fuel)%nat ->
    exists bs',
      GetString_loop os little_endian_memory uninit fuel bs s
        = (Returns bs', set_read_idx_ (read_idx_ s + Z.of_nat (length pre) + 1) s) /\
      data_ bs' <> None /\
      written bs' = written bs ++ pre ++ [0].
Proof.
  induction pre as [|c pre IH]; intros fuel post s bs Hwf Hwfb Hun Hall Hfit Hfuel;
    (destruct fuel as [|fuel]; [simpl in Hfuel; lia|]).
  - pose proof (wf_unread_length s Hwf) as L. rewrite Hun in L.
    unfold size_of in L. simpl length in L.
    pose proof (GetUint8_returns os little_endian_memory 0 post s Hwf Hun ltac:(lia)) as EG.
    destruct (PutUint8_returns os little_endian_memory uninit 0 bs Hwfb ltac:(lia)
                ltac:(simpl in Hfit; lia)) as (bs' & EP & _ & Hd & Hwr & _).
    exists bs'. split; [|split; [exact Hd | exact Hwr]].
    cbn [GetString_loop]. unfold bind at 1, get. unfold Eof, GetReadPtr, GetWritePtr.
    destruct (Z.eqb_spec (read_idx_ s) (write_idx_ s)); [lia|].
    unfold bind at 1. rewrite EG, EP. simpl. do 2 f_equal. lia.
  - inversion Hall as [|? ? Hc Hrest]; subst.
    pose proof (wf_unread_length s Hwf) as L. rewrite Hun in L.
    unfold size_of in L. simpl length in L.
    pose proof (GetUint8_returns os little_endian_memory c (pre ++ 0 :: post) s Hwf Hun
                  ltac:(lia)) as EG.
    simpl length in Hfit.
    destruct (PutUint8_returns os little_endian_memory uninit c bs Hwfb ltac:(lia) ltac:(lia))
      as (bs1 & EP & Hwfb1 & Hd1 & Hwr1 & Hw1).
    set (s1 := set_read_idx_ (read_idx_ s + 1) s) in *.
    assert (Hwf1 : wf s1).
    { destruct Hwf as (Hr & Hw & Hs & Hd). split; [simpl; lia|].
      split; [exact Hw|]. split; [exact Hs|exact Hd]. }
    assert (Hun1 : unread s1 = pre ++ 0 :: post).
    { unfold unread in *. change (written s1) with (written s).
      change (read_idx_ s1) with (read_idx_ s + 1).
      replace (Z.to_nat (read_idx_ s + 1)) with (Z.to_nat (read_idx_ s) + 1)%nat
        by (destruct Hwf as (Hr & _); lia).
      rewrite <- drop_drop, Hun. reflexivity. }
    destruct (IH fuel post s1 bs1 Hwf1 Hwfb1 Hun1 Hrest ltac:(lia) ltac:(simpl in Hfuel; lia))
      as (bs' & EL & Hd' & Hwr').
    exists bs'. split; [|split; [exact Hd'|]].
    + cbn [GetString_loop]. unfold bind at 1, get. unfold Eof, GetReadPtr, GetWritePtr.
      destruct (Z.eqb_spec (read_idx_ s) (write_idx_ s)); [lia|].
      unfold bind at 1. rewrite EG. fold s1. rewrite EP.
      destruct (Z.eqb_spec c 0); [lia|]. rewrite EL.
      f_equal. unfold s1, set_read_idx_. simpl. f_equal. lia.
    + rewrite Hwr', Hwr1, <- app_assoc. reflexivity.
Qed.

(** [GetString] on such a stream returns the bytes before the first zero
    byte and leaves the read cursor behind that zero byte. *)
Lemma GetString_zero_returns (fuel : nat) (pre post : list Z) (s : ByteStream) :
  wf s -> unread s = pre ++ 0 :: post ->
  Forall (fun c => 0 < c < 256) pre ->
  (length pre < fuel)%nat ->
  GetString os little_endian_memory uninit fuel s
    = (Returns pre, set_read_idx_ (read_idx_ s + Z.of_nat (length pre) + 1) s).
Proof.
  intros Hwf Hun Hall Hfuel.
  set (bs0 := ByteStream_new os uninit 0).
  assert (Hwf0 : wf bs0) by (unfold wf; simpl; lia).
  pose proof (wf_unread_length s Hwf) as L. rewrite Hun in L.
  unfold size_of in L. rewrite length_app in L. simpl length in L.
  assert (Hsz : write_idx_ s < 2 ^ 32) by (destruct Hwf as (A & B & C & D); lia).
  assert (Hr : 0 <= read_idx_ s) by (destruct Hwf as (A & _); lia).
  destruct (GetString_loop_zero pre fuel post s bs0 Hwf Hwf0 Hun Hall
              ltac:(simpl; lia) Hfuel) as (bs' & EL & Hd & Hwr).
  unfold GetString, bind. fold bs0. rewrite EL.
  unfold GetBuffer, string_of_buffer.
  unfold written in Hwr. simpl in Hwr.
  destruct (data_ bs') as [buf|]; [|congruence].
  rewrite (c_str_prefix buf pre _ Hwr Hall). reflexivity.
Qed.

(** X5. Zero-terminated strings are read one by one: on a well-formed
    stream whose unread bytes are a string without zero byte, a zero byte, a
    second such string, a zero byte and any rest, two calls of [GetString]
    with fuel for each string return the first and the second string, and
    leave the read cursor behind the second zero byte. *)
Theorem GetString_reads_consecutive_strings (fuel : nat) (a b rest : list Z)
    (s : ByteStream) :
  wf s -> unread s = a ++ 0 :: b ++ 0 :: rest ->
  Forall (fun c => 0 < c < 256) a -> Forall (fun c => 0 < c < 256) b ->
  (length a < fuel)%nat -> (length b < fuel)%nat ->
  (let* x := GetString os little_endian_memory uninit fuel in
   let* y := GetString os little_endian_memory uninit fuel in
   ret (x, y)) s
    = (Returns (a, b),
       set_read_idx_ (read_idx_ s + Z.of_nat (length a) + Z.of_nat (length b) + 2) s).
Proof.
  intros Hwf Hun Ha Hb Hfa Hfb.
  pose proof (GetString_zero_returns fuel a (b ++ 0 :: rest) s Hwf Hun Ha Hfa) as E1.
  set (s1 := set_read_idx_ (read_idx_ s + Z.of_nat (length a) + 1) s) in *.
  pose proof (wf_unread_length s Hwf) as L. rewrite Hun in L.
  unfold size_of in L. rewrite !length_app in L. simpl length in L.
  rewrite length_app in L. simpl length in L.
  assert (Hwf1 : wf s1).
  { destruct Hwf as (Hr & Hw & Hs & Hd). split; [simpl; lia|].
    split; [exact Hw|]. split; [exact Hs|exact Hd]. }
  assert (Hun1 : unread s1 = b ++ 0 :: rest).
  { unfold unread in *. change (written s1) with (written s).
    change (read_idx_ s1) with (read_idx_ s + Z.of_nat (length a) + 1).
    replace (Z.to_nat (read_idx_ s + Z.of_nat (length a) + 1))
      with (Z.to_nat (read_idx_ s) + (length a + 1))%nat
      by (destruct Hwf as (Hr & _); lia).
    rewrite <- drop_drop, Hun.
    replace (a ++ 0 :: b ++ 0 :: rest) with ((a ++ [0]) ++ b ++ 0 :: rest)
      by (rewrite <- app_assoc; reflexivity).
    apply drop_app_length'. rewrite length_app. reflexivity. }
  pose proof (GetString_zero_returns fuel b rest s1 Hwf1 Hun1 Hb Hfb) as E2.
  unfold bind. rewrite E1. fold s1. rewrite E2. unfold ret. f_equal.
  unfold s1, set_read_idx_. simpl. f_equal. lia.
Qed.

Lemma c_str_split (block pre : list Z) :
  c_str block = Some pre ->
  exists rest, block = pre ++ 0 :: rest /\ Forall (fun c => c <> 0) pre.
Proof.
  revert pre. induction block as [|c block IH]; intros pre; simpl; [discriminate|].
  destruct (Z.eqb_spec c 0) as [->|Hc].
  - intros [= <-]. exists block. split; [reflexivity|constructor].
  - destruct (c_str block) as [p|]; [|discriminate].
    intros [= <-]. destruct (IH p eq_refl) as (rest & -> & Hp).
    exists rest. split; [reflexivity|]. constructor; assumption.
Qed.

Lemma c_str_no_zero (str : list Z) :
  Forall (fun c => c <> 0) str -> c_str (string_c_str str) = Some str.
Proof.
  unfold string_c_str. induction 1 as [|c str Hc _ IH]; simpl; [reflexivity|].
  destruct (Z.eqb_spec c 0); [contradiction|]. rewrite IH. reflexivity.
Qed.

(** X6. [PutString] then [GetString]: on a well-formed stream, a string of
    bytes is written up to its first zero byte, if it has one, followed by
    one zero byte; reading from where it was written returns that part of the
    string, all of it when it holds no zero byte, and leaves the stream at
    its end. *)
Theorem PutString_GetString_round_trip (fuel : nat) (str pre : list Z) (s : ByteStream) :
  wf s -> Forall (fun c => 0 <= c < 256) str ->
  c_str (string_c_str str) = Some pre ->
  write_idx_ s + size_of pre + 1 < 2 ^ 32 -> (length pre < fuel)%nat ->
  exists s',
    (let* pos := gets GetWritePtr in
     let* _ := PutString uninit str in
     let* _ := SetReadPtr pos in
     GetString os little_endian_memory uninit fuel) s = (Returns pre, s') /\
    written s' = written s ++ pre ++ [0] /\ Eof s' = true /\
    (Forall (fun c => c <> 0) str -> pre = str).
Proof.
  intros Hwf Hbytes Hc Hfit Hfuel.
  destruct (c_str_split _ _ Hc) as (rest & Hblock & Hnz).
  assert (Hpre : Forall (fun c => 0 < c < 256) pre).
  { assert (Hall : Forall (fun c => 0 <= c < 256) (string_c_str str)).
    { unfold string_c_str. apply Forall_app. split; [exact Hbytes|].
      constructor; [lia|constructor]. }
    rewrite Hblock in Hall. apply Forall_app in Hall as [Hall _].
    rewrite Forall_forall in Hall, Hnz |- *. intros c Hin.
    specialize (Hall c Hin). specialize (Hnz c Hin). lia. }
  assert (Hw0 : 0 <= write_idx_ s) by (destruct Hwf as (A & _); lia).
  pose proof (size_of_nonneg pre) as Hp0.
  assert (Htake : take (Z.to_nat (size_of pre + 1)) (string_c_str str) = pre ++ [0]).
  { rewrite Hblock. unfold size_of.
    replace (Z.to_nat (Z.of_nat (length pre) + 1)) with (length pre + 1)%nat by lia.
    rewrite take_app_add'; [|reflexivity]. reflexivity. }
  assert (Hlen : size_of (pre ++ [0]) = size_of pre + 1).
  { unfold size_of. rewrite length_app. simpl. lia. }
  destruct (Add_returns uninit (pre ++ [0]) (size_of pre + 1) s Hwf Hlen ltac:(lia) ltac:(lia))
    as (s1 & E1 & Hwf1 & _ & Hwr1 & Hr1 & Hw1 & _).
  assert (EP : PutString uninit str s = (Returns tt, s1)).
  { unfold PutString, op_lshift_string, op_lshift_cstr, strlen. rewrite Hc.
    cbn [option_map]. unfold uint32_t. rewrite Z.mod_small by lia.
    rewrite Add_prefix, Htake; [exact E1|].
    rewrite Hblock. unfold size_of. rewrite length_app. simpl. lia. }
  set (s2 := set_read_idx_ (write_idx_ s) s1).
  assert (Hwf2 : wf s2).
  { destruct Hwf1 as (A & B & C & D). split; [simpl; lia|].
    split; [exact B|]. split; [exact C|exact D]. }
  assert (Hun2 : unread s2 = pre ++ 0 :: []).
  { unfold unread. change (written s2) with (written s1). simpl read_idx_.
    rewrite Hwr1. rewrite drop_app_length'; [reflexivity|].
    rewrite (wf_written_length s Hwf). reflexivity. }
  pose proof (GetString_zero_returns fuel pre [] s2 Hwf2 Hun2 Hpre Hfuel) as EG.
  eexists. split; [|split; [|split]].
  - unfold bind, gets, GetWritePtr. rewrite EP.
    unfold SetReadPtr, bind, get, put.
    destruct (Z.gtb_spec (write_idx_ s) (write_idx_ s1)); [lia|].
    fold s2. exact EG.
  - unfold written at 1. simpl. exact Hwr1.
  - unfold Eof, GetReadPtr, GetWritePtr. simpl. apply Z.eqb_eq.
    unfold size_of in Hw1. lia.
  - intros Hz. pose proof (c_str_no_zero str Hz) as E. congruence.
Qed.

(** X7. Copying a well-formed stream: when its capacity is not zero the copy
    owns a block of that capacity and has the same written and unread bytes,
    cursors and byte order; a stream of capacity zero is copied to the
    default stream, whatever its byte order was. Assigning a stream to itself
    empties it. *)
Theorem copy_and_assign (c : ByteStream) :
  wf c ->
  (0 < stream_size_ c ->
   exists b,
     ByteStream_copy os uninit c = (Returns tt, b) /\ wf b /\
     written b = written c /\ unread b = unread c /\
     read_idx_ b = read_idx_ c /\ write_idx_ b = write_idx_ c /\
     stream_size_ b = stream_size_ c /\ byte_order_ b = byte_order_ c /\
     mallocated_ b = true) /\
  (stream_size_ c = 0 ->
   ByteStream_copy os uninit c = (Returns tt, ByteStream_new os uninit 0)) /\
  op_assign uninit None c = (Returns tt, mkByteStream None 0 0 0 false (byte_order_ c)).
Proof.
  intros (Hr & Hw & Hs & Hd). split; [|split].
  - intros Hpos. unfold ByteStream_copy, op_assign, _Free, bind, modify, get.
    cbn [default from_option id].
    destruct (Z.ltb_spec 0 (stream_size_ c)); [|lia].
    destruct (data_ c) as [old|] eqn:Hdata; [|lia].
    rewrite block_read_Some by lia.
    change (drop (Z.to_nat 0) old) with old.
    assert (Hlen : size_of (take (Z.to_nat (write_idx_ c)) old) = write_idx_ c).
    { unfold size_of in *. rewrite length_take. lia. }
    destruct (block_write (new_array uninit (stream_size_ c)) 0
                (take (Z.to_nat (write_idx_ c)) old)) as [copied|] eqn:Hbw.
    2:{ rewrite block_write_Some in Hbw by (rewrite ?new_array_size; lia). discriminate. }
    pose proof (block_write_size _ _ _ _ Hbw) as Hsz.
    pose proof (block_write_prefix _ 0 _ _ ltac:(lia) Hbw) as Hpre.
    rewrite new_array_size in Hsz by lia.
    rewrite Hlen in Hpre. simpl in Hpre.
    assert (Hwr : take (Z.to_nat (write_idx_ c)) copied = written c).
    { unfold written. rewrite Hdata. exact Hpre. }
    eexists. split; [reflexivity|].
    split; [split; [simpl; lia|]; split; [simpl; lia|]; split; [exact Hs|exact Hsz]|].
    split; [exact Hwr|].
    split; [unfold unread, written at 1; simpl; rewrite Hwr; reflexivity|].
    split; [reflexivity|]. split; [reflexivity|]. split; [reflexivity|].
    split; reflexivity.
  - intros Hz. unfold ByteStream_copy, op_assign, _Free, bind, modify, get, ret.
    cbn [default from_option id]. rewrite Hz. reflexivity.
  - unfold op_assign, _Free, bind, modify, get, ret. reflexivity.
Qed.

(** X8. [FlushReadPtr] on a well-formed stream with a block, at least half
    of whose capacity lies before the read cursor (the two ranges handed to
    [memcpy] are then apart): the unread bytes are kept and now start at
    position 0, the write cursor moves down by the old read cursor, the
    capacity is unchanged and the stream is well-formed. *)
Theorem FlushReadPtr_keeps_unread (s : ByteStream) :
  wf s -> data_ s <> None -> stream_size_ s - read_idx_ s <= read_idx_ s ->
  exists s',
    FlushReadPtr s = Flushed (Returns tt, s') /\
    unread s' = unread s /\ read_idx_ s' = 0 /\
    write_idx_ s' = write_idx_ s - read_idx_ s /\
    stream_size_ s' = stream_size_ s /\ wf s'.
Proof.
  intros (Hr & Hw & Hs & Hd) Hdata Hhalf.
  unfold FlushReadPtr, GetBuffer, GetBufferSize, GetReadPtr, GetWritePtr.
  destruct (data_ s) as [buf|] eqn:Hbuf; [|congruence].
  assert (En : uint32_t (stream_size_ s - read_idx_ s) = stream_size_ s - read_idx_ s).
  { unfold uint32_t. apply Z.mod_small. lia. }
  assert (Ew : uint32_t (write_idx_ s - read_idx_ s) = write_idx_ s - read_idx_ s).
  { unfold uint32_t. apply Z.mod_small. lia. }
  rewrite En, Ew.
  set (n := stream_size_ s - read_idx_ s) in *.
  assert (Hov : (0 <? n) && (read_idx_ s <? n) = false).
  { destruct (Z.ltb_spec (read_idx_ s) n); [lia|]. apply andb_false_r. }
  rewrite Hov.
  rewrite block_read_Some by lia.
  assert (Esrc : take (Z.to_nat n) (drop (Z.to_nat (read_idx_ s)) buf)
                 = drop (Z.to_nat (read_idx_ s)) buf).
  { apply take_ge. rewrite length_drop. unfold size_of in Hd. lia. }
  rewrite Esrc.
  assert (Hlen : size_of (drop (Z.to_nat (read_idx_ s)) buf) = n).
  { unfold size_of in *. rewrite length_drop. lia. }
  rewrite block_write_Some by lia.
  rewrite Hlen. change (take (Z.to_nat 0) buf) with (@nil Z). cbn [app].
  unfold SetWritePtr, SetReadPtr, bind, get, put.
  cbn [stream_size_ set_data_ write_idx_ set_write_idx_].
  destruct (Z.gtb_spec (write_idx_ s - read_idx_ s) (stream_size_ s)); [lia|].
  destruct (Z.gtb_spec 0 (write_idx_ s - read_idx_ s)); [lia|].
  eexists. split; [reflexivity|].
  split.
  { unfold unread, written. cbn. rewrite Hbuf.
    change (Z.to_nat 0) with 0%nat. rewrite drop_0.
    rewrite take_app_le by (rewrite length_drop; unfold size_of in Hd; lia).
    rewrite skipn_firstn_comm. f_equal. lia. }
  split; [reflexivity|]. split; [reflexivity|]. split; [reflexivity|].
  split; [cbn; lia|]. split; [cbn; lia|]. split; [exact Hs|].
  cbn. rewrite size_of_app, Hlen. unfold size_of in *. rewrite length_drop. lia.
Qed.

(** X9. [Add] of a string and of another stream on a well-formed stream: a
    non-empty string is appended with all its bytes, zero bytes included, and
    without a terminator; another well-formed stream is appended with all the
    bytes it has written, those already read from it included; a stream that
    has written nothing leaves the target as it is. *)
Theorem Add_string_and_stream (str : list Z) (other s : ByteStream) :
  wf s ->
  (str <> [] -> write_idx_ s + size_of str < 2 ^ 32 ->
   exists s', Add_string uninit str s = (Returns tt, s') /\ wf s' /\
              written s' = written s ++ str /\ unread s' = unread s ++ str) /\
  (wf other -> 0 < write_idx_ other -> write_idx_ s + write_idx_ other < 2 ^ 32 ->
   exists s', Add_stream uninit other s = (Returns tt, s') /\ wf s' /\
              written s' = written s ++ written other /\
              unread s' = unread s ++ written other) /\
  (write_idx_ other = 0 -> Add_stream uninit other s = (Returns tt, s)).
Proof.
  intros Hwf. split; [|split].
  - intros Hne Hfit.
    assert (Hpos : 0 < size_of str) by (unfold size_of; destruct str; [congruence|simpl; lia]).
    assert (Hw0 : 0 <= write_idx_ s) by (destruct Hwf as (A & _); lia).
    destruct (Add_returns uninit str (size_of str) s Hwf eq_refl Hpos Hfit)
      as (s1 & E1 & Hwf1 & _ & Hwr1 & Hr1 & _).
    exists s1. unfold Add_string, string_c_str.
    unfold uint32_t. rewrite Z.mod_small by lia.
    rewrite Add_prefix by (rewrite size_of_app; unfold size_of; simpl; lia).
    unfold size_of at 1. rewrite Nat2Z.id, take_app_length.
    split; [exact E1|]. split; [exact Hwf1|]. split; [exact Hwr1|].
    apply (unread_app s s1 str Hwf Hwr1 Hr1).
  - intros Hwfo Hpos Hfit.
    pose proof (wf_written_length other Hwfo) as Hlen.
    assert (Hsz : size_of (written other) = write_idx_ other).
    { unfold size_of. rewrite Hlen. lia. }
    destruct (Add_returns uninit (written other) (write_idx_ other) s Hwf Hsz Hpos Hfit)
      as (s1 & E1 & Hwf1 & _ & Hwr1 & Hr1 & _).
    exists s1. unfold Add_stream, GetBuffer, GetWritePtr.
    destruct Hwfo as (A & B & C & D).
    destruct (data_ other) as [buf|] eqn:Hbuf; [|lia].
    rewrite Add_prefix by lia.
    split; [unfold written in E1; rewrite Hbuf in E1; exact E1|].
    split; [exact Hwf1|]. split; [exact Hwr1|].
    apply (unread_app s s1 _ Hwf Hwr1 Hr1).
  - intros Hz. unfold Add_stream, GetBuffer, GetWritePtr, Add. rewrite Hz.
    destruct (data_ other); reflexivity.
Qed.

End Platform.

Section Wire.

Variable uninit : nat -> Z.

(** What a typed write stores on the Windows branch, for the types of at
    most four bytes. *)
Lemma _WriteByteorder_bytes_win t o v : sizeof t <= 4 ->
  object_bytes true t (_WriteByteorder OS_WIN t o v) =
    match o with
    | BIG_ENDIAN => rev (le_bytes (Z.to_nat (sizeof t)) v)
    | LITTLE_ENDIAN => le_bytes (Z.to_nat (sizeof t)) v
    end.
Proof.
  intros Ht. unfold object_bytes, _WriteByteorder.
  destruct o; cbn [BYTEORDER_eqb NETWORK_BYTEORDER];
    destruct t; cbn [sizeof] in *; try lia; try reflexivity.
  - change (Z.to_nat 2) with 2%nat. unfold HtonUint16. cbn [HOST_IS_LITTLE_ENDIAN].
    rewrite (le_bytes_congr 2 _ (ReverseShort (uint16_t v))).
    + rewrite ReverseShort_bytes. f_equal. apply (le_bytes_mod 2).
    + apply (signed_wrap_mod 16). lia.
  - change (Z.to_nat 4) with 4%nat. unfold HtonUint32. cbn [HOST_IS_LITTLE_ENDIAN].
    rewrite (le_bytes_congr 4 _ (ReverseInt (uint32_t v))).
    + rewrite ReverseInt_bytes. f_equal. apply (le_bytes_mod 4).
    + apply (signed_wrap_mod 32). lia.
  - change (Z.to_nat 2) with 2%nat. unfold HtonUint16. cbn [HOST_IS_LITTLE_ENDIAN].
    apply ReverseShort_bytes.
  - change (Z.to_nat 4) with 4%nat. unfold HtonUint32. cbn [HOST_IS_LITTLE_ENDIAN].
    apply ReverseInt_bytes.
Qed.

(** X10. The bytes a typed write stores on the Windows branch, for the six
    integer types of one, two and four bytes: with the byte order
    [BIG_ENDIAN] (the network order) the bytes of the value are appended most
    significant first, with [LITTLE_ENDIAN] least significant first. *)
Theorem typed_put_wire_format_windows (t : scalar) (v : Z) (s : ByteStream) :
  wf s -> sizeof t <= 4 -> write_idx_ s + sizeof t < 2 ^ 32 ->
  exists s',
    op_lshift OS_WIN true uninit t v s = (Returns tt, s') /\
    written s' = written s ++
      match byte_order_ s with
      | BIG_ENDIAN => rev (le_bytes (Z.to_nat (sizeof t)) v)
      | LITTLE_ENDIAN => le_bytes (Z.to_nat (sizeof t)) v
      end.
Proof.
  intros Hwf Ht Hfit. rewrite op_lshift_Add.
  destruct (Add_returns uninit _ (sizeof t) s Hwf
              (object_bytes_size true t (_WriteByteorder OS_WIN t (byte_order_ s) v))
              (sizeof_pos t) Hfit) as (s1 & E1 & _ & _ & Hwr1 & _).
  exists s1. split; [exact E1|].
  rewrite Hwr1, _WriteByteorder_bytes_win by exact Ht. reflexivity.
Qed.

(** X11. On the Linux branch the byte order has no effect: for each of the
    eight integer types and each value of the type, the conversion before a
    write and the one after a read return the value itself under either byte
    order, and a typed write appends the bytes the value has in memory. *)
Theorem byte_order_ignored_on_linux (lem : bool) (t : scalar) (o : BYTEORDER) (v : Z)
    (s : ByteStream) :
  in_range t v -> wf s -> write_idx_ s + sizeof t < 2 ^ 32 ->
  _WriteByteorder OS_LINUX t o v = v /\
  _ReadByteorder OS_LINUX t o v = v /\
  exists s',
    (let* _ := SetByteOrder o in op_lshift OS_LINUX lem uninit t v) s = (Returns tt, s') /\
    written s' = written s ++ object_bytes lem t v.
Proof.
  intros Hv Hwf Hfit.
  assert (EW : _WriteByteorder OS_LINUX t o v = v).
  { unfold _WriteByteorder, HtonUint16, HtonUint32, HtonUint64.
    cbn [HOST_IS_LITTLE_ENDIAN NETWORK_BYTEORDER].
    destruct t; try reflexivity; destruct (BYTEORDER_eqb o BIG_ENDIAN); try reflexivity;
      simpl in Hv.
    - unfold int16_t, uint16_t. rewrite signed_wrap_of_mod by lia.
      apply signed_wrap_id; simpl; lia.
    - unfold int32_t, uint32_t. rewrite signed_wrap_of_mod by lia.
      apply signed_wrap_id; simpl; lia.
    - unfold int64_t, uint64_t. rewrite signed_wrap_of_mod by lia.
      apply signed_wrap_id; simpl; lia. }
  assert (ER : _ReadByteorder OS_LINUX t o v = v).
  { unfold _ReadByteorder, NtohUint16, NtohUint32, NtohUint64.
    cbn [HOST_IS_LITTLE_ENDIAN NETWORK_BYTEORDER].
    destruct t; try reflexivity; destruct (BYTEORDER_eqb o BIG_ENDIAN); try reflexivity;
      simpl in Hv.
    - unfold int16_t, uint16_t. rewrite signed_wrap_of_mod by lia.
      apply signed_wrap_id; simpl; lia.
    - unfold int32_t, uint32_t. rewrite signed_wrap_of_mod by lia.
      apply signed_wrap_id; simpl; lia.
    - unfold int64_t, uint64_t. rewrite signed_wrap_of_mod by lia.
      apply signed_wrap_id; simpl; lia. }
  split; [exact EW|]. split; [exact ER|].
  unfold bind, SetByteOrder, modify.
  set (s0 := set_byte_order_ o s).
  assert (Hwf0 : wf s0) by exact Hwf.
  rewrite op_lshift_Add. change (byte_order_ s0) with o. rewrite EW.
  destruct (Add_returns uninit _ (sizeof t) s0 Hwf0 (object_bytes_size lem t v)
              (sizeof_pos t) Hfit) as (s1 & E1 & _ & _ & Hwr1 & _).
  exists s1. split; [exact E1|]. exact Hwr1.
Qed.

End Wire.

End StreamFacts.

(** ** Instances of the byte stream properties *)

Module StreamInstances.

Import BS MemFacts ByteOrderFacts BSFacts StreamFacts.

(** X3 at an instance: the borrowed stream with the unread bytes 1, 2, 3, 4
    gets the block 5 and the block 6, 7; one [Get] of 7 bytes returns them in
    that order. *)
Lemma Add_Add_Get_fifo_witness :
  wf four_bytes /\ [5] <> @nil Z /\ [6; 7] <> @nil Z /\
  write_idx_ four_bytes + size_of [5] + size_of [6; 7] < 2 ^ 32 /\
  exists s',
    (let* _ := Add zero_fill (Some [5]) 1 in
     let* _ := Add zero_fill (Some [6; 7]) 2 in
     Get 7) four_bytes = (Returns [1; 2; 3; 4; 5; 6; 7], s') /\
    Eof s' = true /\ wf s'.
Proof.
  assert (H1 : wf four_bytes) by concrete_wf.
  assert (H2 : [5] <> @nil Z) by discriminate.
  assert (H3 : [6; 7] <> @nil Z) by discriminate.
  assert (H4 : write_idx_ four_bytes + size_of [5] + size_of [6; 7] < 2 ^ 32) by concrete.
  split; [exact H1|]. split; [exact H2|]. split; [exact H3|]. split; [exact H4|].
  exact (Add_Add_Get_fifo zero_fill [5] [6; 7] four_bytes H1 H2 H3 H4).
Defined.

(** X4 at instances: the stream with one unread byte at read cursor 3 of 4.
    One byte is returned; two bytes, and a 16-bit read, throw and leave the
    stream as it was; 2^32 - 1 bytes pass the check and read outside the
    block. The default stream, which has no block, throws for 0 bytes. *)
Lemma Get_bounds_check_witness :
  wf mostly_read /\ wf (ByteStream_new OS_WIN zero_fill 0) /\
  Get 0 (ByteStream_new OS_WIN zero_fill 0)
    = (Throws (access_violation_exception "byte stream overflow"),
       ByteStream_new OS_WIN zero_fill 0) /\
  Get 1 mostly_read = (Returns [4], set_read_idx_ 4 mostly_read) /\
  Get 2 mostly_read
    = (Throws (access_violation_exception "byte stream overflow"), mostly_read) /\
  op_rshift OS_WIN true Int16 mostly_read
    = (Throws (access_violation_exception "byte stream overflow"), mostly_read) /\
  Get (2 ^ 32 - 1) mostly_read = (Undefined OutOfBoundsRead, mostly_read).
Proof.
  assert (H1 : wf mostly_read) by concrete_wf.
  assert (H0 : wf (ByteStream_new OS_WIN zero_fill 0)) by concrete_wf.
  assert (Hd : data_ mostly_read <> None) by discriminate.
  split; [exact H1|]. split; [exact H0|].
  split.
  { exact (proj1 (Get_bounds_check OS_WIN true 0 _ H0 ltac:(lia)) eq_refl). }
  split.
  { exact (proj1 (proj2 (Get_bounds_check OS_WIN true 1 _ H1 ltac:(lia))) Hd
             ltac:(simpl; lia)). }
  split.
  { exact (proj1 (proj1 (proj2 (proj2 (Get_bounds_check OS_WIN true 2 _ H1 ltac:(lia))))
                    ltac:(simpl; lia) ltac:(simpl; lia))). }
  split.
  { exact (proj2 (proj1 (proj2 (proj2 (Get_bounds_check OS_WIN true 2 _ H1 ltac:(lia))))
                    ltac:(simpl; lia) ltac:(simpl; lia)) Int16 eq_refl). }
  exact (proj2 (proj2 (proj2 (Get_bounds_check OS_WIN true (2 ^ 32 - 1) _ H1 ltac:(lia))))
           Hd ltac:(simpl; lia)).
Defined.

(** X5 at an instance: the stream holding the bytes of hi, a zero byte, the
    bytes of yo, a zero byte and the byte 7. *)
Lemma GetString_reads_consecutive_strings_witness :
  wf two_strings /\
  unread two_strings = [104; 105] ++ 0 :: [121; 111] ++ 0 :: [7] /\
  (let* x := GetString OS_WIN true zero_fill 3 in
   let* y := GetString OS_WIN true zero_fill 3 in
   ret (x, y)) two_strings
    = (Returns ([104; 105], [121; 111]), set_read_idx_ 6 two_strings).
Proof.
  assert (H1 : wf two_strings) by concrete_wf.
  assert (H2 : unread two_strings = [104; 105] ++ 0 :: [121; 111] ++ 0 :: [7])
    by reflexivity.
  assert (H3 : Forall (fun c => 0 < c < 256) [104; 105]) by (repeat constructor; lia).
  assert (H4 : Forall (fun c => 0 < c < 256) [121; 111]) by (repeat constructor; lia).
  split; [exact H1|]. split; [exact H2|].
  exact (GetString_reads_consecutive_strings OS_WIN true zero_fill 3
           [104; 105] [121; 111] [7] two_strings H1 H2 H3 H4
           ltac:(simpl; lia) ltac:(simpl; lia)).
Defined.

(** X6 at instances: the string with the bytes 104, 105 comes back whole;
    of the string with the bytes 104, 0, 105 only the byte 104 is written
    and read back. *)
Lemma PutString_GetString_round_trip_witness :
  wf four_bytes /\
  c_str (string_c_str [104; 105]) = Some [104; 105] /\
  c_str (string_c_str [104; 0; 105]) = Some [104] /\
  (exists s',
    (let* pos := gets GetWritePtr in
     let* _ := PutString zero_fill [104; 105] in
     let* _ := SetReadPtr pos in
     GetString OS_WIN true zero_fill 3) four_bytes = (Returns [104; 105], s') /\
    written s' = [1; 2; 3; 4; 104; 105; 0] /\ Eof s' = true) /\
  (exists s',
    (let* pos := gets GetWritePtr in
     let* _ := PutString zero_fill [104; 0; 105] in
     let* _ := SetReadPtr pos in
     GetString OS_WIN true zero_fill 3) four_bytes = (Returns [104], s') /\
    written s' = [1; 2; 3; 4; 104; 0] /\ Eof s' = true).
Proof.
  assert (H1 : wf four_bytes) by concrete_wf.
  assert (Ha : Forall (fun c => 0 <= c < 256) [104; 105]) by (repeat constructor; lia).
  assert (Hb : Forall (fun c => 0 <= c < 256) [104; 0; 105]) by (repeat constructor; lia).
  split; [exact H1|]. split; [reflexivity|]. split; [reflexivity|].
  split.
  - destruct (PutString_GetString_round_trip OS_WIN true zero_fill 3 [104; 105] [104; 105]
                four_bytes H1 Ha eq_refl ltac:(concrete) ltac:(simpl; lia))
      as (s' & E & Hw & He & _).
    exists s'. split; [exact E|]. split; [exact Hw|exact He].
  - destruct (PutString_GetString_round_trip OS_WIN true zero_fill 3 [104; 0; 105] [104]
                four_bytes H1 Hb eq_refl ltac:(concrete) ltac:(simpl; lia))
      as (s' & E & Hw & He & _).
    exists s'. split; [exact E|]. split; [exact Hw|exact He].
Defined.

(** X7 at instances: the copy of the borrowed stream of four bytes owns its
    block, and the copy of a stream of capacity zero with the byte order
    [BIG_ENDIAN] is the default stream. *)
Lemma copy_and_assign_witness :
  let empty := set_byte_order_ BIG_ENDIAN (ByteStream_new OS_WIN zero_fill 0) in
  wf four_bytes /\ wf empty /\
  (exists b,
     ByteStream_copy OS_WIN zero_fill four_bytes = (Returns tt, b) /\ wf b /\
     written b = [1; 2; 3; 4] /\ unread b = [1; 2; 3; 4] /\
     stream_size_ b = 4 /\ mallocated_ b = true) /\
  ByteStream_copy OS_WIN zero_fill empty = (Returns tt, ByteStream_new OS_WIN zero_fill 0) /\
  byte_order_ (ByteStream_new OS_WIN zero_fill 0) = LITTLE_ENDIAN /\
  op_assign zero_fill None four_bytes
    = (Returns tt, mkByteStream None 0 0 0 false LITTLE_ENDIAN).
Proof.
  intros empty.
  assert (H1 : wf four_bytes) by concrete_wf.
  assert (H2 : wf empty) by concrete_wf.
  split; [exact H1|]. split; [exact H2|].
  split.
  - destruct (proj1 (copy_and_assign OS_WIN zero_fill four_bytes H1) ltac:(simpl; lia))
      as (b & E & Hwf & Hw & Hu & _ & _ & Hs & _ & Hm).
    exists b. split; [exact E|]. split; [exact Hwf|]. split; [exact Hw|].
    split; [exact Hu|]. split; [exact Hs|exact Hm].
  - split; [exact (proj1 (proj2 (copy_and_assign OS_WIN zero_fill empty H2)) eq_refl)|].
    split; [reflexivity|].
    exact (proj2 (proj2 (copy_and_assign OS_WIN zero_fill four_bytes H1))).
Defined.

(** X8 at an instance: the stream with read cursor 3 and write cursor 4 in
    a block of 4 bytes keeps its unread byte 4. *)
Lemma FlushReadPtr_keeps_unread_witness :
  wf mostly_read /\ data_ mostly_read <> None /\
  stream_size_ mostly_read - read_idx_ mostly_read <= read_idx_ mostly_read /\
  exists s',
    FlushReadPtr mostly_read = Flushed (Returns tt, s') /\
    unread s' = [4] /\ read_idx_ s' = 0 /\ write_idx_ s' = 1 /\
    stream_size_ s' = 4 /\ wf s'.
Proof.
  assert (H1 : wf mostly_read) by concrete_wf.
  assert (H2 : data_ mostly_read <> None) by discriminate.
  assert (H3 : stream_size_ mostly_read - read_idx_ mostly_read <= read_idx_ mostly_read)
    by concrete.
  split; [exact H1|]. split; [exact H2|]. split; [exact H3|].
  exact (FlushReadPtr_keeps_unread mostly_read H1 H2 H3).
Defined.

(** X9 at instances: the string with the bytes 9, 0, 9 is appended whole to
    the stream of four bytes; the stream of three bytes is appended whole
    after one of its bytes was read; the default stream changes nothing. *)
Lemma Add_string_and_stream_witness :
  let other := snd (SetReadPtr 1 hi_stream) in
  wf four_bytes /\ wf other /\ unread other = [105; 33] /\
  (exists s', Add_string zero_fill [9; 0; 9] four_bytes = (Returns tt, s') /\ wf s' /\
              written s' = [1; 2; 3; 4; 9; 0; 9] /\ unread s' = [1; 2; 3; 4; 9; 0; 9]) /\
  (exists s', Add_stream zero_fill other four_bytes = (Returns tt, s') /\ wf s' /\
              written s' = [1; 2; 3; 4; 104; 105; 33] /\
              unread s' = [1; 2; 3; 4; 104; 105; 33]) /\
  Add_stream zero_fill (ByteStream_new OS_WIN zero_fill 0) four_bytes
    = (Returns tt, four_bytes).
Proof.
  intros other.
  assert (H1 : wf four_bytes) by concrete_wf.
  assert (H2 : wf other) by concrete_wf.
  split; [exact H1|]. split; [exact H2|]. split; [reflexivity|].
  split.
  { exact (proj1 (Add_string_and_stream zero_fill [9; 0; 9] other four_bytes H1)
             ltac:(discriminate) ltac:(concrete)). }
  split.
  { exact (proj1 (proj2 (Add_string_and_stream zero_fill [9; 0; 9] other four_bytes H1))
             H2 ltac:(concrete) ltac:(concrete)). }
  exact (proj2 (proj2 (Add_string_and_stream zero_fill [] (ByteStream_new OS_WIN zero_fill 0)
                         four_bytes H1)) eq_refl).
Defined.

(** X10 at instances: the 32-bit value 0x01020304 is stored as 1, 2, 3, 4
    under [BIG_ENDIAN] and as 4, 3, 2, 1 under [LITTLE_ENDIAN]; the 16-bit
    value -2 is stored as 0xff, 0xfe under [BIG_ENDIAN]. *)
Lemma typed_put_wire_format_windows_witness :
  let le := ByteStream_new OS_WIN zero_fill 0 in
  let be := set_byte_order_ BIG_ENDIAN le in
  wf le /\ wf be /\
  (exists s', op_lshift OS_WIN true zero_fill Uint32 0x01020304 be = (Returns tt, s') /\
              written s' = [1; 2; 3; 4]) /\
  (exists s', op_lshift OS_WIN true zero_fill Uint32 0x01020304 le = (Returns tt, s') /\
              written s' = [4; 3; 2; 1]) /\
  (exists s', op_lshift OS_WIN true zero_fill Int16 (-2) be = (Returns tt, s') /\
              written s' = [0xff; 0xfe]).
Proof.
  intros le be.
  assert (H1 : wf le) by concrete_wf.
  assert (H2 : wf be) by concrete_wf.
  split; [exact H1|]. split; [exact H2|].
  split.
  { exact (typed_put_wire_format_windows zero_fill Uint32 0x01020304 be H2
             ltac:(simpl; lia) ltac:(concrete)). }
  split.
  { exact (typed_put_wire_format_windows zero_fill Uint32 0x01020304 le H1
             ltac:(simpl; lia) ltac:(concrete)). }
  exact (typed_put_wire_format_windows zero_fill Int16 (-2) be H2
           ltac:(simpl; lia) ltac:(concrete)).
Defined.

(** X11 at an instance: on the Linux branch with little-endian memory the
    16-bit value 0x0102 written under [BIG_ENDIAN] is stored as 2, 1. *)
Lemma byte_order_ignored_on_linux_witness :
  let s := ByteStream_new OS_LINUX zero_fill 0 in
  in_range Uint16 0x0102 /\ wf s /\
  _WriteByteorder OS_LINUX Uint16 BIG_ENDIAN 0x0102 = 0x0102 /\
  _ReadByteorder OS_LINUX Uint16 BIG_ENDIAN 0x0102 = 0x0102 /\
  exists s',
    (let* _ := SetByteOrder BIG_ENDIAN in
     op_lshift OS_LINUX true zero_fill Uint16 0x0102) s = (Returns tt, s') /\
    written s' = [2; 1].
Proof.
  intros s.
  assert (H1 : in_range Uint16 0x0102) by (simpl; lia).
  assert (H2 : wf s) by concrete_wf.
  split; [exact H1|]. split; [exact H2|].
  exact (byte_order_ignored_on_linux zero_fill true Uint16 BIG_ENDIAN 0x0102 s H1 H2
           ltac:(concrete)).
Defined.

End StreamInstances.

(** ** Event (Linux branch): deadline, unlocking, signalled waits *)

Module EventWaitFacts.

Import EventLinux.

(** X12. The deadline [Wait] hands to the timed wait: for a clock reading with
    nanoseconds below one second and a timeout that is not negative, the
    nanoseconds of the deadline are again below one second, and the deadline
    is the clock reading plus the timeout in milliseconds. *)
Theorem deadline_normalised (ts : Z * Z) (timeout : Z) :
  0 <= snd ts < 1000000000 -> 0 <= timeout ->
  0 <= snd (deadline ts timeout) < 1000000000 /\
  fst (deadline ts timeout) * 1000000000 + snd (deadline ts timeout)
    = fst ts * 1000000000 + snd ts + timeout * 1000000.
Proof.
  intros Hns Ht. unfold deadline.
  pose proof (Z.div_mod timeout 1000 ltac:(lia)) as E.
  pose proof (Z.mod_pos_bound timeout 1000 ltac:(lia)) as B.
  destruct (Z.geb_spec (snd ts + timeout mod 1000 * 1000000) 1000000000);
    cbn [fst snd]; lia.
Qed.

(** The loop without timeout ends when one of the waits fails or finds the
    event set; it then has released the mutex. *)
Lemma wait_forever_returns (answers : list (Z * bool)) : forall e,
  Exists (fun a => fst a <> 0 \/ snd a = true) answers ->
  exists b e', wait_forever answers e = (Returns b, e') /\ mutex_held e' = false /\
               (b = true -> event_state_ e' = true).
Proof.
  induction answers as [|[rc state] rest IH]; intros e Hex.
  - inversion Hex.
  - destruct e as [m st c]. cbn -[Z.eqb]. destruct st; cbn -[Z.eqb].
    + eexists _, _. split; [reflexivity|]. split; reflexivity.
    + destruct (Z.eqb_spec rc 0) as [->|Hrc]; cbn -[Z.eqb].
      * destruct state.
        -- destruct rest as [|[rc' st'] rest']; cbn -[Z.eqb];
             eexists _, _; (split; [reflexivity|]); split; reflexivity.
        -- apply IH. inversion Hex as [? ? [H|H]|]; subst; simpl in *;
             [lia|discriminate|assumption].
      * eexists _, _. split; [reflexivity|]. split; [reflexivity|discriminate].
Qed.

(** The timed loop ends when one of the waits fails or finds the event
    clear; it then has released the mutex. *)
Lemma wait_until_returns ts (answers : list (Z * bool)) : forall e,
  Exists (fun a => fst a <> 0 \/ snd a = false) answers ->
  exists b e', wait_until ts answers e = (Returns b, e') /\ mutex_held e' = false.
Proof.
  induction answers as [|[rc state] rest IH]; intros e Hex.
  - inversion Hex.
  - destruct e as [m st c]. cbn -[Z.eqb]. destruct st; cbn -[Z.eqb].
    + destruct (Z.eqb_spec rc 0) as [->|Hrc]; cbn -[Z.eqb].
      * destruct state.
        -- apply IH. inversion Hex as [? ? [H|H]|]; subst; simpl in *;
             [lia|discriminate|assumption].
        -- destruct rest as [|[rc' st'] rest']; cbn -[Z.eqb];
             eexists _, _; (split; [reflexivity|]); reflexivity.
      * eexists _, _. split; reflexivity.
    + eexists _, _. split; reflexivity.
Qed.

(** X13. [Wait] called without the mutex held, when one of the waits on the
    condition variable fails or finds the state its loop waits for: the call
    returns, and at its return the mutex is released on every path but one:
    it stays locked when the mutex was taken, the timeout is not
    [0xffffffff], and [clock_gettime] fails. *)
Theorem Wait_returns_and_releases (os : pthread_answers) (timeout : Z) (e : Event) :
  mutex_held e = false ->
  Exists (loop_ends timeout) (wait_rcs os) ->
  exists b e',
    Wait os timeout e = (Returns b, e') /\
    mutex_held e' =
      (if timeout =? 0 then trylock_rc os =? 0 else lock_rc os =? 0)
      && negb (timeout =? 0xffffffff) && (clock_gettime_rc os =? -1).
Proof.
  intros Hm Hex. unfold Wait. destruct e as [m st c]. simpl in Hm. subst m.
  assert (Hlocked : forall (got : bool) e0,
    mutex_held e0 = false ->
    exists b e',
      (if negb got then ret false
       else
         let* _ := set_mutex_held true in
         if timeout =? 0xffffffff then wait_forever (wait_rcs os)
         else
           let* _ := log clock_gettime in
           if clock_gettime_rc os =? -1 then ret false
           else wait_until (deadline (now os) timeout) (wait_rcs os)) e0
        = (Returns b, e') /\
      mutex_held e' = got && negb (timeout =? 0xffffffff) && (clock_gettime_rc os =? -1)).
  { intros got e0 H0. destruct got; cbn -[Z.eqb wait_until wait_forever deadline].
    2:{ eexists _, _. split; [reflexivity|exact H0]. }
    unfold loop_ends in Hex.
    destruct (Z.eqb_spec timeout 0xffffffff) as [Ht|Ht]; cbn -[Z.eqb wait_until wait_forever deadline].
    - destruct (wait_forever_returns (wait_rcs os)
                  (mkEvent true (event_state_ e0) (calls e0)) Hex) as (b & e' & E & Hm' & _).
      exists b, e'. split; [|exact Hm'].
      unfold bind, set_mutex_held, modify. exact E.
    - destruct (Z.eqb_spec (clock_gettime_rc os) (-1)); cbn -[Z.eqb wait_until wait_forever deadline].
      + eexists _, _. split; reflexivity.
      + destruct (wait_until_returns (deadline (now os) timeout) (wait_rcs os)
                    (mkEvent true (event_state_ e0) (calls e0 ++ [clock_gettime])) Hex)
          as (b & e' & E & Hm').
        exists b, e'. split; [|exact Hm'].
        unfold bind, set_mutex_held, log, modify. cbn -[Z.eqb wait_until deadline]. exact E. }
  destruct (timeout =? 0); cbn -[Z.eqb wait_until wait_forever deadline negb];
    apply Hlocked; reflexivity.
Qed.

(** X14. [Signal] followed by [Wait] without timeout, both taking the mutex:
    the wait returns [true] without waiting on the condition variable, the
    event stays set and the mutex is released; the pthread calls made are
    lock, broadcast, unlock, lock, unlock. *)
Theorem Signal_then_untimed_Wait (os1 os2 : pthread_answers) (e : Event) :
  lock_rc os1 = 0 -> lock_rc os2 = 0 ->
  (let* _ := Signal os1 in Wait os2 0xffffffff) e =
    (Returns true,
     mkEvent false true
       (calls e ++ [pthread_mutex_lock; pthread_cond_broadcast; pthread_mutex_unlock;
                    pthread_mutex_lock; pthread_mutex_unlock])).
Proof.
  intros H1 H2. destruct e as [m st c].
  unfold bind, Signal, Wait, log, modify, set_mutex_held, set_event_state_.
  rewrite H1, H2. cbn -[wait_forever].
  destruct (wait_rcs os2) as [|[rc state] rest]; cbn;
    rewrite <- !app_assoc; reflexivity.
Qed.

(** What the loop without timeout leaves when it returns. *)
Lemma wait_forever_result (answers : list (Z * bool)) : forall e b e',
  wait_forever answers e = (Returns b, e') ->
  mutex_held e' = false /\ (b = true -> event_state_ e' = true).
Proof.
  induction answers as [|[rc state] rest IH]; intros [m st c] b e'; cbn -[Z.eqb].
  - destruct st; cbn; [intros [= <- <-]; split; reflexivity|discriminate].
  - destruct st; cbn -[Z.eqb]; [intros [= <- <-]; split; reflexivity|].
    destruct (rc =? 0); cbn -[Z.eqb]; [apply IH|].
    intros [= <- <-]. split; [reflexivity|discriminate].
Qed.

(** X15. When [Wait] without timeout returns [true], the event is set, the
    mutex is released and the mutex had been taken. *)
Theorem untimed_Wait_true_means_set (os : pthread_answers) (e e' : Event) :
  Wait os 0xffffffff e = (Returns true, e') ->
  event_state_ e' = true /\ mutex_held e' = false /\ lock_rc os = 0.
Proof.
  unfold Wait. destruct e as [m st c]. cbn -[wait_forever Z.eqb].
  destruct (Z.eqb_spec (lock_rc os) 0) as [Hl|Hl]; cbn -[wait_forever Z.eqb];
    [|discriminate].
  intros E. destruct (wait_forever_result _ _ _ _ E) as [Hm Hs].
  split; [exact (Hs eq_refl)|]. split; [exact Hm|exact Hl].
Qed.

(** X12 at an instance: 1500 ms after 10 s and 999000000 ns is 12 s and
    499000000 ns. *)
Lemma deadline_normalised_witness :
  0 <= snd (10, 999000000) < 1000000000 /\ 0 <= 1500 /\
  deadline (10, 999000000) 1500 = (12, 499000000) /\
  0 <= snd (deadline (10, 999000000) 1500) < 1000000000 /\
  fst (deadline (10, 999000000) 1500) * 1000000000 + snd (deadline (10, 999000000) 1500)
    = fst (10, 999000000) * 1000000000 + snd (10, 999000000) + 1500 * 1000000.
Proof.
  assert (H1 : 0 <= snd (10, 999000000) < 1000000000) by (simpl; lia).
  assert (H2 : 0 <= 1500) by lia.
  split; [exact H1|]. split; [exact H2|]. split; [reflexivity|].
  exact (deadline_normalised (10, 999000000) 1500 H1 H2).
Defined.

(** X13 at instances: a set event and a timed wait of 50 ms that runs into
    the timeout: the call returns with the mutex released; the same call
    when [clock_gettime] fails returns with the mutex locked. *)
Lemma Wait_returns_and_releases_witness :
  let e := mkEvent false true [] in
  let os := mkAnswers 0 0 0 (0, 0) [(ETIMEDOUT, true)] in
  let os' := mkAnswers 0 0 (-1) (0, 0) [(ETIMEDOUT, true)] in
  mutex_held e = false /\ Exists (loop_ends 50) (wait_rcs os) /\
  (exists b e', Wait os 50 e = (Returns b, e') /\ mutex_held e' = false) /\
  (exists b e', Wait os' 50 e = (Returns b, e') /\ mutex_held e' = true).
Proof.
  intros e os os'.
  assert (H1 : mutex_held e = false) by reflexivity.
  assert (H2 : Exists (loop_ends 50) (wait_rcs os)).
  { apply Exists_cons_hd. left. simpl. unfold ETIMEDOUT. lia. }
  split; [exact H1|]. split; [exact H2|].
  split.
  - exact (Wait_returns_and_releases os 50 e H1 H2).
  - exact (Wait_returns_and_releases os' 50 e H1 H2).
Defined.

(** X14 at an instance: the new event. *)
Lemma Signal_then_untimed_Wait_witness :
  let os := mkAnswers 0 0 0 (0, 0) [] in
  lock_rc os = 0 /\
  (let* _ := Signal os in Wait os 0xffffffff) Event_new =
    (Returns true,
     mkEvent false true
       [pthread_mutex_lock; pthread_cond_broadcast; pthread_mutex_unlock;
        pthread_mutex_lock; pthread_mutex_unlock]).
Proof.
  intros os.
  assert (H1 : lock_rc os = 0) by reflexivity.
  split; [exact H1|].
  exact (Signal_then_untimed_Wait os os Event_new H1 H1).
Defined.

(** X15 at an instance: the new event, a first wait that finds the event
    clear and a second one that finds it set. *)
Lemma untimed_Wait_true_means_set_witness :
  let os := mkAnswers 0 0 0 (0, 0) [(0, false); (0, true)] in
  let e' := mkEvent false true
              [pthread_mutex_lock; pthread_cond_wait; pthread_cond_wait;
               pthread_mutex_unlock] in
  Wait os 0xffffffff Event_new = (Returns true, e') /\
  event_state_ e' = true /\ mutex_held e' = false /\ lock_rc os = 0.
Proof.
  intros os e'.
  assert (H1 : Wait os 0xffffffff Event_new = (Returns true, e')) by reflexivity.
  split; [exact H1|].
  exact (untimed_Wait_true_means_set os Event_new e' H1).
Defined.

End EventWaitFacts.

(** ** Pool of socket contexts and closing a socket *)

Module SocketPoolFacts.

Import IOCP IoContextFacts WorkerFacts.

(** Methods that leave the pool of socket contexts as it is. *)
Lemma keeps_ret {A} (a : A) : keeps_sock_pool (ret a).
Proof. intros w. reflexivity. Qed.

Lemma keeps_undefined {A} f : keeps_sock_pool (@undefined World A f).
Proof. intros w. reflexivity. Qed.

Lemma keeps_bind {A B} (m : M World A) (k : A -> M World B) :
  keeps_sock_pool m -> (forall a, keeps_sock_pool (k a)) -> keeps_sock_pool (bind m k).
Proof.
  intros Hm Hk w. unfold bind. specialize (Hm w).
  destruct (m w) as [[a| | |] w1]; simpl in Hm |- *; try exact Hm.
  rewrite (Hk a w1). exact Hm.
Qed.

Lemma keeps_get : keeps_sock_pool (@get World).
Proof. intros w. reflexivity. Qed.

Lemma keeps_emit e : keeps_sock_pool (emit e).
Proof. intros w. reflexivity. Qed.

Lemma keeps_read_sock p : keeps_sock_pool (read_sock p).
Proof.
  intros w. unfold read_sock, bind, get. destruct p as [sh|]; [|reflexivity].
  destruct (socks w !! sh); reflexivity.
Qed.

Lemma keeps_update_sock p f : keeps_sock_pool (update_sock p f).
Proof.
  intros w. unfold update_sock, read_sock, bind, get, put, undefined, ret.
  destruct p as [sh|]; [|reflexivity].
  destruct (socks w !! sh); reflexivity.
Qed.

Lemma keeps_Reset_at p : keeps_sock_pool (Reset_at p).
Proof. intros w. apply Reset_at_pools. Qed.

Lemma keeps_PutIoContext p : keeps_sock_pool (PutIoContext p).
Proof.
  intros w. unfold PutIoContext, bind.
  destruct (Reset_at_pools p w) as [_ Hs].
  destruct (Reset_at p w) as [[[]| | |] w1]; simpl in Hs |- *; try exact Hs.
  unfold get. destruct (_ <=? _).
  - rewrite (proj2 (delete_IoContext_pools p w1)). exact Hs.
  - exact Hs.
Qed.

Lemma keeps_for_each {A} (l : list A) (body : A -> M World unit) :
  (forall x, keeps_sock_pool (body x)) -> keeps_sock_pool (for_each l body).
Proof.
  intros Hb. induction l as [|x l IH]; cbn [for_each].
  - apply keeps_ret.
  - apply keeps_bind; [apply Hb|]. intros _. exact IH.
Qed.

Lemma keeps_IOCP_SocketContext_Reset p : keeps_sock_pool (IOCP_SocketContext_Reset p).
Proof.
  unfold IOCP_SocketContext_Reset.
  repeat lazymatch goal with
    | |- keeps_sock_pool (update_sock _ _) => apply keeps_update_sock
    | |- keeps_sock_pool (read_sock _) => apply keeps_read_sock
    | |- keeps_sock_pool (emit _) => apply keeps_emit
    | |- keeps_sock_pool (ret _) => apply keeps_ret
    | |- keeps_sock_pool (undefined _) => apply keeps_undefined
    | |- keeps_sock_pool (Reset_at _) => apply keeps_Reset_at
    | |- keeps_sock_pool (for_each _ PutIoContext) =>
        apply keeps_for_each; intros ?; apply keeps_PutIoContext
    | |- keeps_sock_pool (if ?c then _ else _) => destruct c
    | |- keeps_sock_pool (match ?p with Some _ => _ | None => _ end) => destruct p
    | |- keeps_sock_pool (bind _ _) => apply keeps_bind; [|intros ?]
    end.
Qed.

(** Returning a context to the idle list keeps the list within the
    capacity, and leaves the capacity and the active map as they are. *)
Lemma push_idle_bounded p w : idle_bounded w ->
  idle_bounded (snd (push_idle p w)) /\
  sock_pool_size_ (pool_sock_context_ (snd (push_idle p w)))
    = sock_pool_size_ (pool_sock_context_ w) /\
  map_active_ (pool_sock_context_ (snd (push_idle p w)))
    = map_active_ (pool_sock_context_ w).
Proof.
  unfold idle_bounded, idle_length, push_idle, bind, get, put, ret. intros Hb.
  destruct (Z.ltb_spec (Z.of_nat (length (list_idle_ (pool_sock_context_ w))))
              (sock_pool_size_ (pool_sock_context_ w))); cbn.
  - rewrite length_app. simpl. split; [lia|]. split; reflexivity.
  - split; [exact Hb|]. split; reflexivity.
Qed.

Lemma keeps_idle_bound_of_keeps {A} (m : M World A) : keeps_sock_pool m -> keeps_idle_bound m.
Proof.
  intros Hk w Hb. unfold idle_bounded, idle_length in *. rewrite (Hk w). split; [exact Hb|reflexivity].
Qed.

Lemma keeps_idle_bound_bind {A B} (m : M World A) (k : A -> M World B) :
  keeps_idle_bound m -> (forall a, keeps_idle_bound (k a)) -> keeps_idle_bound (bind m k).
Proof.
  intros Hm Hk w Hb. unfold bind. destruct (Hm w Hb) as [H1 H2].
  destruct (m w) as [[a| | |] w1]; simpl in H1, H2 |- *; try (split; assumption).
  destruct (Hk a w1 H1) as [H3 H4]. split; [exact H3|]. rewrite H4. exact H2.
Qed.

Lemma keeps_idle_bound_push_idle p : keeps_idle_bound (push_idle p).
Proof. intros w Hb. destruct (push_idle_bounded p w Hb) as (A & B & _). split; assumption. Qed.

Lemma keeps_idle_bound_for_each {A} (l : list A) (body : A -> M World unit) :
  (forall x, keeps_idle_bound (body x)) -> keeps_idle_bound (for_each l body).
Proof.
  intros Hb. induction l as [|x l IH]; cbn [for_each].
  - intros w H. split; [exact H|reflexivity].
  - apply keeps_idle_bound_bind; [apply Hb|]. intros _. exact IH.
Qed.

Section SockPool.

Variable indeterminate : Z -> Z.
Variable indeterminate_addr : Z -> SOCKADDR_IN.

(** Each operation of the pool of socket contexts keeps the bound. *)
Lemma sock_pool_step_bounded op : keeps_idle_bound (sock_pool_step indeterminate indeterminate_addr op).
Proof.
  destruct op as [|p|p|key|]; cbn [sock_pool_step].
  - intros w Hb. unfold idle_bounded, idle_length in *.
    unfold GetSocketContext, bind, get, put, ret.
    destruct (list_idle_ (pool_sock_context_ w)) as [|c rest] eqn:E; cbn.
    + rewrite E. split; [exact Hb|reflexivity].
    + simpl in Hb. split; [lia|reflexivity].
  - apply keeps_idle_bound_push_idle.
  - intros w Hb. unfold idle_bounded, idle_length in *.
    unfold AddActiveContext, bind.
    pose proof (keeps_read_sock p w) as Hk.
    destruct (read_sock p w) as [[s| | |] w1]; simpl in Hk |- *; rewrite ?Hk; try (split; [exact Hb|reflexivity]).
    unfold get. destruct p as [sh|]; cbn; rewrite ?Hk; split; try exact Hb; reflexivity.
  - intros w Hb.
    destruct (map_active_ (pool_sock_context_ w) !! key) as [sh|] eqn:E.
    + set (w0 := set_pool_sock_context_
                   (mkSocketContextPool (list_idle_ (pool_sock_context_ w))
                      (sock_pool_size_ (pool_sock_context_ w))
                      (delete key (map_active_ (pool_sock_context_ w)))) w).
      assert (E' : DelActiveContext key w
                   = bind (IOCP_SocketContext_Reset (Some sh))
                       (fun _ => push_idle (Some sh)) w0).
      { unfold DelActiveContext. unfold bind at 1, get. rewrite E. reflexivity. }
      rewrite E'.
      apply (keeps_idle_bound_bind (IOCP_SocketContext_Reset (Some sh))
               (fun _ => push_idle (Some sh))
               (keeps_idle_bound_of_keeps _ (keeps_IOCP_SocketContext_Reset (Some sh)))
               (fun _ => keeps_idle_bound_push_idle (Some sh)) w0).
      exact Hb.
    + assert (E' : DelActiveContext key w = (Returns tt, w)).
      { unfold DelActiveContext, bind, get. rewrite E. reflexivity. }
      rewrite E'. split; [exact Hb|reflexivity].
  - intros w Hb.
    set (body := fun it : Z * Z =>
                   let* _ := IOCP_SocketContext_Reset (Some (snd it)) in
                   push_idle (Some (snd it))).
    pose proof (keeps_idle_bound_for_each (active_entries w) body
                  (fun it => keeps_idle_bound_bind _ _
                     (keeps_idle_bound_of_keeps _ (keeps_IOCP_SocketContext_Reset (Some (snd it))))
                     (fun _ => keeps_idle_bound_push_idle (Some (snd it)))) w Hb) as [H1 H2].
    assert (E' : ClearActiveContext w =
                 match for_each (active_entries w) body w with
                 | (Returns _, w1) =>
                     (Returns tt,
                      set_pool_sock_context_
                        (mkSocketContextPool (list_idle_ (pool_sock_context_ w1))
                           (sock_pool_size_ (pool_sock_context_ w1)) ∅) w1)
                 | (Throws e, w1) => (Throws e, w1)
                 | (Undefined f, w1) => (Undefined f, w1)
                 | (OutOfFuel, w1) => (OutOfFuel, w1)
                 end).
    { unfold ClearActiveContext. unfold bind at 1, get. cbv beta iota.
      unfold bind at 1. fold body.
      destruct (for_each (active_entries w) body w) as [[[]| | |] w1]; reflexivity. }
    rewrite E'.
    destruct (for_each (active_entries w) body w) as [[[]| | |] w1]; simpl in H1, H2 |- *;
      split; assumption.
Qed.

Lemma sock_pool_run_bounded ops : keeps_idle_bound (sock_pool_run indeterminate indeterminate_addr ops).
Proof. apply keeps_idle_bound_for_each. apply sock_pool_step_bounded. Qed.

(** X16. The idle list of the pool of socket contexts never grows beyond the
    capacity: the pool starts with capacity 2000 and an empty idle list, and
    every sequence of [GetSocketContext], [PutSocketContext],
    [AddActiveContext], [DelActiveContext] and [ClearActiveContext], with any
    arguments and whether or not a call fails on the way, keeps the number of
    idle contexts at or below the capacity. *)
Theorem SocketContextPool_idle_bounded :
  sock_pool_size_ (pool_sock_context_ Init_World) = 2000 /\
  idle_length Init_World = 0 /\
  (forall w ops, idle_bounded w ->
     idle_bounded (snd (sock_pool_run indeterminate indeterminate_addr ops w))) /\
  (forall cap sock_cap ops,
     idle_length (snd (sock_pool_run indeterminate indeterminate_addr ops (World_new cap sock_cap)))
       <= uint32_t sock_cap).
Proof.
  split; [reflexivity|]. split; [reflexivity|]. split.
  - intros w ops Hb. apply sock_pool_run_bounded. exact Hb.
  - intros cap sock_cap ops.
    assert (Hb : idle_bounded (World_new cap sock_cap)).
    { unfold idle_bounded, idle_length. simpl. apply Z.mod_pos_bound. lia. }
    destruct (sock_pool_run_bounded ops _ Hb) as [H1 H2].
    unfold idle_bounded in H1. rewrite H2 in H1. exact H1.
Qed.

End SockPool.


(** Resetting an I/O context closes at most its accept socket, which is
    then the invalid handle. *)
Lemma IOCP_IoContext_Reset_only_closes c : only_closes_invalid (fst (IOCP_IoContext_Reset c)).
Proof.
  destruct (IOCP_IoContext_Reset_fields c) as (_ & _ & _ & _ & _ & _ & E).
  cbv zeta in E. rewrite E. unfold only_closes_invalid.
  destruct (INVALID_SOCKET =? sock_accept_ c); repeat constructor.
Qed.

(** Returning a list of distinct live I/O contexts to their pool. *)
Lemma for_each_PutIoContext_trace (l : list io_ptr) : forall w,
  NoDup l -> Forall (live_heap w) l ->
  exists w' evs,
    for_each l PutIoContext w = (Returns tt, w') /\
    socks w' = socks w /\
    pool_sock_context_ w' = pool_sock_context_ w /\
    trace w' = trace w ++ evs /\ only_closes_invalid evs.
Proof.
  induction l as [|p rest IH]; intros w Hnd Hall.
  - exists w, []. simpl. rewrite app_nil_r. repeat split; constructor.
  - inversion Hnd as [|? ? Hnotin Hnd']; subst.
    inversion Hall as [|? ? (a & -> & [c Hc]) Hall']; subst.
    destruct (PutIoContext_heap_returns a c w Hc) as (w1 & E1 & Hs1 & Hp1 & Ht1 & Hk1).
    assert (Hall1 : Forall (live_heap w1) rest).
    { rewrite Forall_forall in Hall' |- *. intros q Hq.
      destruct (Hall' q Hq) as (a' & -> & Hlive). exists a'. split; [reflexivity|].
      rewrite Hk1; [exact Hlive|]. intros ->. apply Hnotin. exact Hq. }
    destruct (IH w1 Hnd' Hall1) as (w' & evs & E & Hs & Hp & Ht & Hq).
    exists w', (fst (IOCP_IoContext_Reset c) ++ evs).
    cbn [for_each]. unfold bind. rewrite E1, E.
    split; [reflexivity|]. split; [congruence|]. split; [congruence|]. split.
    + rewrite Ht, Ht1, app_assoc. reflexivity.
    + apply Forall_app. split; [apply IOCP_IoContext_Reset_only_closes | exact Hq].
Qed.

(** [IOCP_SocketContext::Reset] on a live context whose outstanding I/O
    contexts are distinct and live. *)
Lemma IOCP_SocketContext_Reset_effect sh s w :
  socks w !! sh = Some s ->
  NoDup (list_io_context_ s) -> Forall (live_heap w) (list_io_context_ s) ->
  exists w' evs s',
    IOCP_SocketContext_Reset (Some sh) w = (Returns tt, w') /\
    pool_sock_context_ w' = pool_sock_context_ w /\
    trace w' = trace w
      ++ (if INVALID_SOCKET =? sock_ s then []
          else [shutdown (sock_ s) SD_SEND; closesocket (sock_ s)])
      ++ evs /\
    only_closes_invalid evs /\
    socks w' !! sh = Some s' /\ sock_id_ s' = 0 /\ sock_ s' = INVALID_SOCKET /\
    list_io_context_ s' = [] /\ is_listen_sock_ s' = false /\
    local_addr_ s' = SOCKADDR_IN_zero /\
    (forall sh', sh' <> sh -> socks w' !! sh' = socks w !! sh').
Proof.
  intros Hs Hnd Hall.
  unfold IOCP_SocketContext_Reset.
  unfold bind at 1. rewrite (update_sock_live sh s _ w Hs).
  set (w1 := set_socks _ w).
  assert (H1 : socks w1 !! sh = Some (set_sock_id_ 0 s)) by apply lookup_insert_eq.
  unfold bind at 1. rewrite (update_sock_live sh _ _ w1 H1).
  set (w2 := set_socks _ w1).
  set (s2 := set_is_listen_sock_ false (set_sock_id_ 0 s)) in *.
  assert (H2 : socks w2 !! sh = Some s2) by apply lookup_insert_eq.
  unfold bind at 1. rewrite (read_sock_live sh _ w2 H2).
  assert (Hoth2 : forall sh', sh' <> sh -> socks w2 !! sh' = socks w !! sh').
  { intros sh' Hne. unfold w2, w1. cbn. rewrite !lookup_insert_ne by congruence. reflexivity. }
  set (evs3 := if INVALID_SOCKET =? sock_ s then []
               else [shutdown (sock_ s) SD_SEND; closesocket (sock_ s)]).
  assert (Hclose : exists w3 s3,
            (if negb (INVALID_SOCKET =? sock_ s2)
             then
               let* _ := emit (shutdown (sock_ s2) SD_SEND) in
               let* _ := emit (closesocket (sock_ s2)) in
               update_sock (Some sh) (set_sock_ INVALID_SOCKET)
             else ret tt) w2 = (Returns tt, w3) /\
            socks w3 !! sh = Some s3 /\ sock_ s3 = INVALID_SOCKET /\
            list_io_context_ s3 = list_io_context_ s /\ sock_id_ s3 = 0 /\
            is_listen_sock_ s3 = false /\
            ios w3 = ios w /\ pool_sock_context_ w3 = pool_sock_context_ w /\
            trace w3 = trace w ++ evs3 /\
            (forall sh', sh' <> sh -> socks w3 !! sh' = socks w !! sh')).
  { subst evs3. change (sock_ s2) with (sock_ s).
    destruct (Z.eqb_spec INVALID_SOCKET (sock_ s)) as [Ei|Ei]; cbn [negb].
    - exists w2, s2. rewrite app_nil_r.
      repeat split; try reflexivity; try assumption. symmetry. exact Ei.
    - unfold bind at 1, emit, modify. unfold bind at 1.
      set (w2' := set_trace _ (set_trace _ w2)).
      assert (H2' : socks w2' !! sh = Some s2) by exact H2.
      rewrite (update_sock_live sh _ _ w2' H2').
      eexists _, _.
      split; [reflexivity|]. split; [apply lookup_insert_eq|].
      repeat split; try reflexivity.
      + cbn. rewrite <- app_assoc. reflexivity.
      + intros sh' Hne. cbn. rewrite lookup_insert_ne by congruence.
        apply Hoth2. exact Hne. }
  destruct Hclose as (w3 & s3 & E3 & H3 & Hsock3 & Hlist3 & Hid3 & Hlis3 & Hios3 & Hpool3 & Htr3 & Hoth3).
  unfold bind at 1. rewrite E3.
  unfold bind at 1. rewrite (update_sock_live sh _ _ w3 H3).
  set (w4 := set_socks _ w3).
  assert (H4 : socks w4 !! sh = Some (set_local_addr_ SOCKADDR_IN_zero s3))
    by apply lookup_insert_eq.
  unfold bind at 1. rewrite (Reset_at_recv sh _ w4 H4).
  set (s5 := set_recv_context_ _ (set_local_addr_ SOCKADDR_IN_zero s3)).
  set (evs5 := fst (IOCP_IoContext_Reset (recv_context_ (set_local_addr_ SOCKADDR_IN_zero s3)))).
  set (w5 := set_socks _ (set_trace _ w4)).
  assert (H5 : socks w5 !! sh = Some s5) by apply lookup_insert_eq.
  unfold bind at 1. rewrite (read_sock_live sh _ w5 H5).
  assert (Hlist5 : list_io_context_ s5 = list_io_context_ s) by exact Hlist3.
  assert (Hall5 : Forall (live_heap w5) (list_io_context_ s5)).
  { rewrite Hlist5. rewrite Forall_forall in Hall |- *. intros q Hq.
    destruct (Hall q Hq) as (a & -> & Hlive). exists a. split; [reflexivity|].
    change (ios w5) with (ios w3). rewrite Hios3. exact Hlive. }
  destruct (for_each_PutIoContext_trace (list_io_context_ s5) w5
              ltac:(rewrite Hlist5; exact Hnd) Hall5)
    as (w6 & evs6 & E6 & Hs6 & Hp6 & Ht6 & Hq6).
  unfold bind at 1. rewrite E6.
  assert (H6 : socks w6 !! sh = Some s5) by (rewrite Hs6; exact H5).
  rewrite (update_sock_live sh _ _ w6 H6).
  eexists _, (evs5 ++ evs6), _. split; [reflexivity|].
  split; [exact (eq_trans Hp6 Hpool3)|].
  split.
  { cbn. rewrite Ht6. change (trace w5) with (trace w3 ++ evs5). rewrite Htr3.
    rewrite <- !app_assoc. reflexivity. }
  split.
  { apply Forall_app. split; [apply IOCP_IoContext_Reset_only_closes|exact Hq6]. }
  split; [apply lookup_insert_eq|].
  split; [exact Hid3|]. split; [exact Hsock3|]. split; [reflexivity|].
  split; [exact Hlis3|]. split; [reflexivity|].
  intros sh' Hne. cbn. rewrite lookup_insert_ne by congruence. rewrite Hs6.
  unfold w5, w4. cbn. rewrite !lookup_insert_ne by congruence. apply Hoth3. exact Hne.
Qed.

(** X18. [CloseSocket] of the three facades, for the id of an active socket
    whose context is live and whose outstanding I/O contexts are distinct and
    live: the id leaves the active map; the socket, unless it is the invalid
    handle, is shut down for sending and closed, and nothing else is done to
    the system but closing invalid handles; the context is left with id 0,
    the invalid handle and no outstanding I/O context, and goes to the end of
    the idle list when the list is below the capacity. *)
Theorem CloseSocket_closes_and_recycles (key sh : Z) (s : IOCP_SocketContext) (w : World) :
  map_active_ (pool_sock_context_ w) !! key = Some sh ->
  socks w !! sh = Some s ->
  NoDup (list_io_context_ s) -> Forall (live_heap w) (list_io_context_ s) ->
  exists w1 evs s',
    IOCP_TCPClient_CloseSocket key w = (Returns tt, w1) /\
    IOCP_TCPServer_CloseSocket key w = (Returns tt, w1) /\
    IOCP_UDPNode_CloseSocket key w = (Returns tt, w1) /\
    map_active_ (pool_sock_context_ w1) = delete key (map_active_ (pool_sock_context_ w)) /\
    trace w1 = trace w
      ++ (if INVALID_SOCKET =? sock_ s then []
          else [shutdown (sock_ s) SD_SEND; closesocket (sock_ s)])
      ++ evs /\
    only_closes_invalid evs /\
    socks w1 !! sh = Some s' /\ sock_id_ s' = 0 /\ sock_ s' = INVALID_SOCKET /\
    list_io_context_ s' = [] /\ is_listen_sock_ s' = false /\
    list_idle_ (pool_sock_context_ w1) =
      (if idle_length w <? sock_pool_size_ (pool_sock_context_ w)
       then list_idle_ (pool_sock_context_ w) ++ [Some sh]
       else list_idle_ (pool_sock_context_ w)).
Proof.
  intros Hact Hs Hnd Hall.
  set (w0 := set_pool_sock_context_
               (mkSocketContextPool (list_idle_ (pool_sock_context_ w))
                  (sock_pool_size_ (pool_sock_context_ w))
                  (delete key (map_active_ (pool_sock_context_ w)))) w).
  destruct (IOCP_SocketContext_Reset_effect sh s w0 Hs Hnd Hall)
    as (w' & evs & s' & E & Hp & Ht & Hq & Hs' & Hid & Hsock & Hlist & Hlis & _ & _).
  assert (ED : DelActiveContext key w = push_idle (Some sh) w').
  { unfold DelActiveContext. unfold bind at 1, get. rewrite Hact.
    unfold bind at 1, put. fold w0. unfold bind. rewrite E. reflexivity. }
  unfold IOCP_TCPClient_CloseSocket, IOCP_TCPServer_CloseSocket, IOCP_UDPNode_CloseSocket.
  rewrite ED. unfold push_idle, bind, get, put, ret, idle_length. rewrite Hp. cbn.
  destruct (Z.of_nat (length (list_idle_ (pool_sock_context_ w)))
            <? sock_pool_size_ (pool_sock_context_ w)).
  - eexists _, evs, s'. do 3 (split; [reflexivity|]).
    cbn. split; [reflexivity|]. split; [exact Ht|].
    repeat (split; [assumption|]). reflexivity.
  - eexists _, evs, s'. do 3 (split; [reflexivity|]).
    split; [rewrite Hp; reflexivity|]. split; [exact Ht|].
    repeat (split; [assumption|]). rewrite Hp. reflexivity.
Qed.

(** X16 at an instance: on the world with one connected socket, closing it,
    taking a context, returning it and clearing the active map leaves one
    idle context. *)
Lemma SocketContextPool_idle_bounded_witness :
  let ops := [sock_del_active 7; sock_get; sock_put (Some 1); sock_clear_active] in
  idle_bounded tcp_connected /\
  idle_bounded (snd (sock_pool_run zeroed zeroed_addr ops tcp_connected)) /\
  idle_length (snd (sock_pool_run zeroed zeroed_addr ops tcp_connected)) = 1.
Proof.
  intros ops.
  assert (H1 : idle_bounded tcp_connected) by (vm_compute; discriminate).
  split; [exact H1|]. split; [|vm_compute; reflexivity].
  exact (proj1 (proj2 (proj2 (SocketContextPool_idle_bounded zeroed zeroed_addr)))
           tcp_connected ops H1).
Defined.


(** X18 at an instance: closing the connected socket 7. *)
Lemma CloseSocket_closes_and_recycles_witness :
  exists s w1 evs s',
    map_active_ (pool_sock_context_ tcp_connected) !! 7 = Some 1 /\
    socks tcp_connected !! 1 = Some s /\ sock_ s = 7 /\ list_io_context_ s = [] /\
    IOCP_TCPClient_CloseSocket 7 tcp_connected = (Returns tt, w1) /\
    map_active_ (pool_sock_context_ w1) !! 7 = None /\
    trace w1 = trace tcp_connected ++ [shutdown 7 SD_SEND; closesocket 7] ++ evs /\
    only_closes_invalid evs /\
    socks w1 !! 1 = Some s' /\ sock_id_ s' = 0 /\ sock_ s' = INVALID_SOCKET /\
    list_idle_ (pool_sock_context_ w1) = [Some 1].
Proof.
  assert (Hact : map_active_ (pool_sock_context_ tcp_connected) !! 7 = Some 1)
    by (vm_compute; reflexivity).
  destruct (socks tcp_connected !! 1) as [s|] eqn:Hs; [|vm_compute in Hs; discriminate].
  assert (Hsock : sock_ s = 7).
  { assert (E : option_map sock_ (socks tcp_connected !! 1) = Some 7)
      by (vm_compute; reflexivity).
    rewrite Hs in E. injection E as E. exact E. }
  assert (Hlist : list_io_context_ s = []).
  { assert (E : option_map list_io_context_ (socks tcp_connected !! 1) = Some [])
      by (vm_compute; reflexivity).
    rewrite Hs in E. injection E as E. exact E. }
  assert (Hnd : NoDup (list_io_context_ s)) by (rewrite Hlist; constructor).
  assert (Hall : Forall (live_heap tcp_connected) (list_io_context_ s))
    by (rewrite Hlist; constructor).
  destruct (CloseSocket_closes_and_recycles 7 1 s tcp_connected Hact Hs Hnd Hall)
    as (w1 & evs & s' & E1 & _ & _ & Hmap & Htr & Hev & Hs' & Hid & Hinv & _ & _ & Hidle).
  exists s, w1, evs, s'.
  split; [exact Hact|]. split; [reflexivity|]. split; [exact Hsock|].
  split; [exact Hlist|]. split; [exact E1|].
  split; [rewrite Hmap; apply lookup_delete_eq|].
  split; [rewrite Hsock in Htr; exact Htr|].
  split; [exact Hev|]. split; [exact Hs'|]. split; [exact Hid|]. split; [exact Hinv|].
  exact Hidle.
Defined.

End SocketPoolFacts.

(** ** Worker threads and facades: completions, errors, sends, connects *)

Module CompletionFacts.

Import IOCP IoContextFacts WorkerFacts SocketPoolFacts.

Section Workers.

Variable indeterminate : Z -> Z.
Variable indeterminate_addr : Z -> SOCKADDR_IN.

(** X19. The four send methods of the facades return [false] and do
    nothing at all when the facade is not started, or when the socket id is
    not in the map of active sockets. *)
Theorem Send_refused (is_start_ : bool) (os : OsAnswers) (sock_id : Z)
    (data : list Z) (data_len dst_ip_addr dst_port : Z) (sock_addr : SOCKADDR_IN) (w : World) :
  is_start_ = false \/ map_active_ (pool_sock_context_ w) !! sock_id = None ->
  IOCP_TCPClient_Send indeterminate is_start_ os sock_id data data_len w = (Returns false, w) /\
  IOCP_TCPServer_Send indeterminate is_start_ os sock_id data data_len w = (Returns false, w) /\
  IOCP_UDPNode_SendTo indeterminate is_start_ os sock_id data data_len dst_ip_addr dst_port w
    = (Returns false, w) /\
  IOCP_UDPNode_SendTo_addr indeterminate is_start_ os sock_id data data_len sock_addr w
    = (Returns false, w).
Proof.
  intros H.
  unfold IOCP_TCPClient_Send, IOCP_TCPServer_Send, IOCP_UDPNode_SendTo, IOCP_UDPNode_SendTo_addr.
  destruct is_start_; cbn [negb]; [|repeat split; reflexivity].
  destruct H as [H|H]; [discriminate|].
  unfold bind. rewrite GetActiveContext_lookup, H. repeat split; reflexivity.
Qed.

(** X20. A failed dequeue whose completion key is the listen socket of the
    server ends the TCP worker thread: the iteration breaks out of the loop
    and the thread function returns 0, whatever the error code is and
    whatever else is queued; no callback is made and nothing is closed. *)
Theorem listen_socket_error_stops_worker (os : OsAnswers) (rest : list OsAnswers)
    (l : Locals) (w : World) (sh : Z) (s : IOCP_SocketContext) :
  gqcs_ret (dequeue os) = false ->
  map_active_ (pool_sock_context_ w) !! sock_id (store_dequeue (dequeue os) l) = Some sh ->
  socks w !! sh = Some s ->
  is_listen_sock_ s = true ->
  TCP._Run_iteration indeterminate indeterminate_addr os l w
    = (Returns (Break, store_dequeue (dequeue os) l), w) /\
  TCP._Run_loop indeterminate indeterminate_addr (os :: rest) l w = (Returns 0, w).
Proof.
  intros Hret Hact Hs Hlis.
  assert (E : TCP._Run_iteration indeterminate indeterminate_addr os l w
              = (Returns (Break, store_dequeue (dequeue os) l), w)).
  { unfold TCP._Run_iteration. rewrite Hret. cbn [negb].
    unfold bind at 1. rewrite GetActiveContext_lookup, Hact.
    unfold TCP._HandleError. unfold bind at 1. unfold bind at 1.
    rewrite (read_sock_live sh s w Hs). rewrite Hlis. reflexivity. }
  split; [exact E|].
  cbn [TCP._Run_loop]. unfold bind. rewrite E. reflexivity.
Qed.

(** X21. A failed dequeue in the UDP worker never changes the state: no
    socket is closed and no callback is made. The loop goes on when the key
    is not an active socket or the error is [WAIT_TIMEOUT] or
    [ERROR_NETNAME_DELETED], and ends on any other error of an active
    socket. *)
Theorem UDP_failed_dequeue_never_disconnects (os : OsAnswers) (l : Locals) (w : World) :
  gqcs_ret (dequeue os) = false ->
  (forall sh, map_active_ (pool_sock_context_ w) !! sock_id (store_dequeue (dequeue os) l)
              = Some sh -> is_Some (socks w !! sh)) ->
  UDP._Run_iteration os l w =
    (Returns
       (if bool_decide (map_active_ (pool_sock_context_ w)
                          !! sock_id (store_dequeue (dequeue os) l) = None)
           || (WAIT_TIMEOUT =? gqcs_error (dequeue os))
           || (ERROR_NETNAME_DELETED =? gqcs_error (dequeue os))
        then Continue else Break,
        store_dequeue (dequeue os) l), w).
Proof.
  intros Hret Hlive. unfold UDP._Run_iteration. rewrite Hret. cbn [negb].
  unfold bind at 1. rewrite GetActiveContext_lookup.
  destruct (map_active_ (pool_sock_context_ w) !! sock_id (store_dequeue (dequeue os) l))
    as [sh|] eqn:Hact.
  - destruct (Hlive sh eq_refl) as [s Hs].
    unfold UDP._HandleError. unfold bind at 1. unfold bind at 1.
    rewrite (read_sock_live sh s w Hs).
    rewrite bool_decide_eq_false_2 by discriminate. cbn [orb].
    destruct (WAIT_TIMEOUT =? gqcs_error (dequeue os)); [reflexivity|].
    destruct (ERROR_NETNAME_DELETED =? gqcs_error (dequeue os)); reflexivity.
  - rewrite bool_decide_eq_true_2 by reflexivity. reflexivity.
Qed.

(** Two updates of the same live socket context. *)
Lemma update_sock_twice sh s f g w : socks w !! sh = Some s ->
  (let* _ := update_sock (Some sh) f in update_sock (Some sh) g) w
  = (Returns tt, set_socks (<[sh := g (f s)]> (socks w)) w).
Proof.
  intros Hs. unfold bind. rewrite (update_sock_live sh s f w Hs).
  rewrite (update_sock_live sh (f s) g) by apply lookup_insert_eq.
  cbn. rewrite insert_insert_eq. reflexivity.
Qed.

(** [PostRecv] of the TCP worker when the receive is posted. *)
Lemma TCP_PostRecv_ok os sh s w :
  socks w !! sh = Some s ->
  fst (recv_post os) = 0 \/ snd (recv_post os) = WSA_IO_PENDING ->
  TCP.PostRecv os (Some sh) w =
    (Returns true,
     set_trace (trace w ++ [WSARecv (sock_ s) (RecvIo sh)])
       (set_socks (<[sh := recv_posted s]> (socks w)) w)).
Proof.
  intros Hs Hok. unfold TCP.PostRecv.
  unfold bind at 1. rewrite (update_sock_live sh s _ w Hs).
  unfold bind at 1. rewrite (update_sock_live sh _ _ _ (lookup_insert_eq _ _ _)).
  unfold bind at 1. rewrite (read_sock_live sh _ _ (lookup_insert_eq _ _ _)).
  unfold bind at 1, emit, modify.
  assert (Hc : negb (0 =? fst (recv_post os)) && negb (WSA_IO_PENDING =? snd (recv_post os)) = false).
  { destruct Hok as [-> | ->]; [reflexivity|]. rewrite Z.eqb_refl. apply andb_false_r. }
  rewrite Hc. unfold ret. cbn. rewrite insert_insert_eq. reflexivity.
Qed.

(** [PostRecv] of the UDP worker: the state is the same whether or not the
    receive is posted. *)
Lemma UDP_PostRecv_posts os sh s w :
  socks w !! sh = Some s ->
  UDP.PostRecv os (Some sh) w =
    (Returns (negb (negb (0 =? fst (recv_post os))
                    && negb (WSA_IO_PENDING =? snd (recv_post os)))),
     set_trace (trace w ++ [WSARecvFrom (sock_ s) (RecvIo sh)])
       (set_socks (<[sh := udp_recv_posted s]> (socks w)) w)).
Proof.
  intros Hs. unfold UDP.PostRecv.
  unfold bind at 1. rewrite (update_sock_live sh s _ w Hs).
  unfold bind at 1. rewrite (update_sock_live sh _ _ _ (lookup_insert_eq _ _ _)).
  unfold bind at 1. rewrite (update_sock_live sh _ _ _ (lookup_insert_eq _ _ _)).
  unfold bind at 1. rewrite (read_sock_live sh _ _ (lookup_insert_eq _ _ _)).
  unfold bind at 1, emit, modify.
  destruct (negb (0 =? fst (recv_post os)) && negb (WSA_IO_PENDING =? snd (recv_post os)));
    unfold ret; cbn; rewrite !insert_insert_eq; reflexivity.
Qed.

(** X22. A dequeued receive completion on an active socket. The TCP
    worker, when bytes were received and the next receive can be posted,
    records the byte count, calls [ReceivedCallback] with the socket id, the
    receive buffer of the socket context and the count, and posts the next
    receive with the buffer cleared. The UDP worker does the same with
    [ReceiveFromCallback], which also gets the sender's address, for any
    byte count and whether or not the next receive can be posted. The loop
    goes on in both. *)
Theorem recv_completion_delivers_and_reposts
    (os : OsAnswers) (l : Locals) (w : World) (key bytes sh : Z) (p : io_ptr)
    (io : IOCP_IoContext) (s : IOCP_SocketContext) :
  gqcs_ret (dequeue os) = true ->
  gqcs_bytes (dequeue os) = Some bytes ->
  gqcs_key (dequeue os) = Some key ->
  gqcs_overlapped (dequeue os) = Some p ->
  read_io p w = (Returns io, w) ->
  operation_ io = RECV_POSTED ->
  map_active_ (pool_sock_context_ w) !! key = Some sh ->
  socks w !! sh = Some s ->
  (bytes <> 0 -> fst (recv_post os) = 0 \/ snd (recv_post os) = WSA_IO_PENDING ->
   TCP._Run_iteration indeterminate indeterminate_addr os l w =
     (Returns (Continue, mkLocals bytes key (Some p) (Some p)),
      set_trace
        (trace w ++ [ReceivedCallback (sock_id_ s) (buf_ (recv_context_ s)) (int32_t bytes);
                     WSARecv (sock_ s) (RecvIo sh)])
        (set_socks
           (<[sh := recv_posted
                      (set_recv_context_ (set_trans_len_ (int32_t bytes) (recv_context_ s)) s)]>
              (socks w)) w))) /\
  UDP._Run_iteration os l w =
    (Returns (Continue, mkLocals bytes key (Some p) (Some p)),
     set_trace
       (trace w ++ [ReceiveFromCallback (sock_id_ s) (buf_ (recv_context_ s)) (int32_t bytes)
                      (remote_addr_ (recv_context_ s));
                    WSARecvFrom (sock_ s) (RecvIo sh)])
       (set_socks
          (<[sh := udp_recv_posted
                     (set_recv_context_ (set_trans_len_ (int32_t bytes) (recv_context_ s)) s)]>
             (socks w)) w)).
Proof.
  intros Hret Hbytes Hkey Hov Hio Hop Hact Hs. split.
  - intros Hnz Hok.
    unfold TCP._Run_iteration, store_dequeue, CONTAINING_RECORD.
    rewrite Hret, Hbytes, Hkey, Hov.
    cbn [default from_option id sock_id bytes_transfered overlapped io_data negb].
    unfold bind at 1. rewrite GetActiveContext_lookup, Hact.
    unfold bind at 1. rewrite Hio, Hop.
    destruct (Z.eqb_spec 0 bytes); [congruence|]. cbn [andb].
    unfold bind at 1. rewrite (update_sock_live sh s _ w Hs).
    set (s1 := set_recv_context_ _ s).
    set (w1 := set_socks _ w).
    assert (H1 : socks w1 !! sh = Some s1) by apply lookup_insert_eq.
    unfold TCP._DoRecv. unfold bind at 1. unfold bind at 1.
    rewrite (read_sock_live sh s1 w1 H1).
    unfold bind at 1, emit, modify.
    set (w2 := set_trace _ w1).
    assert (H2 : socks w2 !! sh = Some s1) by exact H1.
    rewrite (TCP_PostRecv_ok os sh s1 w2 H2 Hok).
    unfold ret. cbn. rewrite insert_insert_eq, <- app_assoc. reflexivity.
  - unfold UDP._Run_iteration, store_dequeue, CONTAINING_RECORD.
    rewrite Hret, Hbytes, Hkey, Hov.
    cbn [default from_option id sock_id bytes_transfered overlapped io_data negb].
    unfold bind at 1. rewrite GetActiveContext_lookup, Hact.
    unfold bind at 1. rewrite Hio, Hop.
    unfold bind at 1. rewrite (update_sock_live sh s _ w Hs).
    set (s1 := set_recv_context_ _ s).
    set (w1 := set_socks _ w).
    assert (H1 : socks w1 !! sh = Some s1) by apply lookup_insert_eq.
    unfold UDP._DoRecv. unfold bind at 1. unfold bind at 1.
    rewrite (read_sock_live sh s1 w1 H1).
    unfold bind at 1, emit, modify.
    set (w2 := set_trace _ w1).
    assert (H2 : socks w2 !! sh = Some s1) by exact H1.
    rewrite (UDP_PostRecv_posts os sh s1 w2 H2).
    unfold ret. cbn. rewrite insert_insert_eq, <- app_assoc. reflexivity.
Qed.


(** The tail shared by [PostRecv] and [PostSend] of the TCP worker when the
    post failed. *)
Lemma failed_post_tail (sh : Z) (s2 : IOCP_SocketContext) (w2 : World) :
  socks w2 !! sh = Some s2 ->
  map_active_ (pool_sock_context_ w2) !! sock_id_ s2 = Some sh ->
  NoDup (list_io_context_ s2) -> Forall (live_heap w2) (list_io_context_ s2) ->
  exists w1 evs,
    (let* s1 := read_sock (Some sh) in
     let* _ := DelActiveContext (sock_id_ s1) in
     let* s2 := read_sock (Some sh) in
     let* _ := emit (DisconnectedCallback (sock_id_ s2)) in
     ret false) w2 = (Returns false, w1) /\
    map_active_ (pool_sock_context_ w1) !! sock_id_ s2 = None /\
    trace w1 = trace w2 ++ evs ++ [DisconnectedCallback 0] /\
    quiet evs.
Proof.
  intros H2 Hact Hnd Hall.
  unfold bind at 1. rewrite (read_sock_live sh s2 w2 H2).
  set (w0 := set_pool_sock_context_
               (mkSocketContextPool (list_idle_ (pool_sock_context_ w2))
                  (sock_pool_size_ (pool_sock_context_ w2))
                  (delete (sock_id_ s2) (map_active_ (pool_sock_context_ w2)))) w2).
  assert (H0 : socks w0 !! sh = Some s2) by exact H2.
  destruct (IOCP_SocketContext_Reset_effect sh s2 w0 H0 Hnd Hall)
    as (w' & evs & s' & E & Hp & Ht & Hq & Hs' & Hid & _).
  assert (ED : DelActiveContext (sock_id_ s2) w2 = push_idle (Some sh) w').
  { unfold DelActiveContext. unfold bind at 1, get. rewrite Hact.
    unfold bind at 1, put. unfold bind. fold w0. rewrite E. reflexivity. }
  unfold bind at 1. rewrite ED.
  assert (EP : exists w3, push_idle (Some sh) w' = (Returns tt, w3) /\
                 socks w3 = socks w' /\ trace w3 = trace w' /\
                 map_active_ (pool_sock_context_ w3) = map_active_ (pool_sock_context_ w')).
  { unfold push_idle, bind, get, put, ret.
    destruct (_ <? _); eexists; (split; [reflexivity|]); repeat split; reflexivity. }
  destruct EP as (w3 & EP & Hs3 & Ht3 & Hm3). rewrite EP.
  unfold bind at 1. rewrite (read_sock_live sh s' w3) by (rewrite Hs3; exact Hs').
  rewrite Hid. unfold bind, emit, modify, ret.
  set (pre := if INVALID_SOCKET =? sock_ s2 then []
              else [shutdown (sock_ s2) SD_SEND; closesocket (sock_ s2)]) in *.
  eexists _, (pre ++ evs). split; [reflexivity|]. split; [|split].
  - cbn. rewrite Hm3, Hp. cbn. apply lookup_delete_eq.
  - cbn. rewrite Ht3, Ht. unfold w0. cbn. rewrite <- !app_assoc. reflexivity.
  - apply Forall_app. split.
    + unfold pre. destruct (INVALID_SOCKET =? sock_ s2); repeat constructor.
    + unfold only_closes_invalid in Hq. rewrite Forall_forall in Hq |- *.
      intros e He. rewrite (Hq e He). reflexivity.
Qed.

(** X24. When [PostRecv] or [PostSend] of the TCP worker fails to post, the
    socket is taken out of the active map, and [DisconnectedCallback] is then
    called with the id 0, not with the id of the socket: the id is read
    again from the socket context after the context was reset. *)
Theorem post_failure_reports_id_zero (os : OsAnswers) (sh : Z) (s : IOCP_SocketContext)
    (w : World) :
  socks w !! sh = Some s ->
  map_active_ (pool_sock_context_ w) !! sock_id_ s = Some sh ->
  NoDup (list_io_context_ s) -> Forall (live_heap w) (list_io_context_ s) ->
  (fst (recv_post os) <> 0 -> snd (recv_post os) <> WSA_IO_PENDING ->
   exists w1 evs,
     TCP.PostRecv os (Some sh) w = (Returns false, w1) /\
     map_active_ (pool_sock_context_ w1) !! sock_id_ s = None /\
     trace w1 = trace w ++ [WSARecv (sock_ s) (RecvIo sh)] ++ evs ++ [DisconnectedCallback 0] /\
     quiet evs) /\
  (forall a c, ios w !! a = Some c ->
   fst (send_post os) <> 0 -> snd (send_post os) <> WSA_IO_PENDING ->
   exists w1 evs,
     TCP.PostSend os (Some sh) (HeapIo a) w = (Returns false, w1) /\
     map_active_ (pool_sock_context_ w1) !! sock_id_ s = None /\
     trace w1 = trace w ++ [WSASend (sock_ s) (HeapIo a)] ++ evs ++ [DisconnectedCallback 0] /\
     quiet evs).
Proof.
  intros Hs Hact Hnd Hall. split.
  - intros Hrc Herr.
    unfold TCP.PostRecv.
    unfold bind at 1. rewrite (update_sock_live sh s _ w Hs).
    unfold bind at 1. rewrite (update_sock_live sh _ _ _ (lookup_insert_eq _ _ _)).
    unfold bind at 1. rewrite (read_sock_live sh _ _ (lookup_insert_eq _ _ _)).
    unfold bind at 1, emit, modify.
    assert (Hc : negb (0 =? fst (recv_post os)) && negb (WSA_IO_PENDING =? snd (recv_post os)) = true).
    { destruct (Z.eqb_spec 0 (fst (recv_post os))); [congruence|].
      destruct (Z.eqb_spec WSA_IO_PENDING (snd (recv_post os))); [congruence|]. reflexivity. }
    rewrite Hc. cbn [sock_ set_recv_context_].
    match goal with |- exists _ _, _ ?w' = _ /\ _ => set (w2 := w') end.
    assert (H2 : socks w2 !! sh = Some (recv_posted s)).
    { unfold w2. cbn. rewrite insert_insert_eq. apply lookup_insert_eq. }
    destruct (failed_post_tail sh (recv_posted s) w2 H2 Hact Hnd Hall)
      as (w1 & evs & E & Hgone & Ht & Hq).
    exists w1, evs. split; [exact E|]. split; [exact Hgone|]. split; [|exact Hq].
    rewrite Ht. unfold w2. cbn. rewrite <- !app_assoc. reflexivity.
  - intros a c Hc Hrc Herr.
    unfold TCP.PostSend.
    unfold bind at 1. unfold update_io. unfold bind at 1.
    rewrite (read_io_heap a c w Hc), (write_io_heap a c _ w Hc).
    unfold bind at 1.
    rewrite (read_sock_live sh s) by exact Hs.
    unfold bind at 1, emit, modify.
    assert (Hcond : negb (0 =? fst (send_post os)) && negb (WSA_IO_PENDING =? snd (send_post os)) = true).
    { destruct (Z.eqb_spec 0 (fst (send_post os))); [congruence|].
      destruct (Z.eqb_spec WSA_IO_PENDING (snd (send_post os))); [congruence|]. reflexivity. }
    rewrite Hcond.
    match goal with |- exists _ _, _ ?w' = _ /\ _ => set (w2 := w') end.
    assert (H2 : socks w2 !! sh = Some s) by exact Hs.
    assert (Hall2 : Forall (live_heap w2) (list_io_context_ s)).
    { rewrite Forall_forall in Hall |- *. intros q Hq.
      destruct (Hall q Hq) as (a' & -> & Hlive). exists a'. split; [reflexivity|].
      unfold w2. cbn. destruct (decide (a' = a)) as [->|Hne].
      - rewrite lookup_insert_eq. eexists; reflexivity.
      - rewrite lookup_insert_ne by congruence. exact Hlive. }
    destruct (failed_post_tail sh s w2 H2 Hact Hnd Hall2)
      as (w1 & evs & E & Hgone & Ht & Hq).
    exists w1, evs. split; [exact E|]. split; [exact Hgone|]. split; [|exact Hq].
    rewrite Ht. unfold w2. cbn. rewrite <- !app_assoc. reflexivity.
Qed.

(** [GetIoContext] on a pool whose head is ready gives an allocated
    context with a full-size buffer and changes nothing else. *)
Lemma GetIoContext_ready (w : World) : pool_head_ready w ->
  exists a c w0,
    GetIoContext indeterminate w = (Returns (HeapIo a), w0) /\
    ios w0 !! a = Some c /\ size_of (buf_ c) = MAX_IO_BUFFER_SIZE /\
    socks w0 = socks w /\ pool_sock_context_ w0 = pool_sock_context_ w /\
    trace w0 = trace w.
Proof.
  intros Hready. unfold GetIoContext, new_IoContext, bind, get, put, ret.
  unfold pool_head_ready, pool_list in Hready.
  destruct (pool_list_io_context_ (pool_io_context_ w)) as [|p rest] eqn:E.
  - eexists _, _, _. split; [reflexivity|]. cbn. split; [apply lookup_insert_eq|].
    repeat split; reflexivity.
  - destruct (Hready p rest eq_refl) as (a & c & -> & Hc & Hsz).
    exists a, c. eexists. split; [reflexivity|]. cbn. repeat split; assumption.
Qed.

(** X25. [Send] of the TCP client and of the TCP server, started, for an
    active socket and a payload that fits one I/O buffer, when the send can
    be posted: it returns [true]; one [WSASend] is issued on the socket with
    an I/O context that holds the payload at the start of its buffer, the
    payload length as buffer length and the operation [SEND_POSTED], and
    that context is appended to the list of the socket context. *)
Theorem Send_posts_payload (os : OsAnswers) (sock_id sh : Z) (s : IOCP_SocketContext)
    (data : list Z) (data_len : Z) (w : World) :
  map_active_ (pool_sock_context_ w) !! sock_id = Some sh ->
  socks w !! sh = Some s ->
  pool_head_ready w ->
  size_of data = data_len -> data_len <= MAX_IO_BUFFER_SIZE ->
  fst (send_post os) = 0 \/ snd (send_post os) = WSA_IO_PENDING ->
  exists a c1 w1,
    IOCP_TCPClient_Send indeterminate true os sock_id data data_len w = (Returns true, w1) /\
    IOCP_TCPServer_Send indeterminate true os sock_id data data_len w = (Returns true, w1) /\
    trace w1 = trace w ++ [WSASend (sock_ s) (HeapIo a)] /\
    ios w1 !! a = Some c1 /\
    take (Z.to_nat data_len) (buf_ c1) = data /\
    size_of (buf_ c1) = MAX_IO_BUFFER_SIZE /\
    WSABUF_len (wsa_buf_ c1) = data_len /\
    operation_ c1 = SEND_POSTED /\
    socks w1 = <[sh := set_list_io_context_ (list_io_context_ s ++ [HeapIo a]) s]> (socks w) /\
    pool_sock_context_ w1 = pool_sock_context_ w.
Proof.
  intros Hact Hs Hready Hlen Hfit Hok.
  pose proof (MemFacts.size_of_nonneg data) as Hnn.
  destruct (GetIoContext_ready w Hready) as (a & c & w0 & EG & Hc & Hsz & Hs0 & Hp0 & Ht0).
  assert (Hr0 : read_io (HeapIo a) w0 = (Returns c, w0)) by (apply read_io_heap; exact Hc).
  destruct (memcpy_to_buf__outcome (HeapIo a) c data data_len w0 Hr0 Hsz Hlen
              ltac:(unfold MAX_IO_BUFFER_SIZE in *; lia)) as [EM _].
  specialize (EM Hfit).
  set (c0 := set_buf_ (data ++ drop (Z.to_nat data_len) (buf_ c)) c) in *.
  rewrite (write_io_heap a c c0 w0 Hc) in EM.
  set (w1 := set_ios (<[a := c0]> (ios w0)) w0) in *.
  assert (Hu : uint32_t data_len = data_len).
  { unfold uint32_t. apply Z.mod_small. unfold MAX_IO_BUFFER_SIZE in *. lia. }
  assert (E2 : update_io (HeapIo a) (set_wsa_buf_len (uint32_t data_len)) w1
               = (Returns tt, set_ios (<[a := set_wsa_buf_len data_len c0]> (ios w0)) w0)).
  { unfold update_io, bind. rewrite (read_io_heap a c0 w1) by apply lookup_insert_eq.
    rewrite (write_io_heap a c0 _ w1) by apply lookup_insert_eq.
    rewrite Hu. unfold w1. cbn. rewrite insert_insert_eq. reflexivity. }
  set (w2 := set_ios (<[a := set_wsa_buf_len data_len c0]> (ios w0)) w0) in *.
  assert (Hs2 : socks w2 !! sh = Some s) by (change (socks w2) with (socks w0); rewrite Hs0; exact Hs).
  assert (E3 : AddContext (Some sh) (HeapIo a) w2
               = (Returns tt,
                  set_socks (<[sh := set_list_io_context_ (list_io_context_ s ++ [HeapIo a]) s]>
                               (socks w2)) w2)).
  { unfold AddContext.
    exact (update_sock_live sh s
             (fun s => set_list_io_context_ (list_io_context_ s ++ [HeapIo a]) s) w2 Hs2). }
  set (s3 := set_list_io_context_ (list_io_context_ s ++ [HeapIo a]) s) in *.
  set (w3 := set_socks (<[sh := s3]> (socks w2)) w2) in *.
  set (c4 := set_operation_ SEND_POSTED (set_wsa_buf_len data_len c0)).
  assert (E4 : TCP.PostSend os (Some sh) (HeapIo a) w3
               = (Returns true,
                  set_trace (trace w3 ++ [WSASend (sock_ s) (HeapIo a)])
                    (set_ios (<[a := c4]> (ios w3)) w3))).
  { unfold TCP.PostSend. unfold bind at 1. unfold update_io. unfold bind at 1.
    rewrite (read_io_heap a (set_wsa_buf_len data_len c0) w3) by apply lookup_insert_eq.
    rewrite (write_io_heap a (set_wsa_buf_len data_len c0) _ w3) by apply lookup_insert_eq.
    unfold bind at 1.
    rewrite (read_sock_live sh s3) by apply lookup_insert_eq.
    unfold bind at 1, emit, modify.
    assert (Hcond : negb (0 =? fst (send_post os)) && negb (WSA_IO_PENDING =? snd (send_post os)) = false).
    { destruct Hok as [-> | ->]; [reflexivity|]. rewrite Z.eqb_refl. apply andb_false_r. }
    rewrite Hcond. reflexivity. }
  assert (ES : IOCP_TCPClient_Send indeterminate true os sock_id data data_len w
               = (Returns true,
                  set_trace (trace w3 ++ [WSASend (sock_ s) (HeapIo a)])
                    (set_ios (<[a := c4]> (ios w3)) w3))).
  { unfold IOCP_TCPClient_Send. cbn [negb].
    unfold bind at 1. rewrite GetActiveContext_lookup, Hact.
    unfold bind at 1. rewrite EG.
    unfold bind at 1. rewrite EM.
    unfold bind at 1. fold w1. rewrite E2.
    unfold bind at 1. fold w2. rewrite E3. fold w3. exact E4. }
  exists a, c4. eexists. split; [exact ES|]. split; [exact ES|].
  split; [cbn; rewrite Ht0; reflexivity|].
  split; [cbn; apply lookup_insert_eq|].
  split.
  { cbn. subst data_len. unfold size_of. rewrite Nat2Z.id. apply take_app_length. }
  split.
  { cbn. rewrite MemFacts.size_of_app. unfold size_of in *. rewrite length_drop. lia. }
  split; [reflexivity|]. split; [reflexivity|].
  split; [cbn; rewrite Hs0; reflexivity|].
  cbn. exact Hp0.
Qed.

(** [GetSocketContext] on a pool whose idle head is ready. *)
Lemma GetSocketContext_ready (w : World) : idle_head_ready w ->
  exists sh s0 w0,
    GetSocketContext indeterminate indeterminate_addr w = (Returns (Some sh), w0) /\
    socks w0 !! sh = Some s0 /\
    map_active_ (pool_sock_context_ w0) = map_active_ (pool_sock_context_ w) /\
    sock_pool_size_ (pool_sock_context_ w0) = sock_pool_size_ (pool_sock_context_ w) /\
    list_idle_ (pool_sock_context_ w0) = tail (list_idle_ (pool_sock_context_ w)) /\
    trace w0 = trace w /\ ios w0 = ios w.
Proof.
  intros Hready. unfold GetSocketContext, bind, get, put, ret.
  unfold idle_head_ready in Hready.
  destruct (list_idle_ (pool_sock_context_ w)) as [|p rest] eqn:E.
  - eexists _, _, _. split; [reflexivity|]. cbn. split; [apply lookup_insert_eq|].
    rewrite E. repeat split; reflexivity.
  - destruct (Hready p rest eq_refl) as (sh & -> & [s0 Hs0]).
    exists sh, s0. eexists. split; [reflexivity|]. cbn. repeat split; assumption.
Qed.

(** What returning a handle to the idle list changes. *)
Lemma push_idle_effect p w :
  exists w1, push_idle p w = (Returns tt, w1) /\
    map_active_ (pool_sock_context_ w1) = map_active_ (pool_sock_context_ w) /\
    trace w1 = trace w /\ socks w1 = socks w /\ ios w1 = ios w /\
    list_idle_ (pool_sock_context_ w1) =
      (if idle_length w <? sock_pool_size_ (pool_sock_context_ w)
       then list_idle_ (pool_sock_context_ w) ++ [p]
       else list_idle_ (pool_sock_context_ w)).
Proof.
  unfold push_idle, bind, get, put, ret, idle_length.
  destruct (_ <? _); eexists; (split; [reflexivity|]); repeat split; reflexivity.
Qed.

(** X26. [Connect] of the TCP client that does not succeed: when the client
    is not started nothing happens; when the socket cannot be created, or
    the connect fails with an error other than [WSAEWOULDBLOCK], it returns
    [false], the active map is as before, the socket, if one was created, is
    closed, no callback is made, and the socket context, holding the invalid
    handle, goes to the end of the idle list when the list is below the
    capacity. *)
Theorem Connect_failure_leaves_nothing_active (os : OsAnswers) (dst_ip_addr dst_port : Z)
    (w : World) :
  idle_head_ready w ->
  IOCP_TCPClient_Connect indeterminate indeterminate_addr false os dst_ip_addr dst_port w
    = (Returns (false, None), w) /\
  (accept_socket os = INVALID_SOCKET \/
   (fst (connect_post os) = SOCKET_ERROR /\ snd (connect_post os) <> WSAEWOULDBLOCK) ->
   exists w1 sh s1,
     IOCP_TCPClient_Connect indeterminate indeterminate_addr true os dst_ip_addr dst_port w
       = (Returns (false, None), w1) /\
     map_active_ (pool_sock_context_ w1) = map_active_ (pool_sock_context_ w) /\
     trace w1 = trace w ++
       (if INVALID_SOCKET =? accept_socket os then [WSASocket]
        else [WSASocket;
              WSAConnect (accept_socket os) (sockaddr_of dst_ip_addr dst_port);
              closesocket (accept_socket os)]) /\
     socks w1 !! sh = Some s1 /\ sock_ s1 = INVALID_SOCKET /\
     list_idle_ (pool_sock_context_ w1) =
       (if Z.of_nat (length (tail (list_idle_ (pool_sock_context_ w))))
           <? sock_pool_size_ (pool_sock_context_ w)
        then tail (list_idle_ (pool_sock_context_ w)) ++ [Some sh]
        else tail (list_idle_ (pool_sock_context_ w)))).
Proof.
  intros Hready. split; [reflexivity|].
  intros Hfail.
  destruct (GetSocketContext_ready w Hready)
    as (sh & s0 & w0 & EG & Hs0 & Hm0 & Hz0 & Hi0 & Ht0 & _).
  unfold IOCP_TCPClient_Connect. cbn [negb].
  unfold bind at 1. rewrite EG.
  unfold bind at 1, emit, modify.
  set (w1 := set_trace _ w0).
  assert (H1 : socks w1 !! sh = Some s0) by exact Hs0.
  unfold bind at 1. rewrite (update_sock_live sh s0 _ w1 H1).
  set (s2 := set_sock_ (accept_socket os) s0).
  set (w2 := set_socks _ w1).
  destruct (Z.eqb_spec INVALID_SOCKET (accept_socket os)) as [Hinv|Hval].
  - destruct (push_idle_effect (Some sh) w2) as (w3 & EP & Hm3 & Ht3 & Hs3 & _ & Hi3).
    unfold PutSocketContext, bind. rewrite EP.
    exists w3, sh, s2. split; [reflexivity|].
    split; [rewrite Hm3; exact Hm0|].
    split; [rewrite Ht3; cbn; rewrite Ht0; reflexivity|].
    split; [rewrite Hs3; apply lookup_insert_eq|].
    split; [cbn; symmetry; exact Hinv|].
    rewrite Hi3. unfold idle_length. cbn. rewrite Hi0, Hz0. reflexivity.
  - destruct Hfail as [Hinv|[Herr Hcode]]; [congruence|].
    fold (sockaddr_of dst_ip_addr dst_port).
    unfold bind at 1.
    rewrite (update_sock_live sh s2 _ w2) by apply lookup_insert_eq.
    set (s3 := set_recv_context_ _ s2).
    set (w3 := set_socks _ w2).
    assert (H3 : socks w3 !! sh = Some s3) by apply lookup_insert_eq.
    unfold bind at 1. rewrite (read_sock_live sh s3 w3 H3).
    unfold bind at 1.
    assert (Hc : (SOCKET_ERROR =? fst (connect_post os))
                 && negb (WSAEWOULDBLOCK =? snd (connect_post os)) = true).
    { rewrite Herr, Z.eqb_refl.
      destruct (Z.eqb_spec WSAEWOULDBLOCK (snd (connect_post os))); [congruence|reflexivity]. }
    rewrite Hc.
    unfold bind at 1.
    set (w4 := set_trace _ (set_trace _ w3)).
    assert (H4 : socks w4 !! sh = Some s3) by exact H3.
    unfold bind at 1. rewrite (update_sock_live sh s3 _ w4 H4).
    set (w5 := set_socks _ w4).
    destruct (push_idle_effect (Some sh) w5) as (w6 & EP & Hm6 & Ht6 & Hs6 & _ & Hi6).
    unfold PutSocketContext, bind. rewrite EP.
    exists w6, sh, (set_sock_ INVALID_SOCKET s3). split; [reflexivity|].
    split; [rewrite Hm6; exact Hm0|].
    split; [rewrite Ht6; cbn; rewrite Ht0, <- !app_assoc; reflexivity|].
    split; [rewrite Hs6; apply lookup_insert_eq|].
    split; [reflexivity|].
    rewrite Hi6. unfold idle_length. cbn. rewrite Hi0, Hz0. reflexivity.
Qed.

(** X27. [Connect] of the started TCP client when every system call
    succeeds: it returns [true] and the socket id, which is the handle
    truncated to 32 bits; the socket context is filed under that id with the
    handle, the remote address built from the arguments and a posted receive;
    the system calls are socket creation, connect, association with the
    completion port under the id, and the receive, in this order. *)
Theorem Connect_registers_socket (os : OsAnswers) (dst_ip_addr dst_port : Z) (w : World) :
  idle_head_ready w ->
  accept_socket os <> INVALID_SOCKET ->
  fst (connect_post os) <> SOCKET_ERROR \/ snd (connect_post os) = WSAEWOULDBLOCK ->
  associate os = true ->
  fst (recv_post os) = 0 \/ snd (recv_post os) = WSA_IO_PENDING ->
  exists w1 sh s1,
    IOCP_TCPClient_Connect indeterminate indeterminate_addr true os dst_ip_addr dst_port w
      = (Returns (true, Some (uint32_t (accept_socket os))), w1) /\
    map_active_ (pool_sock_context_ w1)
      = <[uint32_t (accept_socket os) := sh]> (map_active_ (pool_sock_context_ w)) /\
    socks w1 !! sh = Some s1 /\
    sock_ s1 = accept_socket os /\ sock_id_ s1 = uint32_t (accept_socket os) /\
    operation_ (recv_context_ s1) = RECV_POSTED /\
    remote_addr_ (recv_context_ s1) = sockaddr_of dst_ip_addr dst_port /\
    trace w1 = trace w ++
      [WSASocket;
       WSAConnect (accept_socket os) (sockaddr_of dst_ip_addr dst_port);
       CreateIoCompletionPort (accept_socket os) (uint32_t (accept_socket os));
       WSARecv (accept_socket os) (RecvIo sh)].
Proof.
  intros Hready Hval Hconn Hassoc Hrecv.
  destruct (GetSocketContext_ready w Hready)
    as (sh & s0 & w0 & EG & Hs0 & Hm0 & Hz0 & Hi0 & Ht0 & _).
  unfold IOCP_TCPClient_Connect. cbn [negb].
  unfold bind at 1. rewrite EG.
  unfold bind at 1, emit, modify.
  set (w1 := set_trace _ w0).
  assert (H1 : socks w1 !! sh = Some s0) by exact Hs0.
  unfold bind at 1. rewrite (update_sock_live sh s0 _ w1 H1).
  set (s2 := set_sock_ (accept_socket os) s0).
  set (w2 := set_socks _ w1).
  destruct (Z.eqb_spec INVALID_SOCKET (accept_socket os)) as [Hinv|_]; [congruence|].
  fold (sockaddr_of dst_ip_addr dst_port).
  unfold bind at 1.
  rewrite (update_sock_live sh s2 _ w2) by apply lookup_insert_eq.
  set (s3 := set_recv_context_ _ s2).
  set (w3 := set_socks _ w2).
  assert (H3 : socks w3 !! sh = Some s3) by apply lookup_insert_eq.
  unfold bind at 1. rewrite (read_sock_live sh s3 w3 H3).
  unfold bind at 1.
  assert (Hc : (SOCKET_ERROR =? fst (connect_post os))
               && negb (WSAEWOULDBLOCK =? snd (connect_post os)) = false).
  { destruct Hconn as [Hne | ->].
    - destruct (Z.eqb_spec SOCKET_ERROR (fst (connect_post os))); [congruence|reflexivity].
    - rewrite Z.eqb_refl. apply andb_false_r. }
  rewrite Hc.
  set (w4 := set_trace _ w3).
  assert (H4 : socks w4 !! sh = Some s3) by exact H3.
  unfold bind at 1. rewrite (update_sock_live sh s3 _ w4 H4).
  set (s5 := set_sock_id_ _ s3).
  set (w5 := set_socks _ w4).
  assert (H5 : socks w5 !! sh = Some s5) by apply lookup_insert_eq.
  unfold bind at 1. rewrite (read_sock_live sh s5 w5 H5).
  unfold bind at 1. unfold AddActiveContext. unfold bind at 1.
  rewrite (read_sock_live sh s5 w5 H5). unfold bind at 1, get, put.
  set (w6 := set_pool_sock_context_ _ w5).
  assert (H6 : socks w6 !! sh = Some s5) by exact H5.
  unfold bind at 1. unfold TCP.AssociateWithIOCP. unfold bind at 1.
  rewrite (read_sock_live sh s5 w6 H6). unfold bind at 1, emit, modify, ret.
  rewrite Hassoc. cbn [negb].
  set (w7 := set_trace _ w6).
  assert (H7 : socks w7 !! sh = Some s5) by exact H5.
  unfold bind. rewrite (TCP_PostRecv_ok os sh s5 w7 H7 Hrecv).
  eexists _, sh, (recv_posted s5). split; [reflexivity|].
  split; [cbn; rewrite Hm0; reflexivity|].
  split; [cbn; apply lookup_insert_eq|].
  split; [reflexivity|]. split; [reflexivity|]. split; [reflexivity|].
  split; [reflexivity|].
  cbn. rewrite Ht0, <- !app_assoc. cbn.
  assert (Hu : uint32_t (uint32_t (accept_socket os)) = uint32_t (accept_socket os)).
  { unfold uint32_t. apply Z.mod_mod. lia. }
  rewrite Hu. reflexivity.
Qed.

(** X28. A failed dequeue in the TCP worker whose key is an active socket
    that is not the listen socket. On [WAIT_TIMEOUT] the socket is probed
    with an empty [send]; if the probe succeeds nothing else happens. If the
    probe fails, or the error is [ERROR_NETNAME_DELETED], the socket is taken
    out of the active map and [DisconnectedCallback] is called with its id.
    On any other error the loop ends without a callback. *)
Theorem failed_dequeue_on_connection (os : OsAnswers) (l : Locals) (w : World) (sh : Z)
    (s : IOCP_SocketContext) :
  gqcs_ret (dequeue os) = false ->
  map_active_ (pool_sock_context_ w) !! sock_id (store_dequeue (dequeue os) l) = Some sh ->
  socks w !! sh = Some s ->
  is_listen_sock_ s = false ->
  (forall sh', map_active_ (pool_sock_context_ w) !! sock_id_ s = Some sh' -> shell_ok w sh') ->
  (gqcs_error (dequeue os) = WAIT_TIMEOUT -> probe_send os <> -1 ->
   TCP._Run_iteration indeterminate indeterminate_addr os l w
     = (Returns (Continue, store_dequeue (dequeue os) l),
        set_trace (trace w ++ [send (sock_ s) 0]) w)) /\
  ((gqcs_error (dequeue os) = WAIT_TIMEOUT /\ probe_send os = -1)
   \/ gqcs_error (dequeue os) = ERROR_NETNAME_DELETED ->
   exists w1 evs,
     TCP._Run_iteration indeterminate indeterminate_addr os l w
       = (Returns (Continue, store_dequeue (dequeue os) l), w1) /\
     map_active_ (pool_sock_context_ w1) !! sock_id_ s = None /\
     trace w1 = trace w
       ++ (if WAIT_TIMEOUT =? gqcs_error (dequeue os) then [send (sock_ s) 0] else [])
       ++ evs ++ [DisconnectedCallback (sock_id_ s)] /\
     quiet evs) /\
  (gqcs_error (dequeue os) <> WAIT_TIMEOUT ->
   gqcs_error (dequeue os) <> ERROR_NETNAME_DELETED ->
   TCP._Run_iteration indeterminate indeterminate_addr os l w
     = (Returns (Break, store_dequeue (dequeue os) l), w)).
Proof.
  intros Hret Hact Hs Hlis Hok.
  assert (EI : TCP._Run_iteration indeterminate indeterminate_addr os l w =
               (let* handled := TCP._HandleError os (Some sh) (gqcs_error (dequeue os)) in
                if handled then ret (Continue, store_dequeue (dequeue os) l)
                else ret (Break, store_dequeue (dequeue os) l)) w).
  { unfold TCP._Run_iteration. rewrite Hret. cbn [negb].
    unfold bind at 1. rewrite GetActiveContext_lookup, Hact. reflexivity. }
  rewrite EI. clear EI.
  unfold TCP._HandleError.
  split; [|split].
  - intros Herr Hprobe. rewrite Herr.
    unfold bind at 1. unfold bind at 1. rewrite (read_sock_live sh s w Hs).
    rewrite Hlis, Z.eqb_refl. cbn [negb andb].
    unfold bind at 1, emit, modify.
    destruct (Z.eqb_spec (-1) (probe_send os)); [congruence|].
    reflexivity.
  - intros Hcase.
    unfold bind at 1. unfold bind at 1. rewrite (read_sock_live sh s w Hs).
    rewrite Hlis. cbn [negb andb].
    destruct Hcase as [[Herr Hprobe]|Herr]; rewrite Herr.
    + rewrite Z.eqb_refl.
      unfold bind at 1, emit, modify.
      set (w0 := set_trace _ w).
      rewrite Hprobe. change (-1 =? -1) with true. cbv iota.
      destruct (DelActiveContext_returns (sock_id_ s) w0 Hok) as (w1 & evs & E & Hgone & Ht & Hq).
      unfold bind at 1. unfold bind at 1. rewrite E.
      eexists _, evs. split; [reflexivity|].
      split; [exact Hgone|]. split; [|exact Hq].
      cbn. rewrite Ht. unfold w0. cbn. rewrite <- !app_assoc. reflexivity.
    + change (WAIT_TIMEOUT =? ERROR_NETNAME_DELETED) with false.
      rewrite Z.eqb_refl. cbv iota.
      destruct (DelActiveContext_returns (sock_id_ s) w Hok) as (w1 & evs & E & Hgone & Ht & Hq).
      unfold bind at 1. unfold bind at 1. rewrite E.
      eexists _, evs. split; [reflexivity|].
      split; [exact Hgone|]. split; [|exact Hq].
      cbn. rewrite Ht. rewrite <- !app_assoc. reflexivity.
  - intros H1 H2.
    unfold bind at 1. unfold bind at 1. rewrite (read_sock_live sh s w Hs).
    rewrite Hlis. cbn [negb andb].
    destruct (Z.eqb_spec WAIT_TIMEOUT (gqcs_error (dequeue os))); [congruence|].
    destruct (Z.eqb_spec ERROR_NETNAME_DELETED (gqcs_error (dequeue os))); [congruence|].
    reflexivity.
Qed.

(** The context [GetSocketContext] gives is not the listen context, when
    that one is neither the idle head nor the next address. *)
Lemma GetSocketContext_other (w : World) (lsh : Z) : idle_head_ready w ->
  head (list_idle_ (pool_sock_context_ w)) <> Some (Some lsh) ->
  lsh <> next_addr w ->
  exists sh s0 w0,
    GetSocketContext indeterminate indeterminate_addr w = (Returns (Some sh), w0) /\
    sh <> lsh /\
    socks w0 !! sh = Some s0 /\
    socks w0 !! lsh = socks w !! lsh /\
    map_active_ (pool_sock_context_ w0) = map_active_ (pool_sock_context_ w) /\
    trace w0 = trace w /\ ios w0 = ios w.
Proof.
  intros Hready Hhead Hnext. unfold GetSocketContext, bind, get, put, ret.
  unfold idle_head_ready in Hready.
  destruct (list_idle_ (pool_sock_context_ w)) as [|p rest] eqn:E.
  - eexists _, _, _. split; [reflexivity|]. cbn. split; [congruence|].
    split; [apply lookup_insert_eq|].
    split; [apply lookup_insert_ne; congruence|]. repeat split; reflexivity.
  - destruct (Hready p rest eq_refl) as (sh & -> & [s0 Hs0]).
    exists sh, s0. eexists. split; [reflexivity|]. cbn.
    split; [intros ->; apply Hhead; reflexivity|]. repeat split; assumption.
Qed.

(** [_DoAccept] when the accepted socket is associated and its first
    receive is posted. *)
Lemma _DoAccept_effect (os : OsAnswers) (w : World) (lsh a : Z)
    (io : IOCP_IoContext) (ls : IOCP_SocketContext) :
  ios w !! a = Some io ->
  socks w !! lsh = Some ls ->
  idle_head_ready w ->
  head (list_idle_ (pool_sock_context_ w)) <> Some (Some lsh) ->
  lsh <> next_addr w ->
  associate os = true ->
  fst (recv_post os) = 0 \/ snd (recv_post os) = WSA_IO_PENDING ->
  exists b w1 nsh ns io',
    TCP._DoAccept indeterminate indeterminate_addr os (Some lsh) (HeapIo a) w
      = (Returns b, w1) /\
    map_active_ (pool_sock_context_ w1)
      = <[uint32_t (sock_accept_ io) := nsh]> (map_active_ (pool_sock_context_ w)) /\
    nsh <> lsh /\
    socks w1 !! nsh = Some ns /\
    sock_ ns = sock_accept_ io /\ sock_id_ ns = uint32_t (sock_accept_ io) /\
    local_addr_ ns = accept_remote os /\
    operation_ (recv_context_ ns) = RECV_POSTED /\
    ios w1 !! a = Some io' /\
    operation_ io' = ACCEPT_POSTED /\ sock_accept_ io' = accept_socket os /\
    trace w1 = trace w ++
      [GetAcceptExSockAddrs (HeapIo a);
       CreateIoCompletionPort (sock_accept_ io) (uint32_t (sock_accept_ io));
       ConnectedCallback (uint32_t (sock_accept_ io));
       WSARecv (sock_accept_ io) (RecvIo nsh);
       WSASocket] ++
      (if INVALID_SOCKET =? accept_socket os then []
       else [AcceptEx (sock_ ls) (accept_socket os) (HeapIo a)]).
Proof.
  intros Hio Hls Hready Hhead Hnext Hassoc Hrecv.
  unfold TCP._DoAccept.
  unfold bind at 1. rewrite (read_io_heap a io w Hio).
  unfold bind at 1, emit, modify.
  set (wa := set_trace _ w).
  assert (Hra : idle_head_ready wa) by exact Hready.
  destruct (GetSocketContext_other wa lsh Hra Hhead Hnext)
    as (nsh & s0 & w0 & EG & Hne & Hs0 & Hl0 & Hm0 & Ht0 & Hi0).
  unfold bind at 1. rewrite EG.
  unfold bind at 1. rewrite (update_sock_live nsh s0 _ w0 Hs0).
  unfold bind at 1. rewrite (update_sock_live nsh _ _ _ (lookup_insert_eq _ _ _)).
  unfold bind at 1. rewrite (update_sock_live nsh _ _ _ (lookup_insert_eq _ _ _)).
  set (n3 := set_local_addr_ _ _).
  match goal with |- exists _ _ _ _ _, _ ?w' = _ /\ _ => set (w3 := w') end.
  assert (H3 : socks w3 !! nsh = Some n3) by apply lookup_insert_eq.
  unfold bind at 1. unfold AddActiveContext. unfold bind at 1.
  rewrite (read_sock_live nsh n3 w3 H3). unfold bind at 1, get, put.
  set (w4 := set_pool_sock_context_ _ w3).
  assert (H4 : socks w4 !! nsh = Some n3) by exact H3.
  unfold bind at 1. unfold TCP.AssociateWithIOCP. unfold bind at 1.
  rewrite (read_sock_live nsh n3 w4 H4). unfold bind at 1, emit, modify, ret.
  rewrite Hassoc. cbn [negb].
  set (w5 := set_trace _ w4).
  assert (H5 : socks w5 !! nsh = Some n3) by exact H3.
  unfold bind at 1. rewrite (read_sock_live nsh n3 w5 H5).
  unfold bind at 1.
  set (w6 := set_trace _ w5).
  assert (H6 : socks w6 !! nsh = Some n3) by exact H3.
  unfold bind at 1. rewrite (TCP_PostRecv_ok os nsh n3 w6 H6 Hrecv). cbn [negb].
  set (w7 := set_trace _ (set_socks _ w6)).
  assert (Hio7 : ios w7 !! a = Some io) by (change (ios w7) with (ios w0); rewrite Hi0; exact Hio).
  unfold bind at 1. unfold update_io at 1. unfold bind at 1.
  rewrite (read_io_heap a io w7 Hio7), (write_io_heap a io _ w7 Hio7).
  set (w8 := set_ios _ w7).
  assert (Hls8 : socks w8 !! lsh = Some ls).
  { unfold w8, w7, w6, w5, w4, w3. cbn.
    rewrite !lookup_insert_ne by congruence. rewrite Hl0. exact Hls. }
  unfold TCP.PostAccept.
  unfold bind at 1. rewrite (read_sock_live lsh ls w8 Hls8).
  unfold bind at 1. unfold update_io at 1. unfold bind at 1.
  rewrite (read_io_heap a _ w8 (lookup_insert_eq _ _ _)),
          (write_io_heap a _ _ w8 (lookup_insert_eq _ _ _)).
  unfold bind at 1. unfold emit at 1. unfold modify at 1.
  set (w9 := set_trace _ (set_ios _ w8)).
  unfold bind at 1. unfold update_io at 1. unfold bind at 1.
  rewrite (read_io_heap a _ w9 (lookup_insert_eq _ _ _)),
          (write_io_heap a _ _ w9 (lookup_insert_eq _ _ _)).
  set (w10 := set_ios _ w9).
  assert (Hu : uint32_t (uint32_t (sock_accept_ io)) = uint32_t (sock_accept_ io)).
  { unfold uint32_t. apply Z.mod_mod. lia. }
  assert (Htr10 : trace w10 = trace w ++
            [GetAcceptExSockAddrs (HeapIo a);
             CreateIoCompletionPort (sock_accept_ io) (uint32_t (sock_accept_ io));
             ConnectedCallback (uint32_t (sock_accept_ io));
             WSARecv (sock_accept_ io) (RecvIo nsh);
             WSASocket]).
  { unfold w10, w9, w8, w7, w6, w5, w4, w3. cbn. rewrite Ht0. unfold wa. cbn.
    rewrite Hu, <- !app_assoc. reflexivity. }
  assert (Hls10 : socks w10 !! lsh = Some ls) by exact Hls8.
  destruct (Z.eqb_spec INVALID_SOCKET (accept_socket os)) as [Hinv|Hval].
  - unfold ret. eexists _, _, nsh, _, _. split; [reflexivity|].
    split; [cbn; rewrite Hm0; reflexivity|].
    split; [exact Hne|].
    split; [cbn; apply lookup_insert_eq|].
    do 4 (split; [reflexivity|]).
    split; [cbn; apply lookup_insert_eq|].
    split; [reflexivity|]. split; [reflexivity|].
    rewrite app_nil_r. exact Htr10.
  - unfold bind at 1. rewrite (read_sock_live lsh ls w10 Hls10).
    unfold bind at 1. unfold emit at 1. unfold modify at 1.
    set (w11 := set_trace _ w10).
    assert (EB : exists b, (if negb (fst (accept_post os))
                               && negb (WSA_IO_PENDING =? snd (accept_post os))
                            then ret false else ret true) w11 = (Returns b, w11)).
    { destruct (negb _ && negb _); eexists; reflexivity. }
    destruct EB as (b & EB). rewrite EB.
    eexists b, _, nsh, _, _. split; [reflexivity|].
    split; [cbn; rewrite Hm0; reflexivity|].
    split; [exact Hne|].
    split; [cbn; apply lookup_insert_eq|].
    do 4 (split; [reflexivity|]).
    split; [cbn; apply lookup_insert_eq|].
    split; [reflexivity|]. split; [reflexivity|].
    change (trace w11) with (trace w10 ++ [AcceptEx (sock_ ls) (accept_socket os) (HeapIo a)]).
    rewrite Htr10, <- app_assoc. reflexivity.
Qed.

(** X29. A dequeued accept completion on the listen socket in the TCP
    worker, when the accepted socket is associated with the completion port
    and its first receive is posted: the accepted socket gets a socket
    context of its own, filed under the handle truncated to 32 bits, with the
    remote address the system reports; [ConnectedCallback] is called with
    that id before the receive is posted; the I/O context of the accept is
    armed again with a new socket and, unless that socket is invalid, a new
    [AcceptEx] is issued on the listen socket. *)
Theorem accept_completion_registers_connection
    (os : OsAnswers) (l : Locals) (w : World) (key bytes lsh a : Z)
    (io : IOCP_IoContext) (ls : IOCP_SocketContext) :
  gqcs_ret (dequeue os) = true ->
  gqcs_bytes (dequeue os) = Some bytes ->
  gqcs_key (dequeue os) = Some key ->
  gqcs_overlapped (dequeue os) = Some (HeapIo a) ->
  ios w !! a = Some io ->
  operation_ io = ACCEPT_POSTED ->
  map_active_ (pool_sock_context_ w) !! key = Some lsh ->
  socks w !! lsh = Some ls ->
  idle_head_ready w ->
  head (list_idle_ (pool_sock_context_ w)) <> Some (Some lsh) ->
  lsh <> next_addr w ->
  associate os = true ->
  fst (recv_post os) = 0 \/ snd (recv_post os) = WSA_IO_PENDING ->
  exists w1 nsh ns io',
    TCP._Run_iteration indeterminate indeterminate_addr os l w =
      (Returns (Continue, mkLocals bytes key (Some (HeapIo a)) (Some (HeapIo a))), w1) /\
    map_active_ (pool_sock_context_ w1)
      = <[uint32_t (sock_accept_ io) := nsh]> (map_active_ (pool_sock_context_ w)) /\
    nsh <> lsh /\
    socks w1 !! nsh = Some ns /\
    sock_ ns = sock_accept_ io /\ sock_id_ ns = uint32_t (sock_accept_ io) /\
    local_addr_ ns = accept_remote os /\
    operation_ (recv_context_ ns) = RECV_POSTED /\
    ios w1 !! a = Some io' /\
    operation_ io' = ACCEPT_POSTED /\ sock_accept_ io' = accept_socket os /\
    trace w1 = trace w ++
      [GetAcceptExSockAddrs (HeapIo a);
       CreateIoCompletionPort (sock_accept_ io) (uint32_t (sock_accept_ io));
       ConnectedCallback (uint32_t (sock_accept_ io));
       WSARecv (sock_accept_ io) (RecvIo nsh);
       WSASocket] ++
      (if INVALID_SOCKET =? accept_socket os then []
       else [AcceptEx (sock_ ls) (accept_socket os) (HeapIo a)]).
Proof.
  intros Hret Hbytes Hkey Hov Hio Hop Hact Hls Hready Hhead Hnext Hassoc Hrecv.
  destruct (_DoAccept_effect os w lsh a io ls Hio Hls Hready Hhead Hnext Hassoc Hrecv)
    as (b & w1 & nsh & ns & io' & E & Hrest).
  exists w1, nsh, ns, io'. split; [|exact Hrest].
  unfold TCP._Run_iteration, store_dequeue, CONTAINING_RECORD.
  rewrite Hret, Hbytes, Hkey, Hov.
  cbn [default from_option id sock_id bytes_transfered overlapped io_data negb].
  unfold bind at 1. rewrite GetActiveContext_lookup, Hact.
  unfold bind at 1. rewrite (read_io_heap a io w Hio), Hop.
  cbn [IO_OPERATION_eqb orb]. rewrite andb_false_r.
  unfold bind. rewrite E. reflexivity.
Qed.

(** X30. [SendTo] of the started UDP node, for an active socket and a payload
    that fits one I/O buffer: one [WSASendTo] is issued on the socket with an
    I/O context that holds the payload, the payload length, the operation
    [SEND_POSTED] and the destination built from the address and the port
    through [htons]; the context is appended to the list of the socket
    context, also when the call reports an error, and the result is [false]
    only for [SOCKET_ERROR] with an error other than [WSA_IO_PENDING]. *)
Theorem SendTo_posts_datagram (os : OsAnswers) (sock_id sh : Z) (s : IOCP_SocketContext)
    (data : list Z) (data_len dst_ip_addr dst_port : Z) (w : World) :
  map_active_ (pool_sock_context_ w) !! sock_id = Some sh ->
  socks w !! sh = Some s ->
  pool_head_ready w ->
  size_of data = data_len -> data_len <= MAX_IO_BUFFER_SIZE ->
  exists a c1 w1,
    IOCP_UDPNode_SendTo indeterminate true os sock_id data data_len dst_ip_addr dst_port w
      = (Returns (negb ((SOCKET_ERROR =? fst (send_post os))
                        && negb (WSA_IO_PENDING =? snd (send_post os)))), w1) /\
    trace w1 = trace w ++ [WSASendTo (sock_ s) (HeapIo a)] /\
    ios w1 !! a = Some c1 /\
    take (Z.to_nat data_len) (buf_ c1) = data /\
    WSABUF_len (wsa_buf_ c1) = data_len /\
    operation_ c1 = SEND_POSTED /\
    remote_addr_ c1 = sockaddr_of dst_ip_addr dst_port /\
    socks w1 = <[sh := set_list_io_context_ (list_io_context_ s ++ [HeapIo a]) s]> (socks w) /\
    pool_sock_context_ w1 = pool_sock_context_ w.
Proof.
  intros Hact Hs Hready Hlen Hfit.
  pose proof (MemFacts.size_of_nonneg data) as Hnn.
  destruct (GetIoContext_ready w Hready)
    as (a & c & w0 & EG & Hc & Hsz & Hs0 & Hp0 & Ht0).
  assert (Hr0 : read_io (HeapIo a) w0 = (Returns c, w0)) by (apply read_io_heap; exact Hc).
  destruct (memcpy_to_buf__outcome (HeapIo a) c data data_len w0 Hr0 Hsz Hlen
              ltac:(unfold MAX_IO_BUFFER_SIZE in *; lia)) as [EM _].
  specialize (EM Hfit).
  set (c0 := set_buf_ (data ++ drop (Z.to_nat data_len) (buf_ c)) c) in *.
  rewrite (write_io_heap a c c0 w0 Hc) in EM.
  set (w1 := set_ios (<[a := c0]> (ios w0)) w0) in *.
  assert (Hu : uint32_t data_len = data_len).
  { unfold uint32_t. apply Z.mod_small. unfold MAX_IO_BUFFER_SIZE in *. lia. }
  assert (Eupd : forall (f : IOCP_IoContext -> IOCP_IoContext) cx (wx : World),
            ios wx = <[a := cx]> (ios w0) ->
            update_io (HeapIo a) f wx = (Returns tt, set_ios (<[a := f cx]> (ios wx)) wx)).
  { intros f cx wx Hx. unfold update_io, bind.
    rewrite (read_io_heap a cx wx) by (rewrite Hx; apply lookup_insert_eq).
    rewrite (write_io_heap a cx _ wx) by (rewrite Hx; apply lookup_insert_eq).
    reflexivity. }
  unfold IOCP_UDPNode_SendTo. cbn [negb].
  unfold bind at 1. rewrite GetActiveContext_lookup, Hact.
  unfold bind at 1. rewrite EG.
  unfold bind at 1. rewrite EM.
  unfold bind at 1. rewrite (Eupd _ c0 w1 eq_refl), Hu.
  unfold bind at 1. rewrite (Eupd _ (set_wsa_buf_len data_len c0) _)
    by (cbn; apply insert_insert_eq).
  unfold bind at 1. rewrite (Eupd _ (set_remote_addr_ SOCKADDR_IN_zero (set_wsa_buf_len data_len c0)) _)
    by (cbn; rewrite !insert_insert_eq; reflexivity).
  fold (sockaddr_of dst_ip_addr dst_port).
  match goal with |- exists _ _ _, _ ?w' = _ /\ _ => set (w4 := w') end.
  assert (Hs4 : socks w4 !! sh = Some s) by (change (socks w4) with (socks w0); rewrite Hs0; exact Hs).
  unfold bind at 1. unfold AddContext.
  rewrite (update_sock_live sh s
             (fun s => set_list_io_context_ (list_io_context_ s ++ [HeapIo a]) s) w4 Hs4).
  set (s5 := set_list_io_context_ (list_io_context_ s ++ [HeapIo a]) s).
  set (w5 := set_socks _ w4).
  set (c4 := set_remote_addr_ (sockaddr_of dst_ip_addr dst_port)
               (set_remote_addr_ SOCKADDR_IN_zero (set_wsa_buf_len data_len c0))).
  assert (Hc5 : ios w5 !! a = Some c4).
  { unfold w5, w4. cbn. apply lookup_insert_eq. }
  unfold UDP.PostSend. unfold bind at 1. unfold update_io. unfold bind at 1.
  rewrite (read_io_heap a c4 w5 Hc5), (write_io_heap a c4 _ w5 Hc5).
  unfold bind at 1. rewrite (read_sock_live sh s5) by apply lookup_insert_eq.
  unfold bind at 1, emit, modify.
  exists a, (set_operation_ SEND_POSTED c4). eexists.
  split.
  { destruct ((SOCKET_ERROR =? fst (send_post os))
              && negb (WSA_IO_PENDING =? snd (send_post os))); reflexivity. }
  split; [cbn; rewrite Ht0; reflexivity|].
  split; [cbn; apply lookup_insert_eq|].
  split.
  { cbn. subst data_len. unfold size_of. rewrite Nat2Z.id. apply take_app_length. }
  split; [reflexivity|]. split; [reflexivity|]. split; [reflexivity|].
  split; [cbn; rewrite Hs0; reflexivity|].
  cbn. exact Hp0.
Qed.

End Workers.

(** From the lookup [Hs : m !! k = Some s], the value [v] of the field [f]
    of [s]. *)
Ltac field_of Hs f v H :=
  lazymatch type of Hs with
  | ?lk = Some ?s =>
      assert (H : option_map f lk = Some v) by (vm_compute; reflexivity);
      rewrite Hs in H; injection H as H
  end.

Ltac live_at m k s Hs :=
  destruct (m !! k) as [s|] eqn:Hs; [|vm_compute in Hs; discriminate].

(** X19 at instances: on the world with the connected socket 7, a send on
    the socket 8 of the started client, and a datagram on the socket 7 of a
    node that is not started. *)
Lemma Send_refused_witness :
  map_active_ (pool_sock_context_ tcp_connected) !! 8 = None /\
  IOCP_TCPClient_Send zeroed true (calm 0) 8 [1; 2] 2 tcp_connected
    = (Returns false, tcp_connected) /\
  IOCP_UDPNode_SendTo zeroed false (calm 0) 7 [1; 2] 2 0x0100007f 8080 tcp_connected
    = (Returns false, tcp_connected).
Proof.
  assert (H1 : map_active_ (pool_sock_context_ tcp_connected) !! 8 = None)
    by (vm_compute; reflexivity).
  split; [exact H1|]. split.
  - exact (proj1 (Send_refused zeroed true (calm 0) 8 [1; 2] 2 0 0 SOCKADDR_IN_zero
                    tcp_connected (or_intror H1))).
  - exact (proj1 (proj2 (proj2 (Send_refused zeroed false (calm 0) 7 [1; 2] 2 0x0100007f 8080
                                  SOCKADDR_IN_zero tcp_connected (or_introl eq_refl))))).
Defined.

(** X20 at an instance: the started server, whose listen socket is 50,
    dequeues a failure with the error 995 for the key 50; a later packet in
    the queue is never looked at. *)
Lemma listen_socket_error_stops_worker_witness :
  let os := failed_dequeue 50 995 0 in
  exists s,
    gqcs_ret (dequeue os) = false /\
    map_active_ (pool_sock_context_ server_started) !! 50 = Some 1 /\
    socks server_started !! 1 = Some s /\ is_listen_sock_ s = true /\
    TCP._Run_iteration zeroed zeroed_addr os Locals_new server_started
      = (Returns (Break, mkLocals 0 50 None None), server_started) /\
    TCP._Run_loop zeroed zeroed_addr [os; late_recv 5] Locals_new server_started
      = (Returns 0, server_started).
Proof.
  intros os.
  assert (Hact : map_active_ (pool_sock_context_ server_started)
                   !! sock_id (store_dequeue (dequeue os) Locals_new) = Some 1)
    by (vm_compute; reflexivity).
  live_at (socks server_started) 1 s Hs.
  field_of Hs is_listen_sock_ true Hlis.
  exists s. split; [reflexivity|]. split; [exact Hact|]. split; [reflexivity|].
  split; [exact Hlis|].
  exact (listen_socket_error_stops_worker zeroed zeroed_addr os [late_recv 5] Locals_new
           server_started 1 s eq_refl Hact Hs Hlis).
Defined.

(** X21 at instances: the UDP node with the socket 7. A failure with the
    error 995 on the key 7 ends the loop, one with [WAIT_TIMEOUT] does not,
    and neither changes the state. *)
Lemma UDP_failed_dequeue_never_disconnects_witness :
  (forall sh, map_active_ (pool_sock_context_ udp_created) !! 7 = Some sh ->
              is_Some (socks udp_created !! sh)) /\
  UDP._Run_iteration (failed_dequeue 7 995 0) Locals_new udp_created
    = (Returns (Break, mkLocals 0 7 None None), udp_created) /\
  UDP._Run_iteration (failed_dequeue 7 WAIT_TIMEOUT (-1)) Locals_new udp_created
    = (Returns (Continue, mkLocals 0 7 None None), udp_created).
Proof.
  assert (H1 : forall sh, map_active_ (pool_sock_context_ udp_created) !! 7 = Some sh ->
                          is_Some (socks udp_created !! sh)).
  { intros sh Hsh. vm_compute in Hsh. injection Hsh as <-.
    live_at (socks udp_created) 1 s Hs. eexists. reflexivity. }
  split; [exact H1|]. split.
  - exact (UDP_failed_dequeue_never_disconnects (failed_dequeue 7 995 0) Locals_new
             udp_created eq_refl H1).
  - exact (UDP_failed_dequeue_never_disconnects (failed_dequeue 7 WAIT_TIMEOUT (-1))
             Locals_new udp_created eq_refl H1).
Defined.

(** X22 at instances: five bytes received on the connected socket 7 of the
    TCP client, and on the socket 7 of the UDP node. *)
Lemma recv_completion_delivers_and_reposts_witness :
  exists s u wt wu,
    socks tcp_connected !! 1 = Some s /\ socks udp_created !! 1 = Some u /\
    TCP._Run_iteration zeroed zeroed_addr (late_recv 5) Locals_new tcp_connected
      = (Returns (Continue, mkLocals 5 7 (Some (RecvIo 1)) (Some (RecvIo 1))), wt) /\
    trace wt = trace tcp_connected
                 ++ [ReceivedCallback 7 (buf_ (recv_context_ s)) 5; WSARecv 7 (RecvIo 1)] /\
    UDP._Run_iteration (late_recv 5) Locals_new udp_created
      = (Returns (Continue, mkLocals 5 7 (Some (RecvIo 1)) (Some (RecvIo 1))), wu) /\
    trace wu = trace udp_created
                 ++ [ReceiveFromCallback 7 (buf_ (recv_context_ u)) 5
                       (remote_addr_ (recv_context_ u));
                     WSARecvFrom 7 (RecvIo 1)].
Proof.
  live_at (socks tcp_connected) 1 s Hs.
  live_at (socks udp_created) 1 u Hu.
  field_of Hs sock_ 7 Hs1. field_of Hs sock_id_ 7 Hs2.
  field_of Hu sock_ 7 Hu1. field_of Hu sock_id_ 7 Hu2.
  assert (Hrs : read_io (RecvIo 1) tcp_connected = (Returns (recv_context_ s), tcp_connected)).
  { unfold read_io, bind, get. rewrite Hs. reflexivity. }
  assert (Hru : read_io (RecvIo 1) udp_created = (Returns (recv_context_ u), udp_created)).
  { unfold read_io, bind, get. rewrite Hu. reflexivity. }
  field_of Hs (fun s => operation_ (recv_context_ s)) RECV_POSTED Hos.
  field_of Hu (fun s => operation_ (recv_context_ s)) RECV_POSTED Hou.
  assert (Hat : map_active_ (pool_sock_context_ tcp_connected) !! 7 = Some 1)
    by (vm_compute; reflexivity).
  assert (Hau : map_active_ (pool_sock_context_ udp_created) !! 7 = Some 1)
    by (vm_compute; reflexivity).
  pose proof (proj1 (recv_completion_delivers_and_reposts zeroed zeroed_addr (late_recv 5)
                       Locals_new tcp_connected 7 5 1 (RecvIo 1) (recv_context_ s) s
                       eq_refl eq_refl eq_refl eq_refl Hrs Hos Hat Hs)
                ltac:(lia) (or_introl eq_refl)) as Et.
  pose proof (proj2 (recv_completion_delivers_and_reposts zeroed zeroed_addr (late_recv 5)
                       Locals_new udp_created 7 5 1 (RecvIo 1) (recv_context_ u) u
                       eq_refl eq_refl eq_refl eq_refl Hru Hou Hau Hu)) as Eu.
  rewrite Hs1, Hs2 in Et. rewrite Hu1, Hu2 in Eu.
  eexists s, u, _, _. split; [reflexivity|]. split; [reflexivity|].
  split; [exact Et|]. split; [reflexivity|]. split; [exact Eu|]. reflexivity.
Defined.


(** X24 at instances: on the world of the connected client that has one
    send outstanding, the post of a receive and the post of a send fail. *)
Lemma post_failure_reports_id_zero_witness :
  exists s c wr er ws es,
    socks tcp_sent !! 1 = Some s /\ sock_id_ s = 7 /\ ios tcp_sent !! 2 = Some c /\
    TCP.PostRecv posts_fail (Some 1) tcp_sent = (Returns false, wr) /\
    map_active_ (pool_sock_context_ wr) !! 7 = None /\
    trace wr = trace tcp_sent ++ [WSARecv 7 (RecvIo 1)] ++ er ++ [DisconnectedCallback 0] /\
    quiet er /\
    TCP.PostSend posts_fail (Some 1) (HeapIo 2) tcp_sent = (Returns false, ws) /\
    map_active_ (pool_sock_context_ ws) !! 7 = None /\
    trace ws = trace tcp_sent ++ [WSASend 7 (HeapIo 2)] ++ es ++ [DisconnectedCallback 0] /\
    quiet es.
Proof.
  live_at (socks tcp_sent) 1 s Hs.
  live_at (ios tcp_sent) 2 c Hc.
  field_of Hs sock_id_ 7 Hid. field_of Hs sock_ 7 Hsock.
  field_of Hs list_io_context_ [HeapIo 2] Hlist.
  assert (Hact : map_active_ (pool_sock_context_ tcp_sent) !! sock_id_ s = Some 1)
    by (rewrite Hid; vm_compute; reflexivity).
  assert (Hnd : NoDup (list_io_context_ s)).
  { rewrite Hlist. apply NoDup_singleton. }
  assert (Hall : Forall (live_heap tcp_sent) (list_io_context_ s)).
  { rewrite Hlist. constructor; [|constructor].
    exists 2. split; [reflexivity|]. rewrite Hc. eexists. reflexivity. }
  destruct (post_failure_reports_id_zero posts_fail 1 s tcp_sent Hs Hact Hnd Hall)
    as [Hrecv Hsend].
  destruct (Hrecv ltac:(vm_compute; discriminate) ltac:(vm_compute; discriminate))
    as (wr & er & Er & Hgr & Htr & Hqr).
  destruct (Hsend 2 c Hc ltac:(vm_compute; discriminate) ltac:(vm_compute; discriminate))
    as (ws & es & Es & Hgs & Hts & Hqs).
  rewrite Hid in Hgr, Hgs. rewrite Hsock in Htr, Hts.
  exists s, c, wr, er, ws, es.
  split; [reflexivity|]. split; [exact Hid|]. split; [reflexivity|].
  split; [exact Er|]. split; [exact Hgr|]. split; [exact Htr|]. split; [exact Hqr|].
  split; [exact Es|]. split; [exact Hgs|]. split; [exact Hts|exact Hqs].
Defined.

(** X25 at an instance: the connected client sends three bytes on the
    socket 7. *)
Lemma Send_posts_payload_witness :
  exists s a c1 w1,
    socks tcp_connected !! 1 = Some s /\ pool_head_ready tcp_connected /\
    IOCP_TCPClient_Send zeroed true (calm 0) 7 [1; 2; 3] 3 tcp_connected
      = (Returns true, w1) /\
    trace w1 = trace tcp_connected ++ [WSASend 7 (HeapIo a)] /\
    ios w1 !! a = Some c1 /\
    take 3 (buf_ c1) = [1; 2; 3] /\ size_of (buf_ c1) = 4096 /\
    WSABUF_len (wsa_buf_ c1) = 3 /\ operation_ c1 = SEND_POSTED /\
    socks w1 = <[1 := set_list_io_context_ [HeapIo a] s]> (socks tcp_connected).
Proof.
  live_at (socks tcp_connected) 1 s Hs.
  field_of Hs sock_ 7 Hsock. field_of Hs list_io_context_ (@nil io_ptr) Hlist.
  assert (Hact : map_active_ (pool_sock_context_ tcp_connected) !! 7 = Some 1)
    by (vm_compute; reflexivity).
  assert (Hready : pool_head_ready tcp_connected).
  { intros p rest H. vm_compute in H. discriminate. }
  destruct (Send_posts_payload zeroed (calm 0) 7 1 s [1; 2; 3] 3 tcp_connected
              Hact Hs Hready eq_refl ltac:(vm_compute; discriminate) (or_introl eq_refl))
    as (a & c1 & w1 & E & _ & Htr & Hc1 & Htake & Hsz & Hlen & Hop & Hsocks & _).
  rewrite Hsock in Htr. rewrite Hlist in Hsocks.
  exists s, a, c1, w1.
  split; [reflexivity|]. split; [exact Hready|]. split; [exact E|]. split; [exact Htr|].
  split; [exact Hc1|]. split; [exact Htake|]. split; [exact Hsz|]. split; [exact Hlen|].
  split; [exact Hop|exact Hsocks].
Defined.

(** X26 at instances: a client that is not started, and a started client
    for which no socket can be created. *)
Lemma Connect_failure_leaves_nothing_active_witness :
  idle_head_ready Init_World /\
  IOCP_TCPClient_Connect zeroed zeroed_addr false (calm 7) 0x0100007f 8080 Init_World
    = (Returns (false, None), Init_World) /\
  exists w1 sh s1,
    IOCP_TCPClient_Connect zeroed zeroed_addr true (calm INVALID_SOCKET) 0x0100007f 8080
      Init_World = (Returns (false, None), w1) /\
    map_active_ (pool_sock_context_ w1) = map_active_ (pool_sock_context_ Init_World) /\
    trace w1 = [WSASocket] /\
    socks w1 !! sh = Some s1 /\ sock_ s1 = INVALID_SOCKET /\
    list_idle_ (pool_sock_context_ w1) = [Some sh].
Proof.
  assert (Hready : idle_head_ready Init_World).
  { intros p rest H. vm_compute in H. discriminate. }
  split; [exact Hready|]. split.
  - exact (proj1 (Connect_failure_leaves_nothing_active zeroed zeroed_addr (calm 7)
                    0x0100007f 8080 Init_World Hready)).
  - destruct (proj2 (Connect_failure_leaves_nothing_active zeroed zeroed_addr
                       (calm INVALID_SOCKET) 0x0100007f 8080 Init_World Hready)
                (or_introl eq_refl))
      as (w1 & sh & s1 & E & Hmap & Htr & Hs1 & Hinv & Hidle).
    exists w1, sh, s1. split; [exact E|]. split; [exact Hmap|]. split; [exact Htr|].
    split; [exact Hs1|]. split; [exact Hinv|exact Hidle].
Defined.

(** X27 at an instance: the started client connects to 127.0.0.1, port
    8080, and gets the socket 7. *)
Lemma Connect_registers_socket_witness :
  idle_head_ready Init_World /\ accept_socket (calm 7) <> INVALID_SOCKET /\
  exists w1 sh s1,
    IOCP_TCPClient_Connect zeroed zeroed_addr true (calm 7) 0x0100007f 8080 Init_World
      = (Returns (true, Some 7), w1) /\
    map_active_ (pool_sock_context_ w1) !! 7 = Some sh /\
    socks w1 !! sh = Some s1 /\ sock_ s1 = 7 /\ sock_id_ s1 = 7 /\
    operation_ (recv_context_ s1) = RECV_POSTED /\
    remote_addr_ (recv_context_ s1) = sockaddr_of 0x0100007f 8080 /\
    sin_port (sockaddr_of 0x0100007f 8080) = 0x901f /\
    trace w1 = [WSASocket; WSAConnect 7 (sockaddr_of 0x0100007f 8080);
                CreateIoCompletionPort 7 7; WSARecv 7 (RecvIo sh)].
Proof.
  assert (Hready : idle_head_ready Init_World).
  { intros p rest H. vm_compute in H. discriminate. }
  assert (Hsock : accept_socket (calm 7) <> INVALID_SOCKET) by (vm_compute; discriminate).
  split; [exact Hready|]. split; [exact Hsock|].
  assert (Hconn : fst (connect_post (calm 7)) <> SOCKET_ERROR
                  \/ snd (connect_post (calm 7)) = WSAEWOULDBLOCK)
    by (left; vm_compute; discriminate).
  destruct (Connect_registers_socket zeroed zeroed_addr (calm 7) 0x0100007f 8080 Init_World
              Hready Hsock Hconn eq_refl (or_introl eq_refl))
    as (w1 & sh & s1 & E & Hmap & Hs1 & Hs & Hid & Hop & Hrem & Htr).
  change (uint32_t (accept_socket (calm 7))) with 7 in E, Hmap, Hid.
  change (accept_socket (calm 7)) with 7 in Hs, Htr.
  exists w1, sh, s1. split; [exact E|].
  split; [rewrite Hmap; apply lookup_insert_eq|].
  split; [exact Hs1|]. split; [exact Hs|]. split; [exact Hid|]. split; [exact Hop|].
  split; [exact Hrem|]. split; [reflexivity|exact Htr].
Defined.

(** X28 at instances: the connected socket 7 of the client. A timeout with
    a successful probe, a deleted network name, and the error 995. *)
Lemma failed_dequeue_on_connection_witness :
  exists s w1 evs,
    socks tcp_connected !! 1 = Some s /\ is_listen_sock_ s = false /\
    TCP._Run_iteration zeroed zeroed_addr (failed_dequeue 7 WAIT_TIMEOUT 0) Locals_new
      tcp_connected
      = (Returns (Continue, mkLocals 0 7 None None),
         set_trace (trace tcp_connected ++ [send 7 0]) tcp_connected) /\
    TCP._Run_iteration zeroed zeroed_addr (failed_dequeue 7 ERROR_NETNAME_DELETED 0)
      Locals_new tcp_connected
      = (Returns (Continue, mkLocals 0 7 None None), w1) /\
    map_active_ (pool_sock_context_ w1) !! 7 = None /\
    trace w1 = trace tcp_connected ++ [] ++ evs ++ [DisconnectedCallback 7] /\
    quiet evs /\
    TCP._Run_iteration zeroed zeroed_addr (failed_dequeue 7 995 0) Locals_new tcp_connected
      = (Returns (Break, mkLocals 0 7 None None), tcp_connected).
Proof.
  live_at (socks tcp_connected) 1 s Hs.
  field_of Hs is_listen_sock_ false Hlis.
  field_of Hs sock_id_ 7 Hid. field_of Hs sock_ 7 Hsock.
  field_of Hs list_io_context_ (@nil io_ptr) Hlist.
  assert (Hact : forall err probe,
            map_active_ (pool_sock_context_ tcp_connected)
              !! sock_id (store_dequeue (dequeue (failed_dequeue 7 err probe)) Locals_new)
            = Some 1) by (intros; vm_compute; reflexivity).
  assert (Hok : forall sh', map_active_ (pool_sock_context_ tcp_connected) !! sock_id_ s
                            = Some sh' -> shell_ok tcp_connected sh').
  { intros sh' H. rewrite Hid in H. vm_compute in H. injection H as <-.
    exists s. split; [exact Hs|]. rewrite Hlist. split; constructor. }
  pose proof (proj1 (failed_dequeue_on_connection zeroed zeroed_addr
                       (failed_dequeue 7 WAIT_TIMEOUT 0) Locals_new tcp_connected 1 s
                       eq_refl (Hact _ _) Hs Hlis Hok)
                eq_refl ltac:(vm_compute; discriminate)) as E1.
  destruct (proj1 (proj2 (failed_dequeue_on_connection zeroed zeroed_addr
                            (failed_dequeue 7 ERROR_NETNAME_DELETED 0) Locals_new
                            tcp_connected 1 s eq_refl (Hact _ _) Hs Hlis Hok))
              (or_intror eq_refl)) as (w1 & evs & E2 & Hgone & Htr & Hq).
  pose proof (proj2 (proj2 (failed_dequeue_on_connection zeroed zeroed_addr
                              (failed_dequeue 7 995 0) Locals_new tcp_connected 1 s
                              eq_refl (Hact _ _) Hs Hlis Hok))
                ltac:(vm_compute; discriminate) ltac:(vm_compute; discriminate)) as E3.
  rewrite Hsock in E1. rewrite Hid in Hgone, Htr.
  exists s, w1, evs. split; [reflexivity|]. split; [exact Hlis|]. split; [exact E1|].
  split; [exact E2|]. split; [exact Hgone|]. split; [exact Htr|]. split; [exact Hq|].
  exact E3.
Defined.

(** X29 at an instance: the started server, listening on the socket 50,
    dequeues the completion of the accept that carries the socket 100; the
    accept is posted again with the socket 102. *)
Lemma accept_completion_registers_connection_witness :
  let os := answers (mkGQCS true (Some 0) (Some 50) (Some (HeapIo 2)) 0) 102 in
  exists io ls w1 nsh ns io',
    ios server_started !! 2 = Some io /\ operation_ io = ACCEPT_POSTED /\
    sock_accept_ io = 100 /\
    socks server_started !! 1 = Some ls /\ sock_ ls = 50 /\
    TCP._Run_iteration zeroed zeroed_addr os Locals_new server_started
      = (Returns (Continue, mkLocals 0 50 (Some (HeapIo 2)) (Some (HeapIo 2))), w1) /\
    map_active_ (pool_sock_context_ w1) !! 100 = Some nsh /\ nsh <> 1 /\
    socks w1 !! nsh = Some ns /\ sock_ ns = 100 /\ sock_id_ ns = 100 /\
    operation_ (recv_context_ ns) = RECV_POSTED /\
    ios w1 !! 2 = Some io' /\ operation_ io' = ACCEPT_POSTED /\ sock_accept_ io' = 102 /\
    trace w1 = trace server_started ++
      [GetAcceptExSockAddrs (HeapIo 2); CreateIoCompletionPort 100 100;
       ConnectedCallback 100; WSARecv 100 (RecvIo nsh); WSASocket] ++
      [AcceptEx 50 102 (HeapIo 2)].
Proof.
  intros os.
  live_at (ios server_started) 2 io Hio.
  live_at (socks server_started) 1 ls Hls.
  field_of Hio operation_ ACCEPT_POSTED Hop. field_of Hio sock_accept_ 100 Hacc.
  field_of Hls sock_ 50 Hsock.
  assert (Hact : map_active_ (pool_sock_context_ server_started) !! 50 = Some 1)
    by (vm_compute; reflexivity).
  assert (Hready : idle_head_ready server_started).
  { intros p rest H. vm_compute in H. discriminate. }
  assert (Hhead : head (list_idle_ (pool_sock_context_ server_started)) <> Some (Some 1))
    by (vm_compute; discriminate).
  assert (Hnext : 1 <> next_addr server_started) by (vm_compute; discriminate).
  destruct (accept_completion_registers_connection zeroed zeroed_addr os Locals_new
              server_started 50 0 1 2 io ls eq_refl eq_refl eq_refl eq_refl Hio Hop Hact
              Hls Hready Hhead Hnext eq_refl (or_introl eq_refl))
    as (w1 & nsh & ns & io' & E & Hmap & Hne & Hns & Hs1 & Hs2 & _ & Hrecv & Hio' & Hop'
        & Hacc' & Htr).
  rewrite Hacc in Hmap, Hs1, Hs2, Htr. rewrite Hsock in Htr.
  change (uint32_t 100) with 100 in Hmap, Hs2, Htr.
  change (accept_socket os) with 102 in Hacc', Htr.
  exists io, ls, w1, nsh, ns, io'.
  split; [reflexivity|]. split; [exact Hop|]. split; [exact Hacc|]. split; [reflexivity|].
  split; [exact Hsock|]. split; [exact E|].
  split; [rewrite Hmap; apply lookup_insert_eq|].
  split; [exact Hne|]. split; [exact Hns|]. split; [exact Hs1|]. split; [exact Hs2|].
  split; [exact Hrecv|]. split; [exact Hio'|]. split; [exact Hop'|].
  split; [exact Hacc'|exact Htr].
Defined.

(** X30 at an instance: the UDP node sends three bytes from its socket 7
    to 127.0.0.1, port 9000. *)
Lemma SendTo_posts_datagram_witness :
  exists s a c1 w1,
    socks udp_created !! 1 = Some s /\ pool_head_ready udp_created /\
    IOCP_UDPNode_SendTo zeroed true (calm 0) 7 [1; 2; 3] 3 0x0100007f 9000 udp_created
      = (Returns true, w1) /\
    trace w1 = trace udp_created ++ [WSASendTo 7 (HeapIo a)] /\
    ios w1 !! a = Some c1 /\
    take 3 (buf_ c1) = [1; 2; 3] /\ WSABUF_len (wsa_buf_ c1) = 3 /\
    operation_ c1 = SEND_POSTED /\
    remote_addr_ c1 = sockaddr_of 0x0100007f 9000 /\
    sin_port (sockaddr_of 0x0100007f 9000) = 0x2823 /\
    socks w1 = <[1 := set_list_io_context_ [HeapIo a] s]> (socks udp_created).
Proof.
  live_at (socks udp_created) 1 s Hs.
  field_of Hs sock_ 7 Hsock. field_of Hs list_io_context_ (@nil io_ptr) Hlist.
  assert (Hact : map_active_ (pool_sock_context_ udp_created) !! 7 = Some 1)
    by (vm_compute; reflexivity).
  assert (Hready : pool_head_ready udp_created).
  { intros p rest H. vm_compute in H. discriminate. }
  destruct (SendTo_posts_datagram zeroed (calm 0) 7 1 s [1; 2; 3] 3 0x0100007f 9000
              udp_created Hact Hs Hready eq_refl ltac:(vm_compute; discriminate))
    as (a & c1 & w1 & E & Htr & Hc1 & Htake & Hlen & Hop & Hrem & Hsocks & _).
  rewrite Hsock in Htr. rewrite Hlist in Hsocks.
  exists s, a, c1, w1.
  split; [reflexivity|]. split; [exact Hready|]. split; [exact E|]. split; [exact Htr|].
  split; [exact Hc1|]. split; [exact Htake|]. split; [exact Hlen|]. split; [exact Hop|].
  split; [exact Hrem|]. split; [reflexivity|exact Hsocks].
Defined.

End CompletionFacts.
